(** * Post-editor bot for the channel @mnogomorya: drafts, albums, timers

    A shallow embedding of [app.py] and the properties of its draft
    aggregation, payload resolution, time parsing and scheduler.

    Conventions.
    - A Python [str] is a [string]; the empty string is the only falsy one.
    - A media entry is the pair [(kind, file_id)] of the source; kinds are the
      strings the handlers pass ("photo", "video", "document", ...).
    - The pure part of the program (aggregation, album building, time
      parsing) is embedded as functions on values; the handlers are embedded
      over an explicit store of Python objects, so that two names for one
      object stay two names for one object.
    - An exception is a result ([Raise]); a publication to the channel may
      fail, and whether it does is an input of the handler that makes it. *)

From Stdlib Require Import ZArith List String Ascii Bool Lia.
From stdpp Require Import gmap strings list fin_maps.

Local Open Scope string_scope.
Local Open Scope Z_scope.
Local Open Scope list_scope.

(** ** Part I: definitions *)

(** *** Models ([Draft]) *)

(** [(kind, file_id)], as in the annotation [List[Tuple[str, str]]]. *)
Abbreviation entry := (string * string)%type (only parsing).

Record Draft := mkDraft { text : string; media : list entry }.

(** [bool(s)] for a Python string. *)
Definition truthy (s : string) : bool := negb (s =? "")%string.

(** [Draft.is_empty]: [not self.text and not self.media]. *)
Definition is_empty (d : Draft) : bool :=
  negb (truthy (text d)) && match media d with [] => true | _ => false end.

(** [Draft()]. *)
Definition Draft_new : Draft := mkDraft "" [].

(** *** Media aggregation ([add_media_to_draft]) *)

(** [k in ("photo", "video")]. *)
Definition is_pv (k : string) : bool := (k =? "photo")%string || (k =? "video")%string.

Definition entry_is_pv (e : entry) : bool := is_pv (fst e).

(** The slice [l[-n:]] for [n > 0]: the last [n] elements, or all of [l]. *)
Definition slice_last {A} (n : nat) (l : list A) : list A :=
  drop (length l - n)%nat l.

(** One iteration of the loop [for k, fid in reversed(draft.media)], on the
    pair [(seen, new_media)]. *)
Definition collapse_step (acc : gset string * list entry) (e : entry)
  : gset string * list entry :=
  let '(seen, new_media) := acc in
  let '(k, fid) := e in
  if is_pv k then (seen, new_media ++ [(k, fid)])
  else if decide (k ∈ seen) then (seen, new_media)
  else ({[k]} ∪ seen, new_media ++ [(k, fid)]).

(** What the function rebinds [draft.media] to, from the list it has just
    appended to: the slice [[-10:]] in the photo/video branch, the reversed
    [new_media] of the loop in the other. *)
Definition retained (kind : string) (appended : list entry) : list entry :=
  if is_pv kind then
    slice_last 10 appended
  else
    let '(_, new_media) := fold_left collapse_step (rev appended) (∅, []) in
    rev new_media.

(** The new value of [draft.media] after [add_media_to_draft]. *)
Definition add_media (m : list entry) (kind file_id : string) : list entry :=
  retained kind (m ++ [(kind, file_id)]).

Definition add_media_to_draft (d : Draft) (kind file_id : string) : Draft :=
  mkDraft (text d) (add_media (media d) kind file_id).

(** A run of [add_media_to_draft] calls, oldest first, from a given draft. *)
Definition add_all (d : Draft) (es : list entry) : Draft :=
  fold_left (fun d e => add_media_to_draft d (fst e) (snd e)) es d.

(** The photo/video entries of a media list, in order. *)
Definition pv_entries (m : list entry) : list entry := List.filter entry_is_pv m.

(** The entries of one kind. *)
Definition of_kind (k : string) (m : list entry) : list entry :=
  List.filter (fun e => (fst e =? k)%string) m.

(** The data-model invariant on the single-slot kinds: no kind other than
    photo and video occurs twice. *)
Definition single_kinds (m : list entry) : list string :=
  map fst (List.filter (fun e => negb (entry_is_pv e)) m).

Definition singles_unique (m : list entry) : Prop := NoDup (single_kinds m).

(** *** Payload resolution ([draft_to_media_group], [publish_to_channel]) *)

Inductive ParseMode := HTML.

Inductive InputMedia :=
| InputMediaPhoto (file : string) (caption : option string) (parse_mode : option ParseMode)
| InputMediaVideo (file : string) (caption : option string) (parse_mode : option ParseMode).

(** Truth value of [caption], a string or [None]. *)
Definition caption_truthy (c : option string) : bool :=
  match c with Some s => truthy s | None => false end.

Definition media_item (idx : nat) (txt : string) (e : entry) : InputMedia :=
  let '(k, fid) := e in
  let caption := if (idx =? 0)%nat then Some txt else None in
  let pm := if caption_truthy caption then Some HTML else None in
  if (k =? "photo")%string then InputMediaPhoto fid caption pm
  else InputMediaVideo fid caption pm.

Definition draft_to_media_group (d : Draft) : option (list InputMedia) :=
  let pv := List.filter (fun '(k, _) => is_pv k) (media d) in
  if (length pv <? 2)%nat then None
  else Some (imap (fun idx e => media_item idx (text d) e) pv).

(** Where a Bot API call is addressed. *)
Inductive chat_id :=
| Channel (name : string)
| User (uid : Z).

Definition TARGET_CHAT : chat_id := Channel "@mnogomorya".
Definition ADMIN_USER_ID : Z := 211779388.

(** The Bot API calls the program makes. *)
Inductive api_call :=
| send_media_group (chat : chat_id) (items : list InputMedia)
| send_photo (chat : chat_id) (file : string) (caption : option string) (pm : option ParseMode)
| send_video (chat : chat_id) (file : string) (caption : option string) (pm : option ParseMode)
| send_document (chat : chat_id) (file : string) (caption : option string) (pm : option ParseMode)
| send_animation (chat : chat_id) (file : string) (caption : option string) (pm : option ParseMode)
| send_audio (chat : chat_id) (file : string) (caption : option string) (pm : option ParseMode)
| send_voice (chat : chat_id) (file : string) (caption : option string) (pm : option ParseMode)
| send_message (chat : chat_id) (body : string) (pm : option ParseMode).

(** [d.text or None]. *)
Definition or_None (s : string) : option string := if truthy s then Some s else None.

(** [l[-1]] on a non-empty list, [None] on the empty one (where the source
    does not index). *)
Definition last_entry (m : list entry) : option entry := last m.

(** The call [publish_to_channel] awaits for a draft. *)
Definition publish_to_channel (d : Draft) : api_call :=
  match draft_to_media_group d with
  | Some (i :: items) => send_media_group TARGET_CHAT (i :: items)
  | _ =>
    match last_entry (media d) with
    | Some (kind, fid) =>
      if (kind =? "photo")%string then send_photo TARGET_CHAT fid (or_None (text d)) (Some HTML)
      else if (kind =? "video")%string then send_video TARGET_CHAT fid (or_None (text d)) (Some HTML)
      else if (kind =? "document")%string then send_document TARGET_CHAT fid (or_None (text d)) (Some HTML)
      else if (kind =? "animation")%string then send_animation TARGET_CHAT fid (or_None (text d)) (Some HTML)
      else if (kind =? "audio")%string then send_audio TARGET_CHAT fid (or_None (text d)) (Some HTML)
      else if (kind =? "voice")%string then send_voice TARGET_CHAT fid (or_None (text d)) (Some HTML)
      else send_message TARGET_CHAT (text d) (Some HTML)
    | None => send_message TARGET_CHAT (text d) (Some HTML)
    end
  end.

(** Projections of a call, to speak of "a single item of kind [k]". *)
Definition call_kind (c : api_call) : option string :=
  match c with
  | send_photo _ _ _ _ => Some "photo"
  | send_video _ _ _ _ => Some "video"
  | send_document _ _ _ _ => Some "document"
  | send_animation _ _ _ _ => Some "animation"
  | send_audio _ _ _ _ => Some "audio"
  | send_voice _ _ _ _ => Some "voice"
  | _ => None
  end.



Definition call_chat (c : api_call) : chat_id :=
  match c with
  | send_media_group ch _ | send_photo ch _ _ _ | send_video ch _ _ _
  | send_document ch _ _ _ | send_animation ch _ _ _ | send_audio ch _ _ _
  | send_voice ch _ _ _ | send_message ch _ _ => ch
  end.

(** The six kinds of the data model. *)
Definition known_kind (k : string) : bool :=
  is_pv k || (k =? "document")%string || (k =? "animation")%string
  || (k =? "audio")%string || (k =? "voice")%string.

(** What the collapsing loop keeps of a list it walks front to back, given
    the kinds already seen; used to state what the loop computes. *)
Fixpoint collapse_from (seen : gset string) (l : list entry) : list entry :=
  match l with
  | [] => []
  | (k, fid) :: l' =>
    if is_pv k then (k, fid) :: collapse_from seen l'
    else if decide (k ∈ seen) then collapse_from seen l'
    else (k, fid) :: collapse_from ({[k]} ∪ seen) l'
  end.

(** The entries whose kind differs from [k], in order. *)
Definition not_of_kind (k : string) (m : list entry) : list entry :=
  List.filter (fun e => negb (fst e =? k)%string) m.

(** *** Exceptions *)

Inductive exn := ValueError | OverflowError.

(** The result of a call that may raise. *)
Inductive outcome (A : Type) :=
| Ok (a : A)
| Raise (e : exn).
Arguments Ok {A} a.
Arguments Raise {A} e.

Definition bind {A B} (x : outcome A) (f : A -> outcome B) : outcome B :=
  match x with
  | Ok a => f a
  | Raise e => Raise e
  end.

Notation "x <- e1 ;; e2" := (bind e1 (fun x => e2))
  (at level 100, e1 at next level, right associativity).

(** *** Characters and regular expressions ([re])

    A string is a sequence of code points below 256. On that range [\d] is
    the ten ASCII digits and [\s] is what [str.isspace] accepts. *)

Definition code (c : ascii) : N := N_of_ascii c.

Definition is_digit (c : ascii) : bool := ((48 <=? code c) && (code c <=? 57))%N.

Definition is_space (c : ascii) : bool :=
  (((9 <=? code c) && (code c <=? 13)) || ((28 <=? code c) && (code c <=? 32))
   || (code c =? 133) || (code c =? 160))%N.

(** [c.lower()] on the letters the patterns use (ASCII upper case). *)
Definition lower (c : ascii) : ascii :=
  if ((65 <=? code c) && (code c <=? 90))%N then ascii_of_N (code c + 32) else c.

Fixpoint lower_str (s : string) : string :=
  match s with
  | EmptyString => EmptyString
  | String c s' => String (lower c) (lower_str s')
  end.

Fixpoint all_chars (p : ascii -> bool) (s : string) : bool :=
  match s with
  | EmptyString => true
  | String c s' => p c && all_chars p s'
  end.

(** The fragment of the pattern language the three patterns are written in:
    a character class, a literal, a greedy bounded repetition of a class
    ([\s*], [\s+], [\d+], [\d{1,2}], [\d{2}]), concatenation, ordered
    alternation, a numbered group and [$]. *)
Inductive regex :=
| Eps
| Cls (p : ascii -> bool)
| Chr (c : ascii)
| Rep (p : ascii -> bool) (lo : nat) (hi : option nat)
| Cat (r1 r2 : regex)
| Alt (r1 r2 : regex)
| Grp (n : nat) (r : regex)
| Eos.

(** The text a group matched: what [s] lost to become [rest]. *)
Definition consumed (s rest : string) : string :=
  substring 0 (String.length s - String.length rest) s.

(** Greedy repetition with backtracking: take one more character when
    allowed and the rest of the pattern then succeeds, otherwise stop here
    when the lower bound is met. *)
Fixpoint rep_run {R} (p : ascii -> bool) (lo : nat) (hi : option nat)
    (s : string) (k : string -> option R) : option R :=
  let stop := if (lo =? 0)%nat then k s else None in
  match s with
  | String c s' =>
    if p c && match hi with Some O => false | _ => true end then
      match rep_run p (pred lo) (option_map pred hi) s' k with
      | Some r => Some r
      | None => stop
      end
    else stop
  | EmptyString => stop
  end.

Definition chr_eq (ignorecase : bool) (c0 c : ascii) : bool :=
  if ignorecase then (lower c0 =? lower c)%char else (c0 =? c)%char.

(** [$]: the end of the string, or just before a newline that ends it. *)
Definition at_end (s : string) : bool :=
  match s with
  | EmptyString => true
  | String c EmptyString => (code c =? 10)%N
  | _ => false
  end.

(** A backtracking matcher in continuation-passing style; [caps] maps the
    number of a group to the text it matched. *)
Fixpoint re_run {R} (ic : bool) (r : regex) (s : string) (caps : gmap nat string)
    (k : string -> gmap nat string -> option R) : option R :=
  match r with
  | Eps => k s caps
  | Cls p =>
    match s with
    | String c s' => if p c then k s' caps else None
    | EmptyString => None
    end
  | Chr c0 =>
    match s with
    | String c s' => if chr_eq ic c0 c then k s' caps else None
    | EmptyString => None
    end
  | Rep p lo hi => rep_run p lo hi s (fun s' => k s' caps)
  | Cat r1 r2 => re_run ic r1 s caps (fun s' caps' => re_run ic r2 s' caps' k)
  | Alt r1 r2 =>
    match re_run ic r1 s caps k with
    | Some x => Some x
    | None => re_run ic r2 s caps k
    end
  | Grp n r => re_run ic r s caps (fun s' caps' => k s' (<[n := consumed s s']> caps'))
  | Eos => if at_end s then k s caps else None
  end.

(** [pattern.match(s)]: the groups of the match, if any. *)
Definition re_match (ic : bool) (r : regex) (s : string) : option (gmap nat string) :=
  re_run ic r s ∅ (fun _ caps => Some caps).

(** [m.group(n)]. *)
Definition group (m : gmap nat string) (n : nat) : string := default "" (m !! n).

Fixpoint cat_all (rs : list regex) : regex :=
  match rs with
  | [] => Eps
  | [r] => r
  | r :: rs' => Cat r (cat_all rs')
  end.

Fixpoint lit (s : string) : regex :=
  match s with
  | EmptyString => Eps
  | String c EmptyString => Chr c
  | String c s' => Cat (Chr c) (lit s')
  end.

Definition star (p : ascii -> bool) : regex := Rep p 0 None.
Definition plus (p : ascii -> bool) : regex := Rep p 1 None.
Definition between (p : ascii -> bool) (lo hi : nat) : regex := Rep p lo (Some hi).

(** [^\s*(\d{1,2}):(\d{2})\s*$] *)
Definition TIME_HHMM : regex :=
  cat_all [star is_space; Grp 1 (between is_digit 1 2); Chr ":"; Grp 2 (between is_digit 2 2);
           star is_space; Eos].

(** [^\s*(\d{4})-(\d{2})-(\d{2})\s+(\d{1,2}):(\d{2})\s*$] *)
Definition TIME_ABS : regex :=
  cat_all [star is_space; Grp 1 (between is_digit 4 4); Chr "-"; Grp 2 (between is_digit 2 2);
           Chr "-"; Grp 3 (between is_digit 2 2); plus is_space;
           Grp 4 (between is_digit 1 2); Chr ":"; Grp 5 (between is_digit 2 2);
           star is_space; Eos].

(** [^\s*in\s+(\d+)\s*(m|min|h|hr|d)\s*$], compiled with [re.IGNORECASE]. *)
Definition TIME_REL : regex :=
  cat_all [star is_space; lit "in"; plus is_space; Grp 1 (plus is_digit); star is_space;
           Grp 2 (Alt (lit "m") (Alt (lit "min") (Alt (lit "h") (Alt (lit "hr") (lit "d")))));
           star is_space; Eos].

(** A string that is empty or starts with a character outside [p]: where a
    greedy repetition of [p] has to stop. *)
Definition stops (p : ascii -> bool) (rest : string) : Prop :=
  match rest with
  | EmptyString => True
  | String c _ => p c = false
  end.

(** *** Integers from digits ([int]) *)

(** The default of [sys.set_int_max_str_digits]. *)
Definition int_max_str_digits : nat := 4300.

Fixpoint digits_value (acc : Z) (s : string) : Z :=
  match s with
  | EmptyString => acc
  | String c s' => digits_value (acc * 10 + (Z.of_N (code c) - 48)) s'
  end.

(** [int(s)] for a non-empty string of digits. *)
Definition int (s : string) : outcome Z :=
  if (int_max_str_digits <? String.length s)%nat then Raise ValueError
  else Ok (digits_value 0 s).

(** *** Dates and times ([datetime], [timedelta])

    The calendar arithmetic of the [datetime] module, on which [parse_when]
    relies: validation in the constructors, proleptic Gregorian ordinals,
    comparison of two values of one zone by their wall-clock fields. *)

Record datetime := mkDT {
  year : Z; month : Z; day : Z;
  hour : Z; minute : Z; second : Z; microsecond : Z;
  tzinfo : string;   (* the key of the [ZoneInfo] *)
  fold : Z
}.

Record timedelta := mkTD { td_days : Z; td_seconds : Z; td_microseconds : Z }.

Definition MINYEAR : Z := 1.
Definition MAXYEAR : Z := 9999.
Definition MAXORDINAL : Z := 3652059.

Definition is_leap (y : Z) : bool :=
  (y mod 4 =? 0) && (negb (y mod 100 =? 0) || (y mod 400 =? 0)).

Definition days_before_year (y : Z) : Z :=
  let y' := y - 1 in y' * 365 + y' / 4 - y' / 100 + y' / 400.

Definition DAYS_IN_MONTH (mo : Z) : Z :=
  match mo with
  | 1 => 31 | 2 => 28 | 3 => 31 | 4 => 30 | 5 => 31 | 6 => 30
  | 7 => 31 | 8 => 31 | 9 => 30 | 10 => 31 | 11 => 30 | 12 => 31
  | _ => -1
  end.

Definition DAYS_BEFORE_MONTH (mo : Z) : Z :=
  match mo with
  | 1 => 0 | 2 => 31 | 3 => 59 | 4 => 90 | 5 => 120 | 6 => 151
  | 7 => 181 | 8 => 212 | 9 => 243 | 10 => 273 | 11 => 304 | 12 => 334
  | _ => -1
  end.

Definition days_in_month (y mo : Z) : Z :=
  if (mo =? 2) && is_leap y then 29 else DAYS_IN_MONTH mo.

Definition days_before_month (y mo : Z) : Z :=
  DAYS_BEFORE_MONTH mo + (if (2 <? mo) && is_leap y then 1 else 0).

Definition ymd2ord (y mo d : Z) : Z :=
  days_before_year y + days_before_month y mo + d.

Definition DI400Y : Z := 146097.
Definition DI100Y : Z := 36524.
Definition DI4Y : Z := 1461.

Definition ord2ymd (n : Z) : Z * Z * Z :=
  let n := n - 1 in
  let n400 := n / DI400Y in let n := n mod DI400Y in
  let y := n400 * 400 + 1 in
  let n100 := n / DI100Y in let n := n mod DI100Y in
  let n4 := n / DI4Y in let n := n mod DI4Y in
  let n1 := n / 365 in let n := n mod 365 in
  let y := y + n100 * 100 + n4 * 4 + n1 in
  if (n1 =? 4) || (n100 =? 4) then (y - 1, 12, 31)
  else
    let leapyear := (n1 =? 3) && (negb (n4 =? 24) || (n100 =? 3)) in
    let mo := Z.shiftr (n + 50) 5 in
    let preceding := DAYS_BEFORE_MONTH mo + (if (2 <? mo) && leapyear then 1 else 0) in
    if n <? preceding then
      let mo := mo - 1 in
      let preceding :=
        preceding - (DAYS_IN_MONTH mo + (if (mo =? 2) && leapyear then 1 else 0)) in
      (y, mo, n - preceding + 1)
    else (y, mo, n - preceding + 1).

(** The field checks of the constructors. *)
Definition check_date_fields (y mo d : Z) : bool :=
  (MINYEAR <=? y) && (y <=? MAXYEAR) && (1 <=? mo) && (mo <=? 12)
  && (1 <=? d) && (d <=? days_in_month y mo).

Definition check_time_fields (hh mi ss us : Z) : bool :=
  (0 <=? hh) && (hh <=? 23) && (0 <=? mi) && (mi <=? 59)
  && (0 <=? ss) && (ss <=? 59) && (0 <=? us) && (us <=? 999999).

Definition valid_datetime (dt : datetime) : bool :=
  check_date_fields (year dt) (month dt) (day dt)
  && check_time_fields (hour dt) (minute dt) (second dt) (microsecond dt).

(** [datetime(y, mo, d, hh, mi, ss, us, tzinfo=tz, fold=f)]. *)
Definition datetime_new (y mo d hh mi ss us : Z) (tz : string) (f : Z) : outcome datetime :=
  if check_date_fields y mo d && check_time_fields hh mi ss us
  then Ok (mkDT y mo d hh mi ss us tz f)
  else Raise ValueError.

(** [dt.replace(hour=hh, minute=mi, second=ss, microsecond=us)]. *)
Definition replace_time (dt : datetime) (hh mi ss us : Z) : outcome datetime :=
  datetime_new (year dt) (month dt) (day dt) hh mi ss us (tzinfo dt) (fold dt).

Definition toordinal (dt : datetime) : Z := ymd2ord (year dt) (month dt) (day dt).

(** Microseconds since midnight of day 0, the key by which two values with
    the same [tzinfo] compare. *)
Definition wall_clock (dt : datetime) : Z :=
  ((toordinal dt * 86400 + hour dt * 3600 + minute dt * 60 + second dt) * 1000000
   + microsecond dt).

(** [a <= b] for two values of the same zone: the fields compared as a
    tuple, most significant first. *)
Definition dt_le (a b : datetime) : bool :=
  match (year a ?= year b) with Lt => true | Gt => false | Eq =>
  match (month a ?= month b) with Lt => true | Gt => false | Eq =>
  match (day a ?= day b) with Lt => true | Gt => false | Eq =>
  match (hour a ?= hour b) with Lt => true | Gt => false | Eq =>
  match (minute a ?= minute b) with Lt => true | Gt => false | Eq =>
  match (second a ?= second b) with Lt => true | Gt => false | Eq =>
  (microsecond a <=? microsecond b)
  end end end end end end.

(** [timedelta(days=d, hours=h, minutes=m)] for integers. *)
Definition timedelta_new (d h m : Z) : outcome timedelta :=
  let s := m * 60 + h * 3600 in
  let d := d + s / 86400 in
  let s := s mod 86400 in
  if 999999999 <? Z.abs d then Raise OverflowError
  else Ok (mkTD d s 0).

(** [dt + td]. *)
Definition datetime_add (dt : datetime) (td : timedelta) : outcome datetime :=
  let us := microsecond dt + td_microseconds td in
  let s := hour dt * 3600 + minute dt * 60 + second dt + td_seconds td + us / 1000000 in
  let us := us mod 1000000 in
  let d := toordinal dt + td_days td + s / 86400 in
  let s := s mod 86400 in
  if (0 <? d) && (d <=? MAXORDINAL) then
    let '(y, mo, dd) := ord2ymd d in
    Ok (mkDT y mo dd (s / 3600) ((s mod 3600) / 60) ((s mod 3600) mod 60) us (tzinfo dt) 0)
  else Raise OverflowError.

(** A check of [ord2ymd] on one day of the first 400-year cycle: the date
    is a valid one of the years 1..400 and [ymd2ord] maps it back. *)
Definition cycle_day_ok (n : Z) : bool :=
  let '(y, mo, d) := ord2ymd n in
  (ymd2ord y mo d =? n) && (1 <=? y) && (y <=? 400)
  && (1 <=? mo) && (mo <=? 12) && (1 <=? d) && (d <=? days_in_month y mo)
  && ((DI400Y - 366 <? n) || (y <=? 399)).

(** [f] holds on the [count] integers from [n] on. *)
Fixpoint all_from (f : Z -> bool) (n : Z) (count : nat) : bool :=
  match count with
  | O => true
  | S c => f n && all_from f (n + 1) c
  end.


(** Microseconds since midnight. *)
Definition time_of_day (dt : datetime) : Z :=
  ((hour dt * 60 + minute dt) * 60 + second dt) * 1000000 + microsecond dt.

(** *** Time expressions ([parse_when]) *)

Definition parse_when (s : string) (now : datetime) : outcome (option datetime) :=
  match re_match false TIME_HHMM s with
  | Some m =>
    hh <- int (group m 1) ;;
    mm <- int (group m 2) ;;
    dt <- replace_time now hh mm 0 0 ;;
    if dt_le dt now then
      one_day <- timedelta_new 1 0 0 ;;
      dt' <- datetime_add dt one_day ;;
      Ok (Some dt')
    else Ok (Some dt)
  | None =>
  match re_match false TIME_ABS s with
  | Some m =>
    y <- int (group m 1) ;;
    mo <- int (group m 2) ;;
    d <- int (group m 3) ;;
    hh <- int (group m 4) ;;
    mm <- int (group m 5) ;;
    match datetime_new y mo d hh mm 0 0 (tzinfo now) 0 with
    | Ok dt => Ok (Some dt)
    | Raise ValueError => Ok None
    | Raise e => Raise e
    end
  | None =>
  match re_match true TIME_REL s with
  | Some m =>
    amount <- int (group m 1) ;;
    let unit := lower_str (group m 2) in
    if (unit =? "m")%string || (unit =? "min")%string then
      td <- timedelta_new 0 0 amount ;;
      dt <- datetime_add now td ;;
      Ok (Some dt)
    else if (unit =? "h")%string || (unit =? "hr")%string then
      td <- timedelta_new 0 amount 0 ;;
      dt <- datetime_add now td ;;
      Ok (Some dt)
    else if (unit =? "d")%string then
      td <- timedelta_new amount 0 0 ;;
      dt <- datetime_add now td ;;
      Ok (Some dt)
    else Ok None
  | None => Ok None
  end end end.

Definition LOCAL_TZ : string := "Europe/Amsterdam".

(** 2025-01-01T20:00 in the operator's zone. *)
Definition new_year_evening : datetime := mkDT 2025 1 1 20 0 0 0 LOCAL_TZ 0.

(** *** Messages ([set_text_from]) *)

Fixpoint lstrip (s : string) : string :=
  match s with
  | String c s' => if is_space c then lstrip s' else s
  | EmptyString => EmptyString
  end.

Fixpoint rev_str (acc s : string) : string :=
  match s with
  | EmptyString => acc
  | String c s' => rev_str (String c acc) s'
  end.

(** [s.strip()]. *)
Definition strip (s : string) : string :=
  rev_str "" (lstrip (rev_str "" (lstrip s))).

(** [s[n:]]. *)
Definition from_index (n : nat) (s : string) : string :=
  substring n (String.length s - n) s.

(** The part of a Telegram message the program reads: its text or caption,
    and the first entity of type [BOT_COMMAND] of each, as [(offset, length)]. *)
Record Message := mkMessage {
  msg_text : option string;
  msg_command : option (nat * nat);
  msg_caption : option string;
  msg_caption_command : option (nat * nat)
}.

Definition after_command (s : string) (cmd : option (nat * nat)) : string :=
  match cmd with
  | Some (offset, len) => from_index (offset + len) s
  | None => s
  end.

(** The text [set_text_from] assigns to [draft.text], or [None] when the
    message has neither text nor caption and the draft keeps its text. *)
Definition text_from (msg : Message) : option string :=
  match msg_text msg with
  | Some t =>
    if truthy t then Some (strip (after_command t (msg_command msg)))
    else match msg_caption msg with
         | Some c => if truthy c then Some (strip (after_command c (msg_caption_command msg)))
                     else None
         | None => None
         end
  | None =>
    match msg_caption msg with
    | Some c => if truthy c then Some (strip (after_command c (msg_caption_command msg)))
                else None
    | None => None
    end
  end.

(** *** The process state

    Python objects are kept in a store and named by references, so that a
    [Draft] reached through [DRAFTS] and the one a scheduled job closed over
    are the same object exactly when the program made them so. A [Draft]
    instance holds its text and a reference to its media list; the list is an
    object of its own, mutated in place by [append].

    One step of the model is one handler run or one firing of a job. A call
    of [publish_to_channel] may fail (the transport failure of the
    program's [except Exception] branches); its outcome is an input of the
    step. Messages to the operator are recorded in an outbox. *)

(** References into the store. *)
Abbreviation loc := nat (only parsing).

Record DraftObj := mkObj { o_text : string; o_media : loc }.

(** An [asyncio.Task] running [job()]: waiting for its time, run to the end,
    or cancelled while it waited. *)
Inductive task_state := Sleeping | Finished | Cancelled.

(** The task with the variables its closure captured. *)
Record Task := mkTask {
  t_uid : Z;
  t_when : datetime;
  t_draft : loc;
  t_state : task_state
}.

Record ScheduledJob := mkJob { when : datetime; task : nat }.

(** What the bot tells the operator. *)
Inductive notice :=
| Denied
| Welcome
| WhoAmI (uid : Z)
| Summary (d : Draft)
| TimerFormats
| TimerNotUnderstood
| NothingToSchedule
| ScheduledFor (w : datetime)
| PublishedByTimer (w : datetime)
| ScheduledPublishError
| TimerCancelled
| NoActiveTimer
| NothingPlanned
| PlannedFor (w : datetime)
| TimerHint
| DraftEmptyHint
| Preview (d : Draft)
| NothingToPublish
| Published
| PublishError
| Cleared.

Record state := mkState {
  lists : gmap loc (list entry);
  objs : gmap loc DraftObj;
  next_loc : loc;
  DRAFTS : gmap Z loc;
  SCHEDULES : gmap Z ScheduledJob;
  tasks : gmap nat Task;
  next_task : nat;
  channel : list api_call;
  outbox : list (Z * notice)
}.

Definition initial : state := mkState ∅ ∅ 0%nat ∅ ∅ ∅ 0%nat [] [].

(** Field updates. *)
Definition set_heap (ls : gmap loc (list entry)) (os : gmap loc DraftObj) (n : loc)
    (st : state) : state :=
  mkState ls os n (DRAFTS st) (SCHEDULES st) (tasks st) (next_task st)
          (channel st) (outbox st).

Definition set_DRAFTS (ds : gmap Z loc) (st : state) : state :=
  mkState (lists st) (objs st) (next_loc st) ds (SCHEDULES st) (tasks st) (next_task st)
          (channel st) (outbox st).

Definition set_jobs (js : gmap Z ScheduledJob) (ts : gmap nat Task) (n : nat)
    (st : state) : state :=
  mkState (lists st) (objs st) (next_loc st) (DRAFTS st) js ts n
          (channel st) (outbox st).

Definition say (uid : Z) (n : notice) (st : state) : state :=
  mkState (lists st) (objs st) (next_loc st) (DRAFTS st) (SCHEDULES st) (tasks st)
          (next_task st) (channel st) (outbox st ++ [(uid, n)]).

Definition deliver (c : api_call) (st : state) : state :=
  mkState (lists st) (objs st) (next_loc st) (DRAFTS st) (SCHEDULES st) (tasks st)
          (next_task st) (channel st ++ [c]) (outbox st).

(** A new list object. *)
Definition new_list (l : list entry) (st : state) : loc * state :=
  (next_loc st, set_heap (<[next_loc st := l]> (lists st)) (objs st) (S (next_loc st)) st).

(** A new [Draft] instance with the given fields. *)
Definition new_obj (o : DraftObj) (st : state) : loc * state :=
  (next_loc st, set_heap (lists st) (<[next_loc st := o]> (objs st)) (S (next_loc st)) st).

(** [Draft()]: an empty text and a fresh empty list. *)
Definition Draft_init (st : state) : loc * state :=
  let '(m, st) := new_list [] st in
  new_obj (mkObj "" m) st.

(** The value of the [Draft] behind a reference. *)
Definition read_draft (st : state) (ref : loc) : option Draft :=
  match objs st !! ref with
  | Some o =>
    match lists st !! o_media o with
    | Some l => Some (mkDraft (o_text o) l)
    | None => None
    end
  | None => None
  end.

(** [Draft.copy]: [Draft(text=self.text, media=list(self.media))]. *)
Definition Draft_copy (ref : loc) (st : state) : loc * state :=
  match read_draft st ref with
  | Some d =>
    let '(m, st) := new_list (media d) st in
    new_obj (mkObj (text d) m) st
  | None => (ref, st)
  end.

(** [get_draft]. *)
Definition get_draft (uid : Z) (st : state) : loc * state :=
  match DRAFTS st !! uid with
  | Some ref => (ref, st)
  | None =>
    let '(ref, st) := Draft_init st in
    (ref, set_DRAFTS (<[uid := ref]> (DRAFTS st)) st)
  end.

(** [add_media_to_draft] on a reference: [draft.media.append(...)] changes
    the list object in place, then [draft.media] is bound to a new list. *)
Definition add_media_to_draft_ref (ref : loc) (kind file_id : string) (st : state) : state :=
  match objs st !! ref with
  | Some o =>
    match lists st !! o_media o with
    | Some l =>
      let appended := l ++ [(kind, file_id)] in
      let st := set_heap (<[o_media o := appended]> (lists st)) (objs st) (next_loc st) st in
      let '(m, st) := new_list (retained kind appended) st in
      set_heap (lists st) (<[ref := mkObj (o_text o) m]> (objs st)) (next_loc st) st
    | None => st
    end
  | None => st
  end.

(** [set_text_from] on a reference. *)
Definition set_text_from (msg : Message) (ref : loc) (st : state) : state :=
  match text_from msg, objs st !! ref with
  | Some t, Some o =>
    set_heap (lists st) (<[ref := mkObj t (o_media o)]> (objs st)) (next_loc st) st
  | _, _ => st
  end.

(** *** Handlers *)

Definition authorized (user_id : Z) : bool := (user_id =? ADMIN_USER_ID).

(** [ensure_auth]: the user of the update, when there is one and it is the
    administrator; a stranger is told so. *)
Definition ensure_auth (u : option Z) (st : state) : option Z * state :=
  match u with
  | None => (None, st)
  | Some uid =>
    if authorized uid then (Some uid, st)
    else (None, say uid Denied st)
  end.

(** The draft shown in a reply, read when the reply is made. *)
Definition shown (st : state) (ref : loc) : Draft :=
  default Draft_new (read_draft st ref).

Definition cmd_start (u : option Z) (st : state) : state :=
  match ensure_auth u st with
  | (Some uid, st) => say uid Welcome st
  | (None, st) => st
  end.

Definition cmd_whoami (u : option Z) (st : state) : state :=
  match ensure_auth u st with
  | (Some uid, st) => say uid (WhoAmI uid) st
  | (None, st) => st
  end.

Definition on_text (u : option Z) (msg : Message) (st : state) : state :=
  match ensure_auth u st with
  | (Some uid, st) =>
    let '(d, st) := get_draft uid st in
    let st := set_text_from msg d st in
    say uid (Summary (shown st d)) st
  | (None, st) => st
  end.

(** The body shared by [on_photo], [on_video], [on_document],
    [on_animation], [on_audio] and [on_voice], which differ in the kind they
    pass and in where they read the file id. *)
Definition on_media (kind : string) (u : option Z) (file_id : string) (msg : Message)
    (st : state) : state :=
  match ensure_auth u st with
  | (Some uid, st) =>
    let '(d, st) := get_draft uid st in
    let st := add_media_to_draft_ref d kind file_id st in
    let st := set_text_from msg d st in
    say uid (Summary (shown st d)) st
  | (None, st) => st
  end.

Definition on_photo := on_media "photo".
Definition on_video := on_media "video".
Definition on_document := on_media "document".
Definition on_animation := on_media "animation".
Definition on_audio := on_media "audio".
Definition on_voice := on_media "voice".

(** [" ".join(args)]. *)
Fixpoint join_args (args : list string) : string :=
  match args with
  | [] => ""
  | [a] => a
  | a :: rest => (a ++ " " ++ join_args rest)%string
  end.

(** [task.done()]. *)
Definition task_done (t : Task) : bool :=
  match t_state t with
  | Sleeping => false
  | _ => true
  end.

(** The task in another state. *)
Definition mark (s : task_state) (t : Task) : Task :=
  mkTask (t_uid t) (t_when t) (t_draft t) s.

(** [task.cancel()] on the task of a job, when it is not done. *)
Definition cancel_task (id : nat) (ts : gmap nat Task) : gmap nat Task :=
  match ts !! id with
  | Some t =>
    if task_done t then ts
    else <[id := mark Cancelled t]> ts
  | None => ts
  end.

(** [if sched and not sched.task.done(): sched.task.cancel()]. *)
Definition cancel_job (sched : option ScheduledJob) (ts : gmap nat Task) : gmap nat Task :=
  match sched with
  | Some j => cancel_task (task j) ts
  | None => ts
  end.

(** Whether that condition holds. *)
Definition job_live (sched : option ScheduledJob) (ts : gmap nat Task) : bool :=
  match sched with
  | Some j =>
    match ts !! task j with
    | Some t => negb (task_done t)
    | None => false
    end
  | None => false
  end.

(** [cmd_timer]. An exception of [parse_when] leaves the handler before it
    has changed anything. *)
Definition cmd_timer (u : option Z) (args : list string) (now : datetime)
    (st : state) : state :=
  match ensure_auth u st with
  | (Some uid, st) =>
    match args with
    | [] => say uid TimerFormats st
    | _ =>
      match parse_when (join_args args) now with
      | Raise _ => st
      | Ok None => say uid TimerNotUnderstood st
      | Ok (Some w) =>
        let '(d, st) := get_draft uid st in
        let '(draft, st) := Draft_copy d st in
        if is_empty (shown st draft) then say uid NothingToSchedule st
        else
          let old := SCHEDULES st !! uid in
          let ts := cancel_job old (tasks st) in
          let t := next_task st in
          let ts := <[t := mkTask uid w draft Sleeping]> ts in
          let st := set_jobs (<[uid := mkJob w t]> (SCHEDULES st)) ts (S t) st in
          say uid (ScheduledFor w) st
      end
    end
  | (None, st) => st
  end.

(** The body of [job] once its sleep is over; [sent] tells whether the
    call of [publish_to_channel] went through. A task that is done does
    not run. *)
Definition job (id : nat) (sent : bool) (st : state) : state :=
  match tasks st !! id with
  | Some t =>
    if task_done t then st
    else
      let finished := <[id := mark Finished t]> (tasks st) in
      if sent then
        let st := deliver (publish_to_channel (shown st (t_draft t))) st in
        let st := say (t_uid t) (PublishedByTimer (t_when t)) st in
        set_jobs (delete (t_uid t) (SCHEDULES st)) finished (next_task st) st
      else
        let st := say (t_uid t) ScheduledPublishError st in
        set_jobs (SCHEDULES st) finished (next_task st) st
  | None => st
  end.

Definition cmd_cancel_timer (u : option Z) (st : state) : state :=
  match ensure_auth u st with
  | (Some uid, st) =>
    let sched := SCHEDULES st !! uid in
    let live := job_live sched (tasks st) in
    let st := set_jobs (delete uid (SCHEDULES st)) (cancel_job sched (tasks st))
                       (next_task st) st in
    if live then say uid TimerCancelled st else say uid NoActiveTimer st
  | (None, st) => st
  end.

Definition cmd_when (u : option Z) (st : state) : state :=
  match ensure_auth u st with
  | (Some uid, st) =>
    match SCHEDULES st !! uid with
    | None => say uid NothingPlanned st
    | Some sched => say uid (PlannedFor (when sched)) st
    end
  | (None, st) => st
  end.

(** [on_cb]; [sent] is the outcome of [publish_to_channel] in the branch
    that publishes. *)
Definition on_cb (uid : Z) (data : string) (sent : bool) (st : state) : state :=
  if negb (authorized uid) then say uid Denied st
  else
    let '(d, st) := get_draft uid st in
    if (data =? "noop")%string then say uid TimerHint st
    else if (data =? "prev")%string then
      if is_empty (shown st d) then say uid DraftEmptyHint st
      else say uid (Preview (shown st d)) st
    else if (data =? "pub")%string then
      if is_empty (shown st d) then say uid NothingToPublish st
      else if sent then
        let st := deliver (publish_to_channel (shown st d)) st in
        let st := say uid Published st in
        let '(fresh, st) := Draft_init st in
        let st := set_DRAFTS (<[uid := fresh]> (DRAFTS st)) st in
        let sched := SCHEDULES st !! uid in
        set_jobs (delete uid (SCHEDULES st)) (cancel_job sched (tasks st)) (next_task st) st
      else say uid PublishError st
    else if (data =? "clr")%string then
      let '(fresh, st) := Draft_init st in
      let st := set_DRAFTS (<[uid := fresh]> (DRAFTS st)) st in
      let st := say uid Cleared st in
      let sched := SCHEDULES st !! uid in
      set_jobs (delete uid (SCHEDULES st)) (cancel_job sched (tasks st)) (next_task st) st
    else st.

(** What can happen to the process: an update handled, or a job waking up. *)
Inductive event :=
| Start (u : option Z)
| WhoAmICmd (u : option Z)
| Text (u : option Z) (msg : Message)
| Media (kind : string) (u : option Z) (file_id : string) (msg : Message)
| Timer (u : option Z) (args : list string) (now : datetime)
| CancelTimer (u : option Z)
| When (u : option Z)
| Button (uid : Z) (data : string) (sent : bool)
| Fire (id : nat) (sent : bool).

Definition step (ev : event) (st : state) : state :=
  match ev with
  | Start u => cmd_start u st
  | WhoAmICmd u => cmd_whoami u st
  | Text u msg => on_text u msg st
  | Media kind u file_id msg => on_media kind u file_id msg st
  | Timer u args now => cmd_timer u args now st
  | CancelTimer u => cmd_cancel_timer u st
  | When u => cmd_when u st
  | Button uid data sent => on_cb uid data sent st
  | Fire id sent => job id sent st
  end.

(** A run: the events in the order they happen. *)
Definition run (evs : list event) (st : state) : state :=
  fold_left (fun st ev => step ev st) evs st.

(** The draft of a user as the handlers see it. *)
Definition draft_of (st : state) (uid : Z) : Draft :=
  match DRAFTS st !! uid with
  | Some ref => shown st ref
  | None => Draft_new
  end.

(** The draft a job will publish. *)
Definition payload (st : state) (id : nat) : option Draft :=
  match tasks st !! id with
  | Some t => read_draft st (t_draft t)
  | None => None
  end.

Definition state_of_task (st : state) (id : nat) : option task_state :=
  t_state <$> tasks st !! id.

(** *** Invariants of the process state *)

(** The store: every [Draft] instance and its list are allocated, no two
    instances share a list, [DRAFTS] names instances, and the instance a job
    closed over is not one that [DRAFTS] names. *)
Record heap_ok (st : state) : Prop := {
  h_objs : forall ref o, objs st !! ref = Some o ->
    (ref < next_loc st)%nat /\ (o_media o < next_loc st)%nat
    /\ is_Some (lists st !! o_media o);
  h_inj : forall r1 r2 o1 o2, objs st !! r1 = Some o1 -> objs st !! r2 = Some o2 ->
    o_media o1 = o_media o2 -> r1 = r2;
  h_drafts : forall uid ref, DRAFTS st !! uid = Some ref -> is_Some (objs st !! ref);
  h_tasks : forall id t, tasks st !! id = Some t ->
    is_Some (objs st !! t_draft t)
    /\ forall uid ref, DRAFTS st !! uid = Some ref -> ref <> t_draft t
}.

(** The scheduler: task numbers are allocated, the registry names tasks, and
    a task that still waits is the one registered for its user. *)
Record sched_ok (st : state) : Prop := {
  s_tasks : forall id t, tasks st !! id = Some t -> (id < next_task st)%nat;
  s_registry : forall uid j, SCHEDULES st !! uid = Some j -> is_Some (tasks st !! task j);
  s_live : forall id t, tasks st !! id = Some t -> t_state t = Sleeping ->
    SCHEDULES st !! t_uid t = Some (mkJob (t_when t) id)
}.

Definition wf (st : state) : Prop := heap_ok st /\ sched_ok st.

(** Two states with the same scheduler, channel and outbox. *)
Definition sched_same (st st' : state) : Prop :=
  SCHEDULES st' = SCHEDULES st /\ tasks st' = tasks st /\ next_task st' = next_task st
  /\ channel st' = channel st /\ outbox st' = outbox st.

(** The instances that satisfy [P] are the same in both states, and so are
    their lists. *)
Definition frames (P : loc -> Prop) (st st' : state) : Prop :=
  forall ref, P ref -> is_Some (objs st !! ref) ->
    objs st' !! ref = objs st !! ref /\ read_draft st' ref = read_draft st ref.

(** Every task of [st] is still there in [st'] with the same closure, a task
    that was done is still done, and the draft it closed over reads the
    same. *)
Definition evolves (st st' : state) : Prop :=
  forall id t, tasks st !! id = Some t ->
    exists t', tasks st' !! id = Some t'
      /\ t_draft t' = t_draft t /\ t_uid t' = t_uid t /\ t_when t' = t_when t
      /\ (task_done t = true -> task_done t' = true)
      /\ read_draft st' (t_draft t) = read_draft st (t_draft t).

(** Sample updates and runs used in the examples below. *)
Definition hello : Message := mkMessage (Some "hello") None None None.
Definition edited : Message := mkMessage (Some "edited") None None None.

(** The operator writes a text and schedules it in five minutes. *)
Definition scheduled_hello : state :=
  run [Text (Some ADMIN_USER_ID) hello;
       Timer (Some ADMIN_USER_ID) ["in"; "5m"] new_year_evening] initial.

Definition in_five_minutes : datetime := mkDT 2025 1 1 20 5 0 0 LOCAL_TZ 0.

(** What an album item carries. *)
Definition item_entry (i : InputMedia) : string * string :=
  match i with
  | InputMediaPhoto f _ _ => ("photo", f)
  | InputMediaVideo f _ _ => ("video", f)
  end.

Definition item_caption (i : InputMedia) : option string :=
  match i with
  | InputMediaPhoto _ c _ | InputMediaVideo _ c _ => c
  end.

Definition item_parse_mode (i : InputMedia) : option ParseMode :=
  match i with
  | InputMediaPhoto _ _ pm | InputMediaVideo _ _ pm => pm
  end.

(** For a user whose job was registered in [st]: in [st'] the registry has
    no job for the user, and the task of the old job is done for ever, as
    cancelled if it was still waiting. *)
Definition timer_retired (st st' : state) (uid : Z) : Prop :=
  SCHEDULES st' !! uid = None
  /\ forall j, SCHEDULES st !! uid = Some j ->
       state_of_task st' (task j) <> Some Sleeping
       /\ (state_of_task st (task j) = Some Sleeping ->
           state_of_task st' (task j) = Some Cancelled)
       /\ forall evs sent, step (Fire (task j) sent) (run evs st') = run evs st'.

(** Every draft of the store has a media list that satisfies [P]. *)
Definition all_drafts (P : list (string * string) -> Prop) (st : state) : Prop :=
  forall uid, P (media (draft_of st uid)).

(** The invariant of the data model on a media list. *)
Definition media_ok (m : list (string * string)) : Prop :=
  singles_unique m /\ (length (pv_entries m) <= 10)%nat.

(** *** Updates and their senders *)

(** The user an update comes from ([update.effective_user],
    [q.from_user]); a job that wakes up has none. *)
Definition sender (ev : event) : option Z :=
  match ev with
  | Start u | WhoAmICmd u | Text u _ | Media _ u _ _ | Timer u _ _
  | CancelTimer u | When u => u
  | Button uid _ _ => Some uid
  | Fire _ _ => None
  end.

Definition is_update (ev : event) : bool :=
  match ev with
  | Fire _ _ => false
  | _ => true
  end.

(** Two states with the same registry, tasks and channel. *)
Definition quiet (st st' : state) : Prop :=
  SCHEDULES st' = SCHEDULES st /\ tasks st' = tasks st
  /\ next_task st' = next_task st /\ channel st' = channel st.

(** Every task closed over a draft that satisfies [P]. *)
Definition payloads (P : Draft -> Prop) (st : state) : Prop :=
  forall id t, tasks st !! id = Some t ->
    exists D, read_draft st (t_draft t) = Some D /\ P D.

(** A draft the program lets through to [publish_to_channel]. *)
Definition postable (D : Draft) : Prop :=
  is_empty D = false /\ media_ok (media D).

(** Every call made on the channel published a draft that satisfies [P]. *)
Definition posts (P : Draft -> Prop) (st : state) : Prop :=
  forall c, c ∈ channel st -> exists D, c = publish_to_channel D /\ P D.

(** The characters [\s] and [\d] accept. *)
Definition space_or_digit (c : ascii) : bool := is_space c || is_digit c.

(** A string that is empty or starts with a character for which [q] holds. *)
Definition opens (q : ascii -> Prop) (r : string) : Prop :=
  match r with
  | EmptyString => True
  | String c _ => q c
  end.

(** What follows the amount in [TIME_REL]: the unit, white space, the end. *)
Definition REL_tail : regex :=
  cat_all [Grp 2 (Alt (lit "m") (Alt (lit "min") (Alt (lit "h") (Alt (lit "hr") (lit "d")))));
           star is_space; Eos].

(** The units of the third grammar, in lower case. *)
Definition units : list string := ["m"; "min"; "h"; "hr"; "d"].

(** The seconds in one unit. *)
Definition unit_seconds (unit : string) : Z :=
  if (unit =? "m")%string || (unit =? "min")%string then 60
  else if (unit =? "h")%string || (unit =? "hr")%string then 3600
  else 86400.

(** The wall clock at the end of the last day of the calendar. *)
Definition calendar_end : Z := (MAXORDINAL + 1) * 86400 * 1000000.

(** *** The preview ([send_preview]) *)

(** What [send_preview] sends to the operator: a Bot API call, or one of
    the two messages whose text the program makes up itself. *)
Inductive preview :=
| PreviewCall (c : api_call)
| PreviewSummary (uid : Z) (d : Draft)   (* [send_message(uid, summarize_draft(d))] *)
| PreviewEmpty (uid : Z).                (* the note that the draft is empty *)

Definition send_preview (uid : Z) (d : Draft) : preview :=
  match draft_to_media_group d with
  | Some (i :: items) => PreviewCall (send_media_group (User uid) (i :: items))
  | _ =>
    match last_entry (media d) with
    | Some (kind, fid) =>
      if (kind =? "photo")%string
      then PreviewCall (send_photo (User uid) fid (or_None (text d)) (Some HTML))
      else if (kind =? "video")%string
      then PreviewCall (send_video (User uid) fid (or_None (text d)) (Some HTML))
      else if (kind =? "document")%string
      then PreviewCall (send_document (User uid) fid (or_None (text d)) (Some HTML))
      else if (kind =? "animation")%string
      then PreviewCall (send_animation (User uid) fid (or_None (text d)) (Some HTML))
      else if (kind =? "audio")%string
      then PreviewCall (send_audio (User uid) fid (or_None (text d)) (Some HTML))
      else if (kind =? "voice")%string
      then PreviewCall (send_voice (User uid) fid (or_None (text d)) (Some HTML))
      else PreviewSummary uid d
    | None =>
      if truthy (text d) then PreviewCall (send_message (User uid) (text d) (Some HTML))
      else PreviewEmpty uid
    end
  end.

(** The same call addressed to another chat. *)
Definition to_chat (ch : chat_id) (c : api_call) : api_call :=
  match c with
  | send_media_group _ items => send_media_group ch items
  | send_photo _ f cpt pm => send_photo ch f cpt pm
  | send_video _ f cpt pm => send_video ch f cpt pm
  | send_document _ f cpt pm => send_document ch f cpt pm
  | send_animation _ f cpt pm => send_animation ch f cpt pm
  | send_audio _ f cpt pm => send_audio ch f cpt pm
  | send_voice _ f cpt pm => send_voice ch f cpt pm
  | send_message _ body pm => send_message ch body pm
  end.

(** Sample inputs used in the examples below. *)
Definition photos_1_9 : list entry :=
  [("photo", "p1"); ("photo", "p2"); ("photo", "p3"); ("photo", "p4"); ("photo", "p5");
   ("photo", "p6"); ("photo", "p7"); ("photo", "p8"); ("photo", "p9")].

Definition twelve_pv : list entry :=
  [("photo", "1"); ("video", "2"); ("photo", "3"); ("photo", "4");
   ("photo", "5"); ("video", "6"); ("photo", "7"); ("photo", "8");
   ("photo", "9"); ("photo", "10"); ("video", "11"); ("photo", "12")].

(** ** Part II: properties *)

Example add_media_photo_sample :
  add_media [("photo", "a"); ("document", "d")] "photo" "b"
  = [("photo", "a"); ("document", "d"); ("photo", "b")].
Proof. reflexivity. Qed.

Example add_media_document_sample :
  add_media [("photo", "a"); ("document", "d"); ("voice", "v")] "document" "e"
  = [("photo", "a"); ("voice", "v"); ("document", "e")].
Proof. vm_compute. reflexivity. Qed.

(** *** The collapsing loop *)

Section Aggregation.

Implicit Types (m l : list entry) (k kind fid : string) (seen : gset string).

Lemma fold_collapse l : forall seen acc,
  snd (fold_left collapse_step l (seen, acc)) = acc ++ collapse_from seen l.
Proof.
  induction l as [|[k f] l IH]; intros seen acc; simpl.
  - by rewrite app_nil_r.
  - destruct (is_pv k); [|destruct (decide (k ∈ seen))];
      rewrite IH; by rewrite <- ?app_assoc.
Qed.

Lemma add_media_pv m kind fid :
  is_pv kind = true -> add_media m kind fid = slice_last 10 (m ++ [(kind, fid)]).
Proof. unfold add_media, retained. by intros ->. Qed.

Lemma add_media_single m kind fid :
  is_pv kind = false ->
  add_media m kind fid = rev (collapse_from {[kind]} (rev m)) ++ [(kind, fid)].
Proof.
  intros Hk. unfold add_media, retained. rewrite Hk. cbv zeta.
  pose proof (fold_collapse (rev (m ++ [(kind, fid)])) ∅ []) as H.
  destruct (fold_left _ _ _) as [seen new_media]. simpl in H. subst new_media.
  rewrite rev_app_distr. simpl. rewrite Hk.
  destruct (decide (kind ∈ (∅ : gset string))) as [Hin|_]; [set_solver|].
  simpl. by rewrite union_empty_r_L.
Qed.

Lemma pv_entries_cons k fid l :
  pv_entries ((k, fid) :: l)
  = if is_pv k then (k, fid) :: pv_entries l else pv_entries l.
Proof. reflexivity. Qed.

Lemma of_kind_cons k k' fid l :
  of_kind k ((k', fid) :: l)
  = if (k' =? k)%string then (k', fid) :: of_kind k l else of_kind k l.
Proof. reflexivity. Qed.

Lemma pv_collapse_from l : forall seen,
  pv_entries (collapse_from seen l) = pv_entries l.
Proof.
  induction l as [|[k f] l IH]; intros seen; [done|].
  rewrite pv_entries_cons. cbn [collapse_from].
  destruct (is_pv k) eqn:Hk.
  - rewrite pv_entries_cons, Hk. by rewrite IH.
  - destruct (decide (k ∈ seen)); [apply IH|].
    rewrite pv_entries_cons, Hk. apply IH.
Qed.

Lemma of_kind_collapse_seen l : forall seen k,
  is_pv k = false -> k ∈ seen -> of_kind k (collapse_from seen l) = [].
Proof.
  induction l as [|[k' f] l IH]; intros seen k Hk Hin; [done|].
  cbn [collapse_from].
  destruct (is_pv k') eqn:Hk'.
  - rewrite of_kind_cons.
    destruct (String.eqb_spec k' k) as [->|_]; [congruence|]. by apply IH.
  - destruct (decide (k' ∈ seen)); [by apply IH|].
    rewrite of_kind_cons.
    destruct (String.eqb_spec k' k) as [->|_]; [done|].
    apply IH; [done|set_solver].
Qed.

Lemma collapse_from_unique l : forall seen,
  NoDup (map fst (List.filter (fun e => negb (entry_is_pv e)) l)) ->
  collapse_from seen l
  = List.filter (fun e => entry_is_pv e || negb (bool_decide (fst e ∈ seen))) l.
Proof.
  induction l as [|[k f] l IH]; intros seen Hnd; [done|].
  cbn [collapse_from List.filter] in *. unfold entry_is_pv in Hnd at 1.
  unfold entry_is_pv at 1. cbn [fst] in *.
  destruct (is_pv k) eqn:Hk; cbn [negb orb map fst] in *.
  - f_equal. by apply IH.
  - apply NoDup_cons in Hnd as [Hnotin Hnd].
    destruct (decide (k ∈ seen)) as [Hin|Hin].
    + rewrite bool_decide_eq_true_2 by done. cbn [negb]. by apply IH.
    + rewrite bool_decide_eq_false_2 by done. cbn [negb]. f_equal.
      rewrite IH by done. apply List.filter_ext_in. intros [k' f'] Hin'.
      unfold entry_is_pv. cbn [fst].
      destruct (is_pv k') eqn:Hk'; [done|]. cbn [orb]. f_equal.
      apply bool_decide_ext. split; [|set_solver].
      intros [Heq%elem_of_singleton|?]%elem_of_union; [|done]. subst k'.
      exfalso. apply Hnotin. apply list_elem_of_In, in_map_iff.
      exists (k, f'). split; [done|]. apply filter_In. split; [done|].
      unfold entry_is_pv. cbn [fst]. by rewrite Hk.
Qed.

Lemma single_kinds_app m1 m2 : single_kinds (m1 ++ m2) = single_kinds m1 ++ single_kinds m2.
Proof. unfold single_kinds. by rewrite List.filter_app, map_app. Qed.

Lemma single_kinds_rev m : single_kinds (rev m) = rev (single_kinds m).
Proof. unfold single_kinds. by rewrite List.filter_rev, map_rev. Qed.

Lemma single_kinds_pv k fid : is_pv k = true -> single_kinds [(k, fid)] = [].
Proof. unfold single_kinds, entry_is_pv. simpl. by intros ->. Qed.

Lemma single_kinds_single k fid : is_pv k = false -> single_kinds [(k, fid)] = [k].
Proof. unfold single_kinds, entry_is_pv. simpl. by intros ->. Qed.

Lemma single_kinds_collapse l : forall seen,
  NoDup (single_kinds (collapse_from seen l))
  /\ (forall k, k ∈ single_kinds (collapse_from seen l) -> k ∉ seen).
Proof.
  induction l as [|[k f] l IH]; intros seen.
  - split; [constructor|]. intros k Hk. by apply elem_of_nil in Hk.
  - cbn [collapse_from]. destruct (is_pv k) eqn:Hk.
    + change ((k, f) :: collapse_from seen l)
        with ([(k, f)] ++ collapse_from seen l).
      rewrite single_kinds_app, single_kinds_pv by done. apply IH.
    + destruct (decide (k ∈ seen)) as [Hin|Hin]; [apply IH|].
      change ((k, f) :: collapse_from ({[k]} ∪ seen) l)
        with ([(k, f)] ++ collapse_from ({[k]} ∪ seen) l).
      rewrite single_kinds_app, single_kinds_single by done. simpl.
      pose proof (IH ({[k]} ∪ seen)) as [Hnd Hseen]. clear IH. split.
      * apply NoDup_cons. split; [|done]. intros Hk'%Hseen. set_solver.
      * intros k' [->|Hk']%elem_of_cons; [done|]. apply Hseen in Hk'. set_solver.
Qed.

(** The slot invariant is established by every call, whatever the draft. *)
Lemma singles_unique_add_media m kind fid :
  singles_unique m -> singles_unique (add_media m kind fid).
Proof.
  intros Hm. unfold singles_unique. destruct (is_pv kind) eqn:Hk.
  - rewrite add_media_pv by done. unfold slice_last.
    set (l := m ++ [(kind, fid)]).
    assert (Hl : NoDup (single_kinds l)).
    { unfold l. rewrite single_kinds_app, single_kinds_pv, app_nil_r by done. exact Hm. }
    rewrite <- (take_drop (length l - 10) l) in Hl at 1.
    rewrite single_kinds_app in Hl. by apply NoDup_app in Hl as (_ & _ & ?).
  - rewrite add_media_single by done.
    rewrite single_kinds_app, single_kinds_rev, single_kinds_single by done.
    destruct (single_kinds_collapse (rev m) {[kind]}) as [Hnd Hseen].
    apply NoDup_app. split; [by rewrite <- Permutation_rev|]. split; [|apply NoDup_singleton].
    intros k Hin%list_elem_of_In%in_rev%list_elem_of_In ->%list_elem_of_singleton.
    apply Hseen in Hin. set_solver.
Qed.

Lemma singles_unique_add_all es : forall d,
  singles_unique (media d) -> singles_unique (media (add_all d es)).
Proof.
  induction es as [|e es IH]; intros d Hd; [done|].
  simpl. apply IH. simpl. by apply singles_unique_add_media.
Qed.

Lemma not_of_kind_as_filter m kind :
  is_pv kind = false ->
  List.filter (fun e => entry_is_pv e || negb (bool_decide (fst e ∈ ({[kind]} : gset string)))) m
  = not_of_kind kind m.
Proof.
  intros Hk. apply List.filter_ext. intros [k f]. unfold entry_is_pv. cbn [fst].
  destruct (String.eqb_spec k kind) as [->|Hne].
  - rewrite Hk. rewrite bool_decide_eq_true_2 by set_solver. done.
  - rewrite (bool_decide_eq_false_2 (k ∈ _)) by set_solver. by rewrite orb_true_r.
Qed.

(** With the slot invariant, adding a single-slot kind removes the old entry
    of that kind and appends the new one; nothing else moves. *)
Lemma add_media_single_unique m kind fid :
  is_pv kind = false -> singles_unique m ->
  add_media m kind fid = not_of_kind kind m ++ [(kind, fid)].
Proof.
  intros Hk Hm. rewrite add_media_single by done. f_equal.
  rewrite collapse_from_unique.
  - rewrite not_of_kind_as_filter by done. unfold not_of_kind.
    by rewrite List.filter_rev, rev_involutive.
  - change (NoDup (single_kinds (rev m))). rewrite single_kinds_rev.
    by rewrite <- Permutation_rev.
Qed.

Lemma pv_entries_app m1 m2 : pv_entries (m1 ++ m2) = pv_entries m1 ++ pv_entries m2.
Proof. apply List.filter_app. Qed.

Lemma of_kind_app k m1 m2 : of_kind k (m1 ++ m2) = of_kind k m1 ++ of_kind k m2.
Proof. apply List.filter_app. Qed.

Lemma pv_entries_rev m : pv_entries (rev m) = rev (pv_entries m).
Proof. apply List.filter_rev. Qed.

Lemma of_kind_rev k m : of_kind k (rev m) = rev (of_kind k m).
Proof. apply List.filter_rev. Qed.

Lemma pv_entries_add_single m kind fid :
  is_pv kind = false -> pv_entries (add_media m kind fid) = pv_entries m.
Proof.
  intros Hk. rewrite add_media_single by done.
  rewrite pv_entries_app, pv_entries_rev, pv_collapse_from, pv_entries_rev.
  rewrite rev_involutive, pv_entries_cons, Hk. apply app_nil_r.
Qed.

Lemma of_kind_add_single m kind fid :
  is_pv kind = false -> of_kind kind (add_media m kind fid) = [(kind, fid)].
Proof.
  intros Hk. rewrite add_media_single by done.
  rewrite of_kind_app, of_kind_rev, of_kind_collapse_seen by (done || set_solver).
  rewrite of_kind_cons, String.eqb_refl. done.
Qed.

(** *** The album buffer *)

Lemma slice_last_length {A} (n : nat) (l : list A) :
  length (slice_last n l) = Nat.min n (length l).
Proof. unfold slice_last. rewrite length_drop. lia. Qed.

Lemma slice_last_snoc {A} (n : nat) (l : list A) (x : A) :
  slice_last n (slice_last n l ++ [x]) = slice_last n (l ++ [x]).
Proof.
  unfold slice_last. rewrite !length_app, length_drop. cbn [length].
  destruct (decide (length l <= n)%nat) as [Hle|Hgt].
  - assert (length l - n = 0)%nat as -> by lia. rewrite drop_0. f_equal. lia.
  - destruct n as [|n].
    + rewrite !drop_ge; [done| |]; rewrite !length_app, ?length_drop; simpl; lia.
    + rewrite !drop_app_le by (rewrite ?length_drop; lia).
      rewrite drop_drop. f_equal. f_equal. lia.
Qed.

Lemma add_all_snoc d es e :
  add_all d (es ++ [e]) = add_media_to_draft (add_all d es) (fst e) (snd e).
Proof. unfold add_all. by rewrite fold_left_app. Qed.

(** Photo and video additions alone: the media list is the last ten. *)
Lemma add_all_pv es :
  Forall (fun e => is_pv (fst e) = true) es ->
  media (add_all Draft_new es) = slice_last 10 es.
Proof.
  induction es as [|e es IH] using rev_ind; intros Hes; [done|].
  apply Forall_app in Hes as [Hes He]. apply Forall_inv in He.
  rewrite add_all_snoc. cbn [add_media_to_draft media].
  rewrite add_media_pv by done. rewrite IH by done.
  destruct e as [k f]. apply slice_last_snoc.
Qed.

Lemma pv_entries_length m : (length (pv_entries m) <= length m)%nat.
Proof. apply List.filter_length_le. Qed.

(** Whatever is added, in whatever order, the album never exceeds ten. *)
Lemma album_bound_add_media m kind fid :
  (length (pv_entries m) <= 10)%nat ->
  (length (pv_entries (add_media m kind fid)) <= 10)%nat.
Proof.
  intros Hm. destruct (is_pv kind) eqn:Hk.
  - rewrite add_media_pv by done.
    etrans; [apply pv_entries_length|]. rewrite slice_last_length. lia.
  - by rewrite pv_entries_add_single.
Qed.

Lemma album_bound_add_all es : forall d,
  (length (pv_entries (media d)) <= 10)%nat ->
  (length (pv_entries (media (add_all d es))) <= 10)%nat.
Proof.
  induction es as [|e es IH]; intros d Hd; [done|].
  simpl. apply IH. simpl. by apply album_bound_add_media.
Qed.

(** The entry just added is always the last of the media list. *)
Lemma add_media_last m kind fid :
  last (add_media m kind fid) = Some (kind, fid).
Proof.
  destruct (is_pv kind) eqn:Hk.
  - rewrite add_media_pv by done. unfold slice_last.
    rewrite length_app. simpl.
    rewrite drop_app_le by lia. apply last_snoc.
  - rewrite add_media_single by done. apply last_snoc.
Qed.

Lemma filter_idem {A} (f : A -> bool) (l : list A) :
  List.filter f (List.filter f l) = List.filter f l.
Proof.
  induction l as [|x l IH]; [done|]. cbn [List.filter].
  destruct (f x) eqn:Hx; [|done]. cbn [List.filter]. rewrite Hx. by f_equal.
Qed.

Lemma not_of_kind_snoc k m fid :
  not_of_kind k (not_of_kind k m ++ [(k, fid)]) = not_of_kind k m.
Proof.
  unfold not_of_kind. rewrite List.filter_app, filter_idem.
  cbn [List.filter fst]. rewrite String.eqb_refl. apply app_nil_r.
Qed.

End Aggregation.

(** C5. Starting from an empty draft and adding only photos and videos,
    after every call the draft holds at most ten photo/video entries, and
    its media list is exactly the last ten entries added (all of them when
    fewer were added), in the order they were added. *)
Theorem album_is_last_ten (es : list entry) (n : nat) :
  Forall (fun e => is_pv (fst e) = true) es ->
  let d := add_all Draft_new (take n es) in
  (length (pv_entries (media d)) <= 10)%nat
  /\ media d = drop (length (take n es) - 10) (take n es).
Proof.
  intros Hes d.
  assert (Hm : media d = slice_last 10 (take n es)).
  { apply add_all_pv. by apply Forall_take. }
  split; [|exact Hm].
  rewrite Hm. etrans; [apply pv_entries_length|].
  rewrite slice_last_length. lia.
Qed.

Lemma album_is_last_ten_witness :
  Forall (fun e => is_pv (fst e) = true) twelve_pv
  /\ media (add_all Draft_new (take 12 twelve_pv)) = drop 2 twelve_pv.
Proof.
  assert (H : Forall (fun e => is_pv (fst e) = true) twelve_pv).
  { unfold twelve_pv. repeat constructor. }
  split; [exact H|]. exact (proj2 (album_is_last_ten twelve_pv 12 H)).
Defined.

(** C6. Adding an entry of a kind other than photo and video (document,
    animation, audio, voice) to a draft whose single-slot kinds occur at most
    once leaves exactly one entry of that kind, the new one; every other
    entry, photo/video or not, stays where it was, and the text is not
    touched. Adding the same kind again leaves only the second entry. *)
Theorem single_slot_replaced (d : Draft) (kind fid : string) :
  is_pv kind = false ->
  singles_unique (media d) ->
  of_kind kind (media (add_media_to_draft d kind fid)) = [(kind, fid)]
  /\ pv_entries (media (add_media_to_draft d kind fid)) = pv_entries (media d)
  /\ not_of_kind kind (media (add_media_to_draft d kind fid)) = not_of_kind kind (media d)
  /\ media (add_media_to_draft d kind fid) = not_of_kind kind (media d) ++ [(kind, fid)]
  /\ text (add_media_to_draft d kind fid) = text d
  /\ forall fid2,
       media (add_media_to_draft (add_media_to_draft d kind fid) kind fid2)
       = not_of_kind kind (media d) ++ [(kind, fid2)]
       /\ of_kind kind (media (add_media_to_draft (add_media_to_draft d kind fid) kind fid2))
          = [(kind, fid2)]
       /\ pv_entries (media (add_media_to_draft (add_media_to_draft d kind fid) kind fid2))
          = pv_entries (media d).
Proof.
  intros Hk Hd. cbn [add_media_to_draft media text].
  rewrite of_kind_add_single, pv_entries_add_single by done.
  rewrite add_media_single_unique by done. rewrite not_of_kind_snoc.
  repeat split; try done.
  - rewrite add_media_single_unique; [by rewrite not_of_kind_snoc|done|].
    rewrite <- add_media_single_unique by done. by apply singles_unique_add_media.
  - by apply of_kind_add_single.
  - rewrite pv_entries_add_single by done.
    rewrite <- add_media_single_unique by done. by apply pv_entries_add_single.
Qed.

Lemma single_slot_replaced_witness :
  media (add_media_to_draft
           (mkDraft "hi" [("photo", "a"); ("document", "d1"); ("voice", "v"); ("video", "b")])
           "document" "d2")
  = [("photo", "a"); ("voice", "v"); ("video", "b"); ("document", "d2")].
Proof.
  refine (proj1 (proj2 (proj2 (proj2
    (single_slot_replaced
       (mkDraft "hi" [("photo", "a"); ("document", "d1"); ("voice", "v"); ("video", "b")])
       "document" "d2" _ _))))).
  - reflexivity.
  - unfold singles_unique. vm_compute. apply NoDup_ListNoDup.
    repeat constructor; simpl; intuition discriminate.
Defined.

(** C1. The photo/video branch cuts the whole media list to its last ten
    entries, whatever their kinds. Evaluated on a draft built by the program
    itself (a document, then nine photos): the tenth photo brings the
    photo/video count to ten, not above it, and the document entry is dropped
    all the same. With the document added after ten photos, the next photo
    leaves nine photo/video entries, not ten. *)
Theorem photo_trim_cuts_every_kind :
  media (add_all Draft_new (("document", "d") :: photos_1_9))
  = ("document", "d") :: photos_1_9
  /\ media (add_media_to_draft (mkDraft "" (("document", "d") :: photos_1_9)) "photo" "p10")
     = photos_1_9 ++ [("photo", "p10")]
  /\ of_kind "document"
       (media (add_media_to_draft (mkDraft "" (("document", "d") :: photos_1_9)) "photo" "p10"))
     = []
  /\ media (add_all Draft_new (photos_1_9 ++ [("photo", "p10"); ("document", "d")]))
     = photos_1_9 ++ [("photo", "p10"); ("document", "d")]
  /\ length (pv_entries (media (add_media_to_draft
       (mkDraft "" (photos_1_9 ++ [("photo", "p10"); ("document", "d")])) "photo" "p11")))
     = 9%nat.
Proof. repeat split; vm_compute; reflexivity. Qed.

(** *** The matcher on the shapes the patterns describe *)

Section Matching.

Context {R : Type}.
Implicit Types (p : ascii -> bool) (s rest ws : string) (k : string -> option R).

Lemma rep_run_greedy p ws : forall lo hi rest k r,
  all_chars p ws = true ->
  (lo <= String.length ws)%nat ->
  match hi with Some n => (String.length ws <= n)%nat | None => True end ->
  hi = Some (String.length ws) \/ stops p rest ->
  k rest = Some r ->
  rep_run p lo hi (ws ++ rest)%string k = Some r.
Proof.
  induction ws as [|c ws IH]; intros lo hi rest k r Hall Hlo Hhi Hstop Hk.
  - simpl in *. assert (lo = 0)%nat as -> by lia. simpl.
    destruct rest as [|c rest]; [done|]. simpl.
    destruct Hstop as [->|Hc]; [by rewrite andb_false_r|].
    unfold stops in Hc. by rewrite Hc.
  - simpl in Hall. apply andb_true_iff in Hall as [Hc Hall].
    cbn [String.length] in *. change (String c ws ++ rest)%string with (String c (ws ++ rest)%string). cbn [rep_run]. rewrite Hc.
    assert (Hhi' : match hi with Some O => false | _ => true end = true).
    { destruct hi as [[|n]|]; [lia|done|done]. }
    rewrite Hhi'. cbn [andb].
    rewrite (IH (pred lo) (option_map pred hi) rest k r); try done.
    + lia.
    + destruct hi as [n|]; simpl; [lia|done].
    + destruct Hstop as [->|?]; [left|by right]. done.
Qed.

End Matching.

Lemma consumed_app (s rest : string) : consumed (s ++ rest)%string rest = s.
Proof.
  unfold consumed.
  assert (Hlen : forall a b, String.length (a ++ b)%string
                             = (String.length a + String.length b)%nat).
  { induction a as [|c a IH]; intros b; simpl; [done|]. by rewrite IH. }
  rewrite Hlen. replace (String.length s + String.length rest - String.length rest)%nat
    with (String.length s) by lia.
  induction s as [|c s IH]; simpl.
  - by destruct rest.
  - by rewrite IH.
Qed.

Lemma append_empty_r (s : string) : (s ++ "")%string = s.
Proof.
  induction s as [|c s IH]; [done|].
  change (String c s ++ "")%string with (String c (s ++ "")%string). by rewrite IH.
Qed.

Lemma digit_not_space c : is_digit c = true -> is_space c = false.
Proof.
  unfold is_digit, is_space. intros H.
  apply andb_true_iff in H as [H1 H2].
  apply N.leb_le in H1, H2.
  repeat match goal with
  | |- context [(?a <=? ?b)%N] => destruct (N.leb_spec a b)
  | |- context [(?a =? ?b)%N] => destruct (N.eqb_spec a b)
  end; simpl; try done; lia.
Qed.

Lemma stops_space_digits (h rest : string) :
  all_chars is_digit h = true -> (1 <= String.length h)%nat ->
  stops is_space (h ++ rest)%string.
Proof.
  destruct h as [|c h]; simpl; [lia|].
  intros [Hc _]%andb_true_iff _. by apply digit_not_space.
Qed.

(** The groups of [TIME_HHMM] on an input of the form it describes. *)
Lemma TIME_HHMM_match (ws1 h m ws2 : string) :
  all_chars is_space ws1 = true ->
  all_chars is_digit h = true -> (1 <= String.length h <= 2)%nat ->
  all_chars is_digit m = true -> String.length m = 2%nat ->
  all_chars is_space ws2 = true ->
  re_match false TIME_HHMM (ws1 ++ h ++ ":" ++ m ++ ws2)%string
  = Some (<[2%nat := m]> (<[1%nat := h]> ∅)).
Proof.
  intros Hws1 Hh Hlh Hm Hlm Hws2.
  unfold re_match, TIME_HHMM, star, between. cbn [cat_all re_run].
  erewrite rep_run_greedy; [reflexivity|done|lia|done| |].
  { right. apply stops_space_digits; [done|lia]. }
  erewrite rep_run_greedy; [reflexivity|done|lia|lia| |].
  { by right. }
  change (":" ++ m ++ ws2)%string with (String ":" (m ++ ws2)%string).
  cbv beta iota. unfold chr_eq. rewrite Ascii.eqb_refl.
  erewrite rep_run_greedy; [reflexivity|done|lia|lia| |].
  { left. by rewrite Hlm. }
  rewrite <- (append_empty_r ws2) at 1.
  erewrite rep_run_greedy; [reflexivity|done|lia|done| |].
  { by right. }
  cbn [at_end]. by rewrite (consumed_app h), (consumed_app m).
Qed.

(** *** The calendar: ordinals and dates *)

Section Calendar.

Lemma cycle_ok_true : all_from cycle_day_ok 1 (Z.to_nat DI400Y) = true.
Proof. vm_cast_no_check (eq_refl true). Qed.

Lemma all_from_spec (f : Z -> bool) (count : nat) : forall n,
  all_from f n count = true ->
  forall i, n <= i < n + Z.of_nat count -> f i = true.
Proof.
  induction count as [|c IH]; intros n H i Hi; [lia|].
  cbn [all_from] in H. apply andb_true_iff in H as [Hn H].
  destruct (Z.eq_dec i n) as [->|Hne]; [done|].
  apply (IH (n + 1)); [done|lia].
Qed.

Lemma cycle_day (n : Z) : 1 <= n <= DI400Y -> cycle_day_ok n = true.
Proof.
  intros Hn.
  apply (all_from_spec cycle_day_ok (Z.to_nat DI400Y) 1 cycle_ok_true).
  rewrite Z2Nat.id; [lia|done].
Qed.

Lemma is_leap_shift (y q : Z) : is_leap (y + 400 * q) = is_leap y.
Proof.
  unfold is_leap.
  replace (y + 400 * q) with (y + (100 * q) * 4) at 1 by lia.
  replace (y + 400 * q) with (y + (4 * q) * 100) at 1 by lia.
  replace (y + 400 * q) with (y + q * 400) by lia.
  by rewrite !Z_mod_plus_full.
Qed.

Lemma days_before_year_shift (y q : Z) :
  days_before_year (y + 400 * q) = days_before_year y + DI400Y * q.
Proof.
  unfold days_before_year, DI400Y. cbv zeta.
  replace (y + 400 * q - 1) with (y - 1 + 400 * q) by lia.
  replace ((y - 1 + 400 * q) / 4) with ((y - 1) / 4 + 100 * q).
  2:{ replace (y - 1 + 400 * q) with (y - 1 + (100 * q) * 4) by lia.
      by rewrite Z.div_add. }
  replace ((y - 1 + 400 * q) / 100) with ((y - 1) / 100 + 4 * q).
  2:{ replace (y - 1 + 400 * q) with (y - 1 + (4 * q) * 100) by lia.
      by rewrite Z.div_add. }
  replace ((y - 1 + 400 * q) / 400) with ((y - 1) / 400 + q).
  2:{ replace (y - 1 + 400 * q) with (y - 1 + q * 400) by lia.
      by rewrite Z.div_add. }
  lia.
Qed.

Lemma ymd2ord_shift (y mo d q : Z) :
  ymd2ord (y + 400 * q) mo d = ymd2ord y mo d + DI400Y * q.
Proof.
  unfold ymd2ord, days_before_month.
  rewrite days_before_year_shift, is_leap_shift. lia.
Qed.

Lemma days_in_month_shift (y mo q : Z) :
  days_in_month (y + 400 * q) mo = days_in_month y mo.
Proof. unfold days_in_month. by rewrite is_leap_shift. Qed.

Lemma ord2ymd_shift (n : Z) :
  ord2ymd n
  = let '(y, mo, d) := ord2ymd ((n - 1) mod DI400Y + 1) in
    (y + 400 * ((n - 1) / DI400Y), mo, d).
Proof.
  unfold ord2ymd. cbv zeta.
  set (q := (n - 1) / DI400Y). set (r := (n - 1) mod DI400Y).
  assert (Hr : 0 <= r < DI400Y) by (apply Z.mod_pos_bound; reflexivity).
  replace (r + 1 - 1) with r by lia.
  rewrite (Z.div_small r DI400Y), (Z.mod_small r DI400Y) by done.
  repeat match goal with
  | |- context [if ?b then _ else _] => destruct b
  end; f_equal; try f_equal; lia.
Qed.

(** [fromordinal] inverts [toordinal], and yields a valid date, on the whole
    range of [datetime]. *)
Lemma ord2ymd_spec (n : Z) :
  1 <= n <= MAXORDINAL ->
  exists y mo d, ord2ymd n = (y, mo, d)
    /\ ymd2ord y mo d = n /\ check_date_fields y mo d = true.
Proof.
  intros Hn. rewrite ord2ymd_shift.
  set (q := (n - 1) / DI400Y). set (r := (n - 1) mod DI400Y).
  assert (Hr : 0 <= r < DI400Y) by (apply Z.mod_pos_bound; reflexivity).
  assert (Hqr : n - 1 = DI400Y * q + r) by (apply Z.div_mod; discriminate).
  assert (Hq : 0 <= q <= 24).
  { unfold q, DI400Y, MAXORDINAL in *. split.
    - apply Z.div_pos; lia.
    - cut ((n - 1) / 146097 < 25); [lia|]. apply Z.div_lt_upper_bound; lia. }
  pose proof (cycle_day (r + 1)) as Hc. unfold cycle_day_ok in Hc.
  destruct (ord2ymd (r + 1)) as [[y mo] d].
  exists (y + 400 * q), mo, d. split; [done|].
  specialize (Hc ltac:(lia)).
  repeat (apply andb_true_iff in Hc as [Hc ?]).
  rewrite ymd2ord_shift. split; [lia|].
  unfold check_date_fields. rewrite days_in_month_shift.
  unfold MINYEAR, MAXYEAR, DI400Y, MAXORDINAL in *.
  repeat (apply andb_true_iff; split); lia.
Qed.

End Calendar.

(** *** Arithmetic on [datetime] values *)

Section DatetimeArith.

Implicit Types (dt now : datetime).

Lemma valid_datetime_fields dt :
  valid_datetime dt = true ->
  check_date_fields (year dt) (month dt) (day dt) = true
  /\ 0 <= hour dt <= 23 /\ 0 <= minute dt <= 59
  /\ 0 <= second dt <= 59 /\ 0 <= microsecond dt <= 999999.
Proof.
  unfold valid_datetime, check_time_fields. intros H.
  apply andb_true_iff in H as [Hd Ht]. split; [done|].
  repeat (apply andb_true_iff in Ht as [Ht ?]). lia.
Qed.

Lemma replace_time_ok now hh mi :
  valid_datetime now = true -> 0 <= hh <= 23 -> 0 <= mi <= 59 ->
  replace_time now hh mi 0 0
  = Ok (mkDT (year now) (month now) (day now) hh mi 0 0 (tzinfo now) (fold now)).
Proof.
  intros Hnow Hh Hm. apply valid_datetime_fields in Hnow as (Hd & _).
  unfold replace_time, datetime_new. rewrite Hd.
  unfold check_time_fields.
  replace ((0 <=? hh) && (hh <=? 23) && (0 <=? mi) && (mi <=? 59)
           && (0 <=? 0) && (0 <=? 59) && (0 <=? 0) && (0 <=? 999999)) with true; [done|].
  symmetry. repeat (apply andb_true_iff; split); lia.
Qed.

Lemma replace_time_raises now hh mi :
  (23 <? hh) || (59 <? mi) = true -> replace_time now hh mi 0 0 = Raise ValueError.
Proof.
  intros H. unfold replace_time, datetime_new, check_time_fields.
  destruct (check_date_fields _ _ _); [|done]. cbn [andb].
  destruct (Z.leb_spec hh 23), (Z.leb_spec mi 59); rewrite ?andb_false_r; try done.
  exfalso. apply orb_true_iff in H as [H|H]; lia.
Qed.

(** Two values of one day compare by their time of day. *)
Lemma dt_le_same_day a b :
  year a = year b -> month a = month b -> day a = day b ->
  0 <= minute a <= 59 -> 0 <= second a <= 59 -> 0 <= microsecond a <= 999999 ->
  0 <= minute b <= 59 -> 0 <= second b <= 59 -> 0 <= microsecond b <= 999999 ->
  dt_le a b = (time_of_day a <=? time_of_day b).
Proof.
  intros Hy Hmo Hd ? ? ? ? ? ?. unfold dt_le, time_of_day.
  rewrite Hy, Hmo, Hd, !Z.compare_refl.
  destruct (Z.compare_spec (hour a) (hour b));
    [destruct (Z.compare_spec (minute a) (minute b));
      [destruct (Z.compare_spec (second a) (second b))|..]|..];
    try (symmetry; apply Z.leb_le; nia); try (symmetry; apply Z.leb_gt; nia).
  destruct (Z.leb_spec (microsecond a) (microsecond b));
    [symmetry; apply Z.leb_le; nia|symmetry; apply Z.leb_gt; nia].
Qed.

(** Adding whole days moves the ordinal and keeps the time of day. *)
Lemma datetime_add_days dt n :
  valid_datetime dt = true ->
  1 <= toordinal dt + n <= MAXORDINAL ->
  exists r, datetime_add dt (mkTD n 0 0) = Ok r
    /\ toordinal r = toordinal dt + n
    /\ hour r = hour dt /\ minute r = minute dt /\ second r = second dt
    /\ microsecond r = microsecond dt /\ tzinfo r = tzinfo dt
    /\ valid_datetime r = true.
Proof.
  intros Hdt Hn. pose proof (valid_datetime_fields dt Hdt) as (Hd & Hh & Hm & Hs & Hus).
  unfold datetime_add. cbn [td_days td_seconds td_microseconds].
  rewrite !Z.add_0_r.
  rewrite (Z.div_small (microsecond dt)), (Z.mod_small (microsecond dt)) by lia.
  rewrite !Z.add_0_r.
  set (s := hour dt * 3600 + minute dt * 60 + second dt).
  assert (Hs' : 0 <= s < 86400) by (unfold s; lia).
  rewrite (Z.div_small s), (Z.mod_small s) by lia. rewrite Z.add_0_r.
  replace ((0 <? toordinal dt + n) && (toordinal dt + n <=? MAXORDINAL)) with true
    by (symmetry; apply andb_true_iff; split; lia).
  destruct (ord2ymd_spec (toordinal dt + n) Hn) as (y & mo & d & -> & Hord & Hchk).
  assert (H1 : s / 3600 = hour dt).
  { symmetry. apply (Z.div_unique s 3600 (hour dt) (minute dt * 60 + second dt)); unfold s; lia. }
  assert (H2 : s mod 3600 = minute dt * 60 + second dt).
  { symmetry. apply (Z.mod_unique s 3600 (hour dt) (minute dt * 60 + second dt)); unfold s; lia. }
  assert (H3 : (s mod 3600) / 60 = minute dt).
  { rewrite H2. symmetry. apply (Z.div_unique _ 60 (minute dt) (second dt)); lia. }
  assert (H4 : (s mod 3600) mod 60 = second dt).
  { rewrite H2. symmetry. apply (Z.mod_unique _ 60 (minute dt) (second dt)); lia. }
  eexists. split; [reflexivity|]. unfold toordinal, valid_datetime, check_time_fields.
  cbn [year month day hour minute second microsecond tzinfo].
  rewrite H1, H3, H4, Hchk. repeat split; try done.
  repeat (apply andb_true_iff; split); lia.
Qed.

Lemma digits_value_nonneg (s : string) : forall acc,
  all_chars is_digit s = true -> 0 <= acc -> 0 <= digits_value acc s.
Proof.
  induction s as [|c s IH]; intros acc Hs Hacc; [done|].
  cbn [all_chars digits_value] in *. apply andb_true_iff in Hs as [Hc Hs].
  apply IH; [done|]. unfold is_digit in Hc.
  apply andb_true_iff in Hc as [Hc _]. apply N.leb_le in Hc. lia.
Qed.

Lemma int_short (s : string) :
  (String.length s <= 4)%nat -> int s = Ok (digits_value 0 s).
Proof.
  intros Hs. unfold int, int_max_str_digits.
  destruct (Nat.ltb_spec 4300 (String.length s)); [lia|done].
Qed.

End DatetimeArith.

(** *** [parse_when] *)


(** The [ValueError] of the constructor is caught in the second grammar. *)
Example parse_when_month_13 (now : datetime) :
  parse_when "2025-13-01 10:00" now = Ok None.
Proof. reflexivity. Qed.

Example parse_when_february_30 (now : datetime) :
  parse_when "2025-02-30 10:00" now = Ok None.
Proof. reflexivity. Qed.

Example parse_when_in_45m :
  parse_when "in 45m" new_year_evening = Ok (Some (mkDT 2025 1 1 20 45 0 0 LOCAL_TZ 0)).
Proof. vm_compute. reflexivity. Qed.

(** C8. [parse_when] raises on an input of the first grammar whose hour is
    out of range: [now.replace(hour=25, ...)] raises [ValueError], and
    nothing around it catches the exception. *)
Theorem parse_when_raises_on_hour_25 (now : datetime) :
  parse_when "25:00" now = Raise ValueError.
Proof.
  unfold parse_when.
  replace (re_match false TIME_HHMM "25:00")
    with (Some (<[2%nat := "00"]> (<[1%nat := "25"]> (∅ : gmap nat string))))
    by (symmetry; apply (TIME_HHMM_match "" "25" "00" ""); (done || simpl; lia)).
  change (group _ 1) with "25". change (group _ 2) with "00".
  cbn [bind int]. change (digits_value 0 "25") with 25. change (digits_value 0 "00") with 0.
  replace (int "25") with (Ok 25) by done. replace (int "00") with (Ok 0) by done.
  cbn [bind]. by rewrite replace_time_raises.
Qed.

Lemma ymd2ord_pos (y mo d : Z) :
  check_date_fields y mo d = true -> 1 <= ymd2ord y mo d.
Proof.
  unfold check_date_fields, MINYEAR, ymd2ord. intros H.
  repeat (apply andb_true_iff in H as [H ?]).
  assert (0 <= days_before_year y).
  { unfold days_before_year. cbv zeta.
    assert ((y - 1) / 100 <= (y - 1) / 4) by (apply Z.div_le_compat_l; lia).
    assert (0 <= (y - 1) / 400) by (apply Z.div_pos; lia). lia. }
  assert (0 <= days_before_month y mo).
  { unfold days_before_month.
    assert (Hmo : mo = 1 \/ mo = 2 \/ mo = 3 \/ mo = 4 \/ mo = 5 \/ mo = 6 \/ mo = 7
                  \/ mo = 8 \/ mo = 9 \/ mo = 10 \/ mo = 11 \/ mo = 12) by lia.
    destruct (_ && _); intuition subst; done. }
  lia.
Qed.

Lemma parse_when_hhmm_unfold (ws1 h m ws2 : string) (now : datetime) :
  all_chars is_space ws1 = true ->
  all_chars is_digit h = true -> (1 <= String.length h <= 2)%nat ->
  all_chars is_digit m = true -> String.length m = 2%nat ->
  all_chars is_space ws2 = true ->
  parse_when (ws1 ++ h ++ ":" ++ m ++ ws2)%string now
  = (dt <- replace_time now (digits_value 0 h) (digits_value 0 m) 0 0 ;;
     if dt_le dt now then
       one_day <- timedelta_new 1 0 0 ;;
       dt' <- datetime_add dt one_day ;;
       Ok (Some dt')
     else Ok (Some dt)).
Proof.
  intros Hws1 Hh Hlh Hm Hlm Hws2. unfold parse_when.
  rewrite TIME_HHMM_match by done.
  unfold group. rewrite lookup_insert_ne, lookup_insert_eq, lookup_insert_eq by done.
  change (default "" (Some h)) with h. change (default "" (Some m)) with m.
  rewrite !int_short by lia. done.
Qed.

(** C9. An input [HH:MM] (one or two digits, a colon, two digits, white
    space around) whose hour is at most 23 and whose minute is at most 59,
    read at an instant [now] that is not on the last day of the calendar,
    yields a time in the zone of [now] with that hour and minute and zero
    seconds: on the day of [now] when that is strictly after [now], on the
    next day otherwise. In particular "18:30" read at 2025-01-01T20:00 is
    2025-01-02T18:30. *)
Theorem parse_when_clock_time (ws1 h m ws2 : string) (now : datetime) :
  all_chars is_space ws1 = true ->
  all_chars is_digit h = true -> (1 <= String.length h <= 2)%nat ->
  all_chars is_digit m = true -> String.length m = 2%nat ->
  all_chars is_space ws2 = true ->
  valid_datetime now = true ->
  digits_value 0 h <= 23 -> digits_value 0 m <= 59 ->
  toordinal now < MAXORDINAL ->
  exists r,
    parse_when (ws1 ++ h ++ ":" ++ m ++ ws2)%string now = Ok (Some r)
    /\ hour r = digits_value 0 h /\ minute r = digits_value 0 m
    /\ second r = 0 /\ microsecond r = 0
    /\ tzinfo r = tzinfo now
    /\ valid_datetime r = true
    /\ (time_of_day now < time_of_day r ->
        toordinal r = toordinal now
        /\ year r = year now /\ month r = month now /\ day r = day now)
    /\ (time_of_day r <= time_of_day now -> toordinal r = toordinal now + 1)
    /\ parse_when "18:30" new_year_evening
       = Ok (Some (mkDT 2025 1 2 18 30 0 0 LOCAL_TZ 0)).
Proof.
  intros Hws1 Hh Hlh Hm Hlm Hws2 Hnow Hh23 Hm59 Hlast.
  pose proof (digits_value_nonneg h 0 Hh ltac:(done)) as Hh0.
  pose proof (digits_value_nonneg m 0 Hm ltac:(done)) as Hm0.
  set (hh := digits_value 0 h) in *. set (mm := digits_value 0 m) in *.
  rewrite parse_when_hhmm_unfold by done. fold hh mm.
  rewrite replace_time_ok by (done || lia). cbn [bind].
  set (today := mkDT (year now) (month now) (day now) hh mm 0 0 (tzinfo now) (fold now)).
  pose proof (valid_datetime_fields now Hnow) as (Hd & Hnh & Hnm & Hns & Hnus).
  assert (Htoday : valid_datetime today = true).
  { unfold valid_datetime, today, check_time_fields.
    cbn [year month day hour minute second microsecond]. rewrite Hd.
    repeat (apply andb_true_iff; split); (done || lia). }
  assert (Hord : toordinal today = toordinal now) by done.
  assert (Hday : 1 <= toordinal now) by (by apply ymd2ord_pos).
  rewrite (dt_le_same_day today now) by (done || (unfold today; cbn; lia)).
  destruct (Z.leb_spec (time_of_day today) (time_of_day now)) as [Hle|Hgt].
  - change (timedelta_new 1 0 0) with (Ok (mkTD 1 0 0)). cbn [bind].
    destruct (datetime_add_days today 1 Htoday ltac:(lia))
      as (r & -> & Hr & Hrh & Hrm & Hrs & Hrus & Hrtz & Hrv).
    cbn [bind]. exists r.
    assert (Htr : time_of_day r = time_of_day today).
    { unfold time_of_day. by rewrite Hrh, Hrm, Hrs, Hrus. }
    repeat split; try done; lia.
  - exists today. repeat split; try done; lia.
Qed.

Lemma parse_when_clock_time_witness :
  exists r, parse_when ("" ++ "18" ++ ":" ++ "30" ++ "")%string new_year_evening = Ok (Some r)
    /\ hour r = 18 /\ minute r = 30 /\ second r = 0 /\ tzinfo r = LOCAL_TZ.
Proof.
  destruct (parse_when_clock_time "" "18" "30" "" new_year_evening)
    as (r & H & Hh & Hm & Hs & _ & Htz & _).
  - reflexivity.
  - reflexivity.
  - simpl. lia.
  - reflexivity.
  - reflexivity.
  - reflexivity.
  - reflexivity.
  - vm_compute. discriminate.
  - vm_compute. discriminate.
  - vm_compute. reflexivity.
  - exists r. split; [exact H|]. split; [exact Hh|]. split; [exact Hm|].
    split; [exact Hs|exact Htz].
Defined.

(** An hour of 24 is of the form [HH:MM], and no time comes back for it:
    [replace] raises. *)
Lemma hour_24_is_no_clock_time :
  parse_when "24:30" new_year_evening = Raise ValueError
  /\ ~ exists r, parse_when "24:30" new_year_evening = Ok (Some r).
Proof.
  assert (H : parse_when "24:30" new_year_evening = Raise ValueError)
    by (vm_compute; reflexivity).
  split; [exact H|]. intros [r Hr]. rewrite H in Hr. discriminate.
Qed.

(** *** The store *)

Section Store.

Implicit Types (st : state) (ref d : loc) (uid : Z).

Lemma sched_same_refl st : sched_same st st.
Proof. by repeat split. Qed.

Lemma sched_same_trans st1 st2 st3 :
  sched_same st1 st2 -> sched_same st2 st3 -> sched_same st1 st3.
Proof. unfold sched_same. intros (?&?&?&?&?) (?&?&?&?&?). repeat split; congruence. Qed.

Lemma read_draft_Some st ref o l :
  objs st !! ref = Some o -> lists st !! o_media o = Some l ->
  read_draft st ref = Some (mkDraft (o_text o) l).
Proof. unfold read_draft. by intros -> ->. Qed.

Lemma read_draft_obj st ref D : read_draft st ref = Some D -> is_Some (objs st !! ref).
Proof. unfold read_draft. destruct (objs st !! ref); [by eexists|done]. Qed.

Lemma heap_ok_read st ref :
  heap_ok st -> is_Some (objs st !! ref) -> is_Some (read_draft st ref).
Proof.
  intros H [o Ho]. destruct (h_objs st H ref o Ho) as (_ & _ & [l Hl]).
  rewrite (read_draft_Some st ref o l) by done. by eexists.
Qed.

(** Allocation of a [Draft] instance with a fresh list. *)
Lemma alloc_draft_spec st txt l :
  heap_ok st ->
  let st' := (new_obj (mkObj txt (next_loc st)) (new_list l st).2).2 in
  let ref := S (next_loc st) in
  (new_obj (mkObj txt (next_loc st)) (new_list l st).2).1 = ref
  /\ read_draft st' ref = Some (mkDraft txt l)
  /\ objs st !! ref = None
  /\ (forall uid r, DRAFTS st !! uid = Some r -> r <> ref)
  /\ (forall id t, tasks st !! id = Some t -> t_draft t <> ref)
  /\ DRAFTS st' = DRAFTS st
  /\ sched_same st st'
  /\ frames (fun _ => True) st st'
  /\ (forall r, r <> ref -> objs st' !! r = objs st !! r)
  /\ (heap_ok st').
Proof.
  intros H. cbn zeta. unfold new_obj, new_list, set_heap. cbn.
  assert (Hfresh : forall r o, objs st !! r = Some o -> S (next_loc st) <> r).
  { intros r o Ho <-. apply (h_objs st H) in Ho. lia. }
  assert (Hnone : objs st !! S (next_loc st) = None).
  { destruct (objs st !! S (next_loc st)) eqn:E; [|done]. by apply Hfresh in E. }
  split; [done|]. split.
  { unfold read_draft. cbn. rewrite lookup_insert_eq. cbn. by rewrite lookup_insert_eq. }
  split; [done|]. split.
  { intros uid r Hr. destruct (h_drafts st H uid r Hr) as [o Ho].
    apply not_eq_sym. by eapply Hfresh. }
  split.
  { intros id t Ht. destruct (h_tasks st H id t Ht) as [[o Ho] _].
    apply not_eq_sym. by eapply Hfresh. }
  split; [done|]. split; [by repeat split|]. split.
  { intros r _ [o Ho]. pose proof (Hfresh r o Ho).
    unfold read_draft. cbn. rewrite lookup_insert_ne by done. split; [done|].
    rewrite Ho. destruct (h_objs st H r o Ho) as (_ & Hm & _).
    by rewrite lookup_insert_ne by lia. }
  split.
  { intros r Hr. cbn. by rewrite lookup_insert_ne by done. }
  constructor; cbn.
  - intros r o. destruct (decide (r = S (next_loc st))) as [->|Hne].
    + rewrite lookup_insert_eq. intros [= <-]. cbn. rewrite lookup_insert_eq.
      repeat split; (lia || by eexists).
    + rewrite lookup_insert_ne by done. intros Ho.
      destruct (h_objs st H r o Ho) as (? & ? & ?).
      rewrite lookup_insert_ne by lia. repeat split; (lia || done).
  - intros r1 r2 o1 o2.
    destruct (decide (r1 = S (next_loc st))) as [->|Hne1];
    destruct (decide (r2 = S (next_loc st))) as [->|Hne2];
      rewrite ?lookup_insert_eq, ?lookup_insert_ne by done; try done.
    + intros [= <-] Ho2. cbn. apply (h_objs st H) in Ho2. lia.
    + intros Ho1 [= <-]. cbn. apply (h_objs st H) in Ho1. lia.
    + apply (h_inj st H).
  - intros uid r Hr. destruct (h_drafts st H uid r Hr) as [o Ho].
    exists o. rewrite lookup_insert_ne; [done|by eapply Hfresh].
  - intros id t Ht. destruct (h_tasks st H id t Ht) as [[o Ho] Hd]. split; [|done].
    exists o. rewrite lookup_insert_ne; [done|by eapply Hfresh].
Qed.

Lemma frames_weaken (P Q : loc -> Prop) st st' :
  (forall r, Q r -> P r) -> frames P st st' -> frames Q st st'.
Proof. intros HPQ H r Hr. apply H. by apply HPQ. Qed.

Lemma frames_refl P st : frames P st st.
Proof. by intros r _ _. Qed.

Lemma frames_trans (P : loc -> Prop) st1 st2 st3 :
  frames P st1 st2 -> frames P st2 st3 -> frames P st1 st3.
Proof.
  intros H12 H23 r Hr Hsome. destruct (H12 r Hr Hsome) as [Ho Hd].
  destruct (H23 r Hr) as [Ho' Hd']; [by rewrite Ho|]. split; congruence.
Qed.

Lemma Draft_init_spec st :
  heap_ok st ->
  read_draft (Draft_init st).2 (Draft_init st).1 = Some Draft_new
  /\ (forall uid r, DRAFTS st !! uid = Some r -> r <> (Draft_init st).1)
  /\ (forall id t, tasks st !! id = Some t -> t_draft t <> (Draft_init st).1)
  /\ DRAFTS (Draft_init st).2 = DRAFTS st
  /\ sched_same st (Draft_init st).2
  /\ frames (fun _ => True) st (Draft_init st).2
  /\ heap_ok (Draft_init st).2.
Proof.
  intros H. destruct (alloc_draft_spec st "" [] H)
    as (E & Hread & _ & Hd & Ht & HD & Hs & Hf & _ & Hok).
  change (Draft_init st) with (new_obj (mkObj "" (next_loc st)) (new_list [] st).2).
  rewrite E. by split_and!.
Qed.

Lemma Draft_copy_spec st d :
  heap_ok st -> is_Some (objs st !! d) ->
  read_draft (Draft_copy d st).2 (Draft_copy d st).1 = read_draft st d
  /\ (forall uid r, DRAFTS st !! uid = Some r -> r <> (Draft_copy d st).1)
  /\ (forall id t, tasks st !! id = Some t -> t_draft t <> (Draft_copy d st).1)
  /\ DRAFTS (Draft_copy d st).2 = DRAFTS st
  /\ sched_same st (Draft_copy d st).2
  /\ frames (fun _ => True) st (Draft_copy d st).2
  /\ heap_ok (Draft_copy d st).2.
Proof.
  intros H Hd. destruct (heap_ok_read st d H Hd) as [D HD].
  unfold Draft_copy. rewrite HD.
  change (let '(m, st0) := new_list (media D) st in new_obj (mkObj (text D) m) st0)
    with (new_obj (mkObj (text D) (next_loc st)) (new_list (media D) st).2).
  destruct (alloc_draft_spec st (text D) (media D) H)
    as (E & Hread & _ & Hdr & Ht & HDR & Hs & Hf & _ & Hok).
  rewrite E. split_and!; try done. rewrite Hread. by destruct D.
Qed.

Lemma set_DRAFTS_heap_ok st uid ref :
  heap_ok st -> is_Some (objs st !! ref) ->
  (forall id t, tasks st !! id = Some t -> t_draft t <> ref) ->
  heap_ok (set_DRAFTS (<[uid := ref]> (DRAFTS st)) st).
Proof.
  intros H Href Ht. constructor; cbn.
  - apply (h_objs st H).
  - apply (h_inj st H).
  - intros u r. destruct (decide (uid = u)) as [->|Hne].
    + rewrite lookup_insert_eq. by intros [= <-].
    + rewrite lookup_insert_ne by done. apply (h_drafts st H).
  - intros id t Hid. destruct (h_tasks st H id t Hid) as [Ho Hd]. split; [done|].
    intros u r. destruct (decide (uid = u)) as [->|Hne].
    + rewrite lookup_insert_eq. intros [= <-]. apply not_eq_sym. by eapply Ht.
    + rewrite lookup_insert_ne by done. apply Hd.
Qed.

Lemma get_draft_spec st uid :
  heap_ok st ->
  DRAFTS (get_draft uid st).2 !! uid = Some (get_draft uid st).1
  /\ (forall u, u <> uid -> DRAFTS (get_draft uid st).2 !! u = DRAFTS st !! u)
  /\ shown (get_draft uid st).2 (get_draft uid st).1 = draft_of st uid
  /\ is_Some (objs (get_draft uid st).2 !! (get_draft uid st).1)
  /\ (forall id t, tasks st !! id = Some t -> t_draft t <> (get_draft uid st).1)
  /\ sched_same st (get_draft uid st).2
  /\ frames (fun _ => True) st (get_draft uid st).2
  /\ heap_ok (get_draft uid st).2.
Proof.
  intros H. unfold get_draft, draft_of. destruct (DRAFTS st !! uid) as [ref|] eqn:E.
  - cbn. rewrite E. split_and!; try done.
    + by apply (h_drafts st H uid).
    + intros id t Ht. destruct (h_tasks st H id t Ht) as [_ Hd].
      apply not_eq_sym. by eapply Hd.
  - destruct (Draft_init_spec st H) as (Hread & Hd & Ht & HD & Hs & Hf & Hok).
    destruct (Draft_init st) as [ref st1]. cbn in *.
    assert (Hsome : is_Some (objs st1 !! ref)).
    { unfold read_draft in Hread. destruct (objs st1 !! ref); [by eexists|done]. }
    rewrite lookup_insert_eq. split_and!; try done.
    + intros u Hu. by rewrite lookup_insert_ne, HD.
    + unfold shown, read_draft in *. cbn. by rewrite Hread.
    + apply set_DRAFTS_heap_ok; [done|done|].
      destruct Hs as (_ & Hts & _). rewrite Hts. done.
Qed.

Lemma add_media_ref_spec st d kind fid :
  heap_ok st -> is_Some (objs st !! d) ->
  read_draft (add_media_to_draft_ref d kind fid st) d
  = (fun x => add_media_to_draft x kind fid) <$> read_draft st d
  /\ DRAFTS (add_media_to_draft_ref d kind fid st) = DRAFTS st
  /\ sched_same st (add_media_to_draft_ref d kind fid st)
  /\ frames (fun r => r <> d) st (add_media_to_draft_ref d kind fid st)
  /\ (forall r, is_Some (objs st !! r) -> is_Some (objs (add_media_to_draft_ref d kind fid st) !! r))
  /\ heap_ok (add_media_to_draft_ref d kind fid st).
Proof.
  intros H [o Ho]. destruct (h_objs st H d o Ho) as (Hd & Hm & [l Hl]).
  unfold add_media_to_draft_ref. rewrite Ho. cbv beta iota. rewrite Hl. cbn.
  unfold new_list, set_heap. cbn.
  split_and!; try done.
  - unfold read_draft. cbn. rewrite lookup_insert_eq. cbn. rewrite lookup_insert_eq.
    by rewrite Ho, Hl.
  - intros r Hr [o' Ho']. unfold read_draft. cbn.
    rewrite lookup_insert_ne by done. split; [done|]. rewrite Ho'.
    destruct (h_objs st H r o' Ho') as (_ & Hm' & _).
    rewrite lookup_insert_ne by lia.
    rewrite lookup_insert_ne; [done|].
    intros Heq. apply Hr. symmetry. by apply (h_inj st H d r o o').
  - intros r [o' Ho']. destruct (decide (d = r)) as [E|Hne]; [subst r|].
    + rewrite lookup_insert_eq. by eexists.
    + rewrite lookup_insert_ne by done. by eexists.
  - constructor; cbn.
    + intros r o'. destruct (decide (d = r)) as [E|Hne]; [subst r|].
      * rewrite lookup_insert_eq. intros [= <-]. cbn. rewrite lookup_insert_eq.
        split_and!; (lia || by eexists).
      * rewrite lookup_insert_ne by done. intros Ho'.
        destruct (h_objs st H r o' Ho') as (? & ? & Hsome).
        rewrite lookup_insert_ne by lia. split_and!; try lia.
        destruct (decide (o_media o = o_media o')) as [->|Hne'].
        -- rewrite lookup_insert_eq. by eexists.
        -- by rewrite lookup_insert_ne.
    + intros r1 r2 o1 o2.
      destruct (decide (d = r1)) as [E1|Hne1]; [subst r1|];
        (destruct (decide (d = r2)) as [E2|Hne2]; [subst r2|]);
        rewrite ?lookup_insert_eq, ?lookup_insert_ne by done; try done.
      * intros [= <-] Ho2. cbn. apply (h_objs st H) in Ho2. lia.
      * intros Ho1 [= <-]. cbn. apply (h_objs st H) in Ho1. lia.
      * apply (h_inj st H).
    + intros uid r Hr. destruct (h_drafts st H uid r Hr) as [o' Ho'].
      destruct (decide (d = r)) as [E|Hne]; [subst r|].
      * rewrite lookup_insert_eq. by eexists.
      * rewrite lookup_insert_ne by done. by eexists.
    + intros id t Ht. destruct (h_tasks st H id t Ht) as [[o' Ho'] Hdr]. split; [|done].
      destruct (decide (d = t_draft t)) as [E|Hne]; [rewrite <- E|].
      * rewrite lookup_insert_eq. by eexists.
      * rewrite lookup_insert_ne by done. by eexists.
Qed.

Lemma set_text_spec st msg d :
  heap_ok st -> is_Some (objs st !! d) ->
  read_draft (set_text_from msg d st) d
  = (fun x => mkDraft (default (text x) (text_from msg)) (media x)) <$> read_draft st d
  /\ DRAFTS (set_text_from msg d st) = DRAFTS st
  /\ sched_same st (set_text_from msg d st)
  /\ frames (fun r => r <> d) st (set_text_from msg d st)
  /\ (forall r, is_Some (objs st !! r) -> is_Some (objs (set_text_from msg d st) !! r))
  /\ heap_ok (set_text_from msg d st).
Proof.
  intros H [o Ho]. destruct (h_objs st H d o Ho) as (Hd & Hm & [l Hl]).
  unfold set_text_from. rewrite Ho.
  destruct (text_from msg) as [t|]; cbn.
  2:{ split_and!; try done.
      rewrite (read_draft_Some st d o l) by done. done. }
  unfold set_heap. split_and!; try done.
  - unfold read_draft. cbn. rewrite lookup_insert_eq. cbn. by rewrite Ho, Hl.
  - intros r Hr [o' Ho']. unfold read_draft. cbn.
    by rewrite lookup_insert_ne by done.
  - intros r [o' Ho']. destruct (decide (d = r)) as [E|Hne]; [subst r|].
    + rewrite lookup_insert_eq. by eexists.
    + rewrite lookup_insert_ne by done. by eexists.
  - constructor; cbn.
    + intros r o'. destruct (decide (d = r)) as [E|Hne]; [subst r|].
      * rewrite lookup_insert_eq. intros [= <-]. cbn. split_and!; (lia || by eexists).
      * rewrite lookup_insert_ne by done. apply (h_objs st H).
    + intros r1 r2 o1 o2.
      destruct (decide (d = r1)) as [E1|Hne1]; [subst r1|];
        (destruct (decide (d = r2)) as [E2|Hne2]; [subst r2|]);
        rewrite ?lookup_insert_eq, ?lookup_insert_ne by done; try done.
      * intros [= <-] Ho2. cbn. intros Heq. by apply (h_inj st H d r2 o o2).
      * intros Ho1 [= <-]. cbn. intros Heq. by apply (h_inj st H r1 d o1 o).
      * apply (h_inj st H).
    + intros uid r Hr. destruct (h_drafts st H uid r Hr) as [o' Ho'].
      destruct (decide (d = r)) as [E|Hne]; [subst r|].
      * rewrite lookup_insert_eq. by eexists.
      * rewrite lookup_insert_ne by done. by eexists.
    + intros id tk Ht. destruct (h_tasks st H id tk Ht) as [[o' Ho'] Hdr]. split; [|done].
      destruct (decide (d = t_draft tk)) as [E|Hne]; [rewrite <- E|].
      * rewrite lookup_insert_eq. by eexists.
      * rewrite lookup_insert_ne by done. by eexists.
Qed.

(** *** The scheduler *)

Lemma evolves_refl st : evolves st st.
Proof. intros id t Ht. exists t. by split_and!. Qed.

Lemma evolves_trans st1 st2 st3 : evolves st1 st2 -> evolves st2 st3 -> evolves st1 st3.
Proof.
  intros H12 H23 id t Ht.
  destruct (H12 id t Ht) as (t2 & Ht2 & Hd & Hu & Hw & Hdone & Hr).
  destruct (H23 id t2 Ht2) as (t3 & Ht3 & Hd' & Hu' & Hw' & Hdone' & Hr').
  exists t3. split_and!; try congruence. tauto.
Qed.

Lemma heap_ok_same st st' :
  lists st' = lists st -> objs st' = objs st -> next_loc st' = next_loc st ->
  DRAFTS st' = DRAFTS st -> tasks st' = tasks st ->
  heap_ok st -> heap_ok st'.
Proof.
  intros Hl Ho Hn Hd Ht [H1 H2 H3 H4].
  constructor; rewrite ?Hl, ?Ho, ?Hn, ?Hd, ?Ht; done.
Qed.

Lemma sched_ok_fields st st' :
  SCHEDULES st' = SCHEDULES st -> tasks st' = tasks st -> next_task st' = next_task st ->
  sched_ok st -> sched_ok st'.
Proof. intros Hs Ht Hn [H1 H2 H3]. constructor; rewrite ?Hs, ?Ht, ?Hn; done. Qed.

Lemma sched_ok_same st st' : sched_same st st' -> sched_ok st -> sched_ok st'.
Proof. intros (Hs & Ht & Hn & _). by apply sched_ok_fields. Qed.

(** A change of the store that leaves alone the instances [DRAFTS] does not
    name keeps the state well formed and every job's draft as it was. *)
Lemma heap_phase st st' :
  wf st -> heap_ok st' -> sched_same st st' ->
  frames (fun r => forall uid, DRAFTS st !! uid <> Some r) st st' ->
  wf st' /\ evolves st st'.
Proof.
  intros [Hh Hs] Hh' Hsame Hf. split; [split; [done|by eapply sched_ok_same]|].
  intros id t Ht. destruct Hsame as (_ & Hts & _). exists t. rewrite Hts.
  split_and!; try done.
  destruct (h_tasks st Hh id t Ht) as [Ho Hd].
  apply Hf; [|done]. intros uid Hr. by apply (Hd uid (t_draft t)).
Qed.

Lemma say_phase st uid n : wf st -> wf (say uid n st) /\ evolves st (say uid n st).
Proof.
  intros [Hh Hs]. split; [split|].
  - by apply (heap_ok_same st).
  - by apply (sched_ok_fields st).
  - intros id t Ht. exists t. by split_and!.
Qed.

Lemma deliver_phase st c : wf st -> wf (deliver c st) /\ evolves st (deliver c st).
Proof.
  intros [Hh Hs]. split; [split|].
  - by apply (heap_ok_same st).
  - by apply (sched_ok_fields st).
  - intros id t Ht. exists t. by split_and!.
Qed.

Lemma cancel_task_lookup (id0 id : nat) (ts : gmap nat Task) :
  cancel_task id0 ts !! id
  = (fun t => if decide (id = id0) then (if task_done t then t else mark Cancelled t) else t)
    <$> ts !! id.
Proof.
  unfold cancel_task. destruct (decide (id = id0)) as [->|Hne].
  - destruct (ts !! id0) as [t|] eqn:E; [|by rewrite E].
    destruct (task_done t) eqn:Hd.
    + rewrite E. cbn. by rewrite Hd.
    + rewrite lookup_insert_eq. cbn. by rewrite Hd.
  - destruct (ts !! id0) as [t|] eqn:E.
    + destruct (task_done t); [by destruct (ts !! id)|].
      rewrite lookup_insert_ne by done. by destruct (ts !! id).
    + by destruct (ts !! id).
Qed.

Lemma cancel_job_lookup (sched : option ScheduledJob) (id : nat) (ts : gmap nat Task) :
  exists f : Task -> Task,
    cancel_job sched ts !! id = f <$> ts !! id
    /\ (forall t, f t = t \/ (task_done t = false /\ f t = mark Cancelled t
                             /\ exists j, sched = Some j /\ task j = id))
    /\ (forall t j, sched = Some j -> task j = id -> task_done (f t) = true).
Proof.
  destruct sched as [j|]; cbn.
  - eexists. split; [apply cancel_task_lookup|]. split.
    + intros t. destruct (decide (id = task j)) as [->|]; [|by left].
      destruct (task_done t) eqn:E; [by left|right]. split_and!; try done. by exists j.
    + intros t j' [= <-] Hj. rewrite decide_True by done.
      by destruct (task_done t) eqn:E.
  - exists (fun t => t). split; [by destruct (ts !! id)|]. split; [by left|done].
Qed.

Lemma cancel_job_back sched (ts : gmap nat Task) id t' :
  cancel_job sched ts !! id = Some t' ->
  exists t, ts !! id = Some t
    /\ t_draft t' = t_draft t /\ t_uid t' = t_uid t /\ t_when t' = t_when t
    /\ (t_state t' = Sleeping ->
        t_state t = Sleeping /\ forall j, sched = Some j -> task j <> id).
Proof.
  destruct (cancel_job_lookup sched id ts) as (f & -> & Hf & Hdone).
  destruct (ts !! id) as [t|] eqn:E; [|done]. cbn. intros [= <-]. exists t.
  split; [done|].
  destruct (Hf t) as [Heq|(Hnd & Heq & _)]; rewrite Heq.
  - split_and!; try done. intros Hs. split; [done|].
    intros j Hj Hid. specialize (Hdone t j Hj Hid).
    rewrite Heq in Hdone. unfold task_done in Hdone. by rewrite Hs in Hdone.
  - by split_and!.
Qed.

Lemma cancel_job_forth sched (ts : gmap nat Task) id t :
  ts !! id = Some t ->
  exists t', cancel_job sched ts !! id = Some t'
    /\ t_draft t' = t_draft t /\ t_uid t' = t_uid t /\ t_when t' = t_when t
    /\ (task_done t = true -> task_done t' = true).
Proof.
  intros Ht. destruct (cancel_job_lookup sched id ts) as (f & -> & Hf & _).
  rewrite Ht. cbn. eexists. split; [done|].
  destruct (Hf t) as [->|(_ & -> & _)]; by split_and!.
Qed.

Lemma set_jobs_heap_ok st js (ts : gmap nat Task) n :
  heap_ok st ->
  (forall id t, ts !! id = Some t ->
     is_Some (objs st !! t_draft t)
     /\ forall uid ref, DRAFTS st !! uid = Some ref -> ref <> t_draft t) ->
  heap_ok (set_jobs js ts n st).
Proof. intros [H1 H2 H3 H4] Hts. by constructor. Qed.

Lemma set_jobs_evolves st js (ts : gmap nat Task) n :
  (forall id t, tasks st !! id = Some t ->
     exists t', ts !! id = Some t'
       /\ t_draft t' = t_draft t /\ t_uid t' = t_uid t /\ t_when t' = t_when t
       /\ (task_done t = true -> task_done t' = true)) ->
  evolves st (set_jobs js ts n st).
Proof.
  intros H id t Ht. destruct (H id t Ht) as (t' & ? & ? & ? & ? & ?).
  exists t'. by split_and!.
Qed.

(** Removing the job of a user from the registry and cancelling its task. *)
Lemma retire_phase st uid :
  wf st ->
  wf (set_jobs (delete uid (SCHEDULES st)) (cancel_job (SCHEDULES st !! uid) (tasks st))
               (next_task st) st)
  /\ evolves st (set_jobs (delete uid (SCHEDULES st))
                          (cancel_job (SCHEDULES st !! uid) (tasks st)) (next_task st) st).
Proof.
  intros [Hh Hs]. split; [split|].
  - apply set_jobs_heap_ok; [done|]. intros id t' Ht'.
    destruct (cancel_job_back _ _ _ _ Ht') as (t & Ht & -> & _).
    by apply (h_tasks st Hh id).
  - constructor; cbn.
    + intros id t' Ht'. destruct (cancel_job_back _ _ _ _ Ht') as (t & Ht & _).
      by apply (s_tasks st Hs id t).
    + intros u j Hj. apply lookup_delete_Some in Hj as [_ Hj].
      destruct (s_registry st Hs u j Hj) as [t Ht].
      destruct (cancel_job_forth (SCHEDULES st !! uid) _ _ _ Ht) as (t' & -> & _).
      by eexists.
    + intros id t' Ht' Hsl.
      destruct (cancel_job_back _ _ _ _ Ht') as (t & Ht & _ & Hu & Hw & Hlive).
      destruct (Hlive Hsl) as [Hsl0 Hne]. rewrite Hu, Hw.
      pose proof (s_live st Hs id t Ht Hsl0) as Hreg.
      rewrite lookup_delete_ne; [done|]. intros ->.
      by apply (Hne _ Hreg).
  - apply set_jobs_evolves. intros id t Ht. by apply cancel_job_forth.
Qed.

(** A task that runs to its end, with or without leaving the registry. *)
Lemma finish_phase st id t (js : gmap Z ScheduledJob) :
  wf st -> tasks st !! id = Some t -> task_done t = false ->
  js = SCHEDULES st \/ js = delete (t_uid t) (SCHEDULES st) ->
  wf (set_jobs js (<[id := mark Finished t]> (tasks st)) (next_task st) st)
  /\ evolves st (set_jobs js (<[id := mark Finished t]> (tasks st)) (next_task st) st).
Proof.
  intros [Hh Hs] Ht Hnd Hjs.
  assert (Hsl : t_state t = Sleeping).
  { unfold task_done in Hnd. by destruct (t_state t). }
  split; [split|].
  - apply set_jobs_heap_ok; [done|]. intros id' t'.
    destruct (decide (id = id')) as [<-|Hne].
    + rewrite lookup_insert_eq. intros [= <-]. exact (h_tasks st Hh id t Ht).
    + rewrite lookup_insert_ne by done. apply (h_tasks st Hh).
  - constructor; cbn.
    + intros id' t'. destruct (decide (id = id')) as [<-|Hne].
      * rewrite lookup_insert_eq. intros _. by apply (s_tasks st Hs id t).
      * rewrite lookup_insert_ne by done. apply (s_tasks st Hs).
    + intros u j Hj.
      assert (Hj0 : SCHEDULES st !! u = Some j).
      { destruct Hjs as [->| ->]; [done|]. by apply lookup_delete_Some in Hj as [_ Hj]. }
      destruct (s_registry st Hs u j Hj0) as [t0 Ht0].
      destruct (decide (id = task j)) as [<-|Hne].
      * rewrite lookup_insert_eq. by eexists.
      * rewrite lookup_insert_ne by done. by eexists.
    + intros id' t'. destruct (decide (id = id')) as [<-|Hne].
      * rewrite lookup_insert_eq. by intros [= <-].
      * rewrite lookup_insert_ne by done. intros Ht' Hsl'.
        pose proof (s_live st Hs id' t' Ht' Hsl') as Hreg.
        destruct Hjs as [->| ->]; [done|].
        rewrite lookup_delete_ne; [done|]. intros Hu.
        pose proof (s_live st Hs id t Ht Hsl) as Hreg0.
        rewrite Hu, Hreg in Hreg0. by injection Hreg0 as _ ->.
  - apply set_jobs_evolves. intros id' t'.
    destruct (decide (id = id')) as [<-|Hne].
    + rewrite Ht. intros [= <-]. rewrite lookup_insert_eq. eexists. by split_and!.
    + intros Ht'. rewrite lookup_insert_ne by done. exists t'. by split_and!.
Qed.

(** Registering a new job for a user, after cancelling the one it had. *)
Lemma schedule_phase st uid w draft :
  wf st -> is_Some (objs st !! draft) ->
  (forall u r, DRAFTS st !! u = Some r -> r <> draft) ->
  wf (set_jobs (<[uid := mkJob w (next_task st)]> (SCHEDULES st))
        (<[next_task st := mkTask uid w draft Sleeping]>
           (cancel_job (SCHEDULES st !! uid) (tasks st)))
        (S (next_task st)) st)
  /\ evolves st
       (set_jobs (<[uid := mkJob w (next_task st)]> (SCHEDULES st))
          (<[next_task st := mkTask uid w draft Sleeping]>
             (cancel_job (SCHEDULES st !! uid) (tasks st)))
          (S (next_task st)) st).
Proof.
  intros [Hh Hs] Hdraft Hnot.
  assert (Hfresh : forall id t, tasks st !! id = Some t -> next_task st <> id).
  { intros id t Ht <-. apply (s_tasks st Hs) in Ht. lia. }
  split; [split|].
  - apply set_jobs_heap_ok; [done|]. intros id t'.
    destruct (decide (next_task st = id)) as [<-|Hne].
    + rewrite lookup_insert_eq. by intros [= <-].
    + rewrite lookup_insert_ne by done. intros Ht'.
      destruct (cancel_job_back _ _ _ _ Ht') as (t & Ht & -> & _).
      by apply (h_tasks st Hh id).
  - constructor; cbn.
    + intros id t'. destruct (decide (next_task st = id)) as [<-|Hne].
      * intros _. lia.
      * rewrite lookup_insert_ne by done. intros Ht'.
        destruct (cancel_job_back _ _ _ _ Ht') as (t & Ht & _).
        apply (s_tasks st Hs) in Ht. lia.
    + intros u j. destruct (decide (uid = u)) as [<-|Hne].
      * rewrite lookup_insert_eq. intros [= <-]. cbn. rewrite lookup_insert_eq. by eexists.
      * rewrite lookup_insert_ne by done. intros Hj.
        destruct (s_registry st Hs u j Hj) as [t0 Ht0].
        rewrite lookup_insert_ne by (by eapply Hfresh).
        destruct (cancel_job_forth (SCHEDULES st !! uid) _ _ _ Ht0) as (t' & -> & _).
        by eexists.
    + intros id t'. destruct (decide (next_task st = id)) as [<-|Hne].
      * rewrite lookup_insert_eq. intros [= <-] _. cbn. by rewrite lookup_insert_eq.
      * rewrite lookup_insert_ne by done. intros Ht' Hsl.
        destruct (cancel_job_back _ _ _ _ Ht') as (t & Ht & _ & Hu & Hw & Hlive).
        destruct (Hlive Hsl) as [Hsl0 Hne']. rewrite Hu, Hw.
        pose proof (s_live st Hs id t Ht Hsl0) as Hreg.
        rewrite lookup_insert_ne; [done|]. intros Heq. rewrite <- Heq in Hreg.
        by apply (Hne' _ Hreg).
  - apply set_jobs_evolves. intros id t Ht.
    rewrite lookup_insert_ne by (by eapply Hfresh).
    by apply cancel_job_forth.
Qed.

(** *** Handlers keep the state well formed *)

Lemma phase_trans st0 st1 st2 :
  wf st1 /\ evolves st0 st1 -> (wf st1 -> wf st2 /\ evolves st1 st2) ->
  wf st2 /\ evolves st0 st2.
Proof.
  intros [Hwf He] H. destruct (H Hwf) as [Hwf' He']. split; [done|].
  by eapply evolves_trans.
Qed.

Lemma get_draft_phase st uid :
  wf st -> wf (get_draft uid st).2 /\ evolves st (get_draft uid st).2.
Proof.
  intros Hwf. destruct (get_draft_spec st uid (proj1 Hwf)) as (_&_&_&_&_& Hs & Hf & Hok).
  apply heap_phase; try done. eapply frames_weaken; [|exact Hf]. done.
Qed.

Lemma add_media_phase st uid d kind fid :
  wf st -> DRAFTS st !! uid = Some d ->
  wf (add_media_to_draft_ref d kind fid st)
  /\ evolves st (add_media_to_draft_ref d kind fid st).
Proof.
  intros Hwf Hd. pose proof (h_drafts st (proj1 Hwf) uid d Hd) as Ho.
  destruct (add_media_ref_spec st d kind fid (proj1 Hwf) Ho) as (_&_& Hs & Hf &_& Hok).
  apply heap_phase; try done. eapply frames_weaken; [|exact Hf].
  intros r Hr ->. by apply (Hr uid).
Qed.

Lemma set_text_phase st uid msg d :
  wf st -> DRAFTS st !! uid = Some d ->
  wf (set_text_from msg d st) /\ evolves st (set_text_from msg d st).
Proof.
  intros Hwf Hd. pose proof (h_drafts st (proj1 Hwf) uid d Hd) as Ho.
  destruct (set_text_spec st msg d (proj1 Hwf) Ho) as (_&_& Hs & Hf &_& Hok).
  apply heap_phase; try done. eapply frames_weaken; [|exact Hf].
  intros r Hr ->. by apply (Hr uid).
Qed.

Lemma Draft_copy_phase st d :
  wf st -> is_Some (objs st !! d) ->
  wf (Draft_copy d st).2 /\ evolves st (Draft_copy d st).2.
Proof.
  intros Hwf Ho.
  destruct (Draft_copy_spec st d (proj1 Hwf) Ho) as (_&_&_&_& Hs & Hf & Hok).
  apply heap_phase; try done. eapply frames_weaken; [|exact Hf]. done.
Qed.

Lemma Draft_init_phase st :
  wf st -> wf (Draft_init st).2 /\ evolves st (Draft_init st).2.
Proof.
  intros Hwf.
  destruct (Draft_init_spec st (proj1 Hwf)) as (_&_&_&_& Hs & Hf & Hok).
  apply heap_phase; try done. eapply frames_weaken; [|exact Hf]. done.
Qed.

Lemma set_DRAFTS_phase st uid ref :
  wf st -> is_Some (objs st !! ref) ->
  (forall id t, tasks st !! id = Some t -> t_draft t <> ref) ->
  wf (set_DRAFTS (<[uid := ref]> (DRAFTS st)) st)
  /\ evolves st (set_DRAFTS (<[uid := ref]> (DRAFTS st)) st).
Proof.
  intros [Hh Hs] Ho Ht. split; [split|].
  - by apply set_DRAFTS_heap_ok.
  - by apply (sched_ok_fields st).
  - intros id t Hid. exists t. by split_and!.
Qed.

Lemma ensure_auth_phase st u :
  wf st -> wf (ensure_auth u st).2 /\ evolves st (ensure_auth u st).2.
Proof.
  intros Hwf. unfold ensure_auth. destruct u as [uid|]; cbn.
  - destruct (authorized uid); cbn; [|by apply say_phase].
    split; [done|apply evolves_refl].
  - split; [done|apply evolves_refl].
Qed.

Lemma ensure_auth_Some st u uid st' :
  ensure_auth u st = (Some uid, st') -> st' = st /\ u = Some uid /\ authorized uid = true.
Proof.
  unfold ensure_auth. destruct u as [v|]; [|done].
  destruct (authorized v) eqn:E; [|done]. by intros [= <- <-].
Qed.

Lemma ensure_auth_None st u st' :
  ensure_auth u st = (None, st') -> st' = (ensure_auth u st).2.
Proof. by intros ->. Qed.

Ltac auth_cases E :=
  match goal with
  | |- context [ensure_auth ?u ?st] =>
    let uid := fresh "uid" in let st0 := fresh "st0" in
    destruct (ensure_auth u st) as [[uid|] st0] eqn:E;
    [apply ensure_auth_Some in E as (-> & _ & E)
    |apply ensure_auth_None in E as ->; try (by apply ensure_auth_phase)]
  end.

Ltac with_draft uid st Hwf d st1 Hd Hwf1 :=
  let Eg := fresh "Eg" in
  let H := fresh "H" in
  destruct (get_draft uid st) as [d st1] eqn:Eg;
  pose proof (get_draft_spec st uid (proj1 Hwf)) as H; rewrite Eg in H;
  destruct H as (Hd & _ & _ & _ & _ & _ & _ & _); cbn [fst snd] in Hd;
  eapply phase_trans;
  [ let H' := fresh "H" in
    pose proof (get_draft_phase st uid Hwf) as H'; rewrite Eg in H'; exact H'
  | cbn [fst snd]; intros Hwf1 ].

Lemma cmd_start_phase st u : wf st -> wf (cmd_start u st) /\ evolves st (cmd_start u st).
Proof. intros Hwf. unfold cmd_start. auth_cases E. by apply say_phase. Qed.

Lemma cmd_whoami_phase st u : wf st -> wf (cmd_whoami u st) /\ evolves st (cmd_whoami u st).
Proof. intros Hwf. unfold cmd_whoami. auth_cases E. by apply say_phase. Qed.

Lemma cmd_when_phase st u : wf st -> wf (cmd_when u st) /\ evolves st (cmd_when u st).
Proof.
  intros Hwf. unfold cmd_when. auth_cases E.
  destruct (SCHEDULES st !! uid); by apply say_phase.
Qed.

Lemma on_text_phase st u msg :
  wf st -> wf (on_text u msg st) /\ evolves st (on_text u msg st).
Proof.
  intros Hwf. unfold on_text. auth_cases E.
  with_draft uid st Hwf d st1 Hd Hwf1.
  eapply phase_trans; [by eapply set_text_phase|]. apply say_phase.
Qed.

Lemma on_media_phase st kind u fid msg :
  wf st -> wf (on_media kind u fid msg st) /\ evolves st (on_media kind u fid msg st).
Proof.
  intros Hwf. unfold on_media. auth_cases E.
  with_draft uid st Hwf d st1 Hd Hwf1.
  eapply phase_trans; [by eapply add_media_phase|]. intros Hwf2.
  eapply phase_trans; [eapply set_text_phase; [done|]|apply say_phase].
  destruct (add_media_ref_spec st1 d kind fid (proj1 Hwf1)) as (_ & -> & _); [|exact Hd].
  by apply (h_drafts st1 (proj1 Hwf1) uid).
Qed.

Lemma cmd_cancel_timer_phase st u :
  wf st -> wf (cmd_cancel_timer u st) /\ evolves st (cmd_cancel_timer u st).
Proof.
  intros Hwf. unfold cmd_cancel_timer. auth_cases E. cbv zeta.
  destruct (job_live _ _); (eapply phase_trans; [by apply retire_phase|apply say_phase]).
Qed.

Lemma job_phase st id sent : wf st -> wf (job id sent st) /\ evolves st (job id sent st).
Proof.
  intros Hwf. unfold job. destruct (tasks st !! id) as [t|] eqn:Ht.
  2:{ split; [done|apply evolves_refl]. }
  destruct (task_done t) eqn:Hd; [split; [done|apply evolves_refl]|].
  destruct sent; cbv zeta.
  - set (st1 := deliver (publish_to_channel (shown st (t_draft t))) st).
    set (st2 := say (t_uid t) (PublishedByTimer (t_when t)) st1).
    apply (phase_trans st st1); [by apply deliver_phase|]. intros Hwf1.
    apply (phase_trans st1 st2); [by apply say_phase|]. intros Hwf2.
    apply (finish_phase st2 id t); try done. by right.
  - set (st1 := say (t_uid t) ScheduledPublishError st).
    apply (phase_trans st st1); [by apply say_phase|]. intros Hwf1.
    apply (finish_phase st1 id t); try done. by left.
Qed.

Lemma cmd_timer_phase st u args now :
  wf st -> wf (cmd_timer u args now st) /\ evolves st (cmd_timer u args now st).
Proof.
  intros Hwf. unfold cmd_timer. auth_cases E.
  destruct args as [|a args]; [by apply say_phase|].
  destruct (parse_when _ now) as [[w|]|]; [|by apply say_phase|by split; [|apply evolves_refl]].
  with_draft uid st Hwf d st1 Hd Hwf1.
  pose proof (h_drafts st1 (proj1 Hwf1) uid d Hd) as Ho.
  destruct (Draft_copy_spec st1 d (proj1 Hwf1) Ho) as (_ & Hnd & _ & HD & _ & _ & Hok2).
  pose proof (Draft_copy_phase st1 d Hwf1 Ho) as Hph.
  assert (Hnew : is_Some (objs (Draft_copy d st1).2 !! (Draft_copy d st1).1)).
  { destruct (Draft_copy_spec st1 d (proj1 Hwf1) Ho) as (Hr & _).
    destruct (heap_ok_read st1 d (proj1 Hwf1) Ho) as [D HDr]. rewrite HDr in Hr.
    by eapply read_draft_obj. }
  destruct (Draft_copy d st1) as [draft st2]. cbn [fst snd] in *.
  apply (phase_trans st1 st2); [done|]. intros Hwf2.
  destruct (is_empty (shown st2 draft)); [by apply say_phase|]. cbv zeta.
  eapply phase_trans; [|apply say_phase].
  apply schedule_phase; try done. intros u' r Hr. rewrite HD in Hr. by eapply Hnd.
Qed.

Lemma reset_phase st uid :
  wf st ->
  wf (set_DRAFTS (<[uid := (Draft_init st).1]> (DRAFTS (Draft_init st).2)) (Draft_init st).2)
  /\ evolves st
       (set_DRAFTS (<[uid := (Draft_init st).1]> (DRAFTS (Draft_init st).2)) (Draft_init st).2).
Proof.
  intros Hwf.
  destruct (Draft_init_spec st (proj1 Hwf)) as (Hread & _ & Ht & _ & Hs & _ & _).
  eapply phase_trans; [by apply Draft_init_phase|]. intros Hwf1.
  apply set_DRAFTS_phase; [done| |].
  - by eapply read_draft_obj.
  - destruct Hs as (_ & -> & _). done.
Qed.

Lemma on_cb_phase st uid data sent :
  wf st -> wf (on_cb uid data sent st) /\ evolves st (on_cb uid data sent st).
Proof.
  intros Hwf. unfold on_cb. destruct (negb (authorized uid)); [by apply say_phase|].
  with_draft uid st Hwf d st1 Hd Hwf1.
  destruct (data =? "noop")%string; [by apply say_phase|].
  destruct (data =? "prev")%string.
  { destruct (is_empty _); by apply say_phase. }
  destruct (data =? "pub")%string.
  { destruct (is_empty _); [by apply say_phase|].
    destruct sent; [|by apply say_phase].
    set (st2 := deliver (publish_to_channel (shown st1 d)) st1).
    set (st3 := say uid Published st2).
    apply (phase_trans st1 st2); [by apply deliver_phase|]. intros Hwf2.
    apply (phase_trans st2 st3); [by apply say_phase|]. intros Hwf3.
    pose proof (reset_phase st3 uid Hwf3) as Hreset.
    destruct (Draft_init st3) as [fresh st4]. cbn [fst snd] in *. cbv zeta.
    eapply phase_trans; [exact Hreset|]. intros Hwf5.
    by apply retire_phase. }
  destruct (data =? "clr")%string; [|by split; [|apply evolves_refl]].
  pose proof (reset_phase st1 uid Hwf1) as Hreset.
  destruct (Draft_init st1) as [fresh st2]. cbn [fst snd] in *. cbv zeta.
  eapply phase_trans; [exact Hreset|]. intros Hwf3.
  eapply phase_trans; [by apply say_phase|]. intros Hwf4.
  by apply retire_phase.
Qed.

(** Every step keeps the state well formed and the jobs' drafts as they
    were. *)
Lemma step_phase st ev : wf st -> wf (step ev st) /\ evolves st (step ev st).
Proof.
  destruct ev; cbn [step].
  - apply cmd_start_phase.
  - apply cmd_whoami_phase.
  - apply on_text_phase.
  - apply on_media_phase.
  - apply cmd_timer_phase.
  - apply cmd_cancel_timer_phase.
  - apply cmd_when_phase.
  - apply on_cb_phase.
  - apply job_phase.
Qed.

Lemma run_snoc evs ev st : run (evs ++ [ev]) st = step ev (run evs st).
Proof. unfold run. by rewrite fold_left_app. Qed.

Lemma run_phase evs : forall st, wf st -> wf (run evs st) /\ evolves st (run evs st).
Proof.
  induction evs as [|ev evs IH] using rev_ind; intros st Hwf.
  - split; [done|apply evolves_refl].
  - rewrite run_snoc. eapply phase_trans; [by apply IH|]. apply step_phase.
Qed.

Lemma wf_initial : wf initial.
Proof.
  split; constructor; cbn; intros; by rewrite ?lookup_empty in *.
Qed.

End Store.

(** *** What the handlers do to drafts, registry and channel *)

Section Handlers.

Implicit Types (st : state) (uid : Z) (id : nat).

Lemma ensure_auth_admin st uid :
  authorized uid = true -> ensure_auth (Some uid) st = (Some uid, st).
Proof. unfold ensure_auth. by intros ->. Qed.

Lemma shown_read st ref D : read_draft st ref = Some D -> shown st ref = D.
Proof. unfold shown. by intros ->. Qed.

(** After [get_draft] the user's draft reads as it did. *)
Lemma get_draft_read st uid :
  heap_ok st ->
  read_draft (get_draft uid st).2 (get_draft uid st).1 = Some (draft_of st uid).
Proof.
  intros H. destruct (get_draft_spec st uid H) as (_ & _ & Hshown & Ho & _ & _ & _ & Hok).
  destruct (heap_ok_read _ _ Hok Ho) as [D HD].
  rewrite HD. f_equal. rewrite <- Hshown. symmetry. by apply shown_read.
Qed.

Lemma job_done st id sent t :
  tasks st !! id = Some t -> task_done t = true -> job id sent st = st.
Proof. unfold job. by intros -> ->. Qed.

Lemma job_sent st id t :
  tasks st !! id = Some t -> task_done t = false ->
  channel (job id true st) = channel st ++ [publish_to_channel (shown st (t_draft t))]
  /\ SCHEDULES (job id true st) = delete (t_uid t) (SCHEDULES st)
  /\ outbox (job id true st) = outbox st ++ [(t_uid t, PublishedByTimer (t_when t))]
  /\ tasks (job id true st) = <[id := mark Finished t]> (tasks st).
Proof. unfold job. by intros -> ->. Qed.

Lemma job_failed st id t :
  tasks st !! id = Some t -> task_done t = false ->
  channel (job id false st) = channel st
  /\ SCHEDULES (job id false st) = SCHEDULES st
  /\ outbox (job id false st) = outbox st ++ [(t_uid t, ScheduledPublishError)]
  /\ tasks (job id false st) = <[id := mark Finished t]> (tasks st)
  /\ DRAFTS (job id false st) = DRAFTS st.
Proof. unfold job. by intros -> ->. Qed.

(** A job never touches the drafts of the store. *)
Lemma job_draft_of st id sent uid : draft_of (job id sent st) uid = draft_of st uid.
Proof.
  unfold job. destruct (tasks st !! id) as [t|]; [|done].
  destruct (task_done t); [done|]. by destruct sent.
Qed.

(** A task that is done stays done, whatever happens next, and its job
    publishes nothing. *)
Lemma done_forever st evs id t sent :
  wf st -> tasks st !! id = Some t -> task_done t = true ->
  step (Fire id sent) (run evs st) = run evs st.
Proof.
  intros Hwf Ht Hd. destruct (run_phase evs st Hwf) as [_ He].
  destruct (He id t Ht) as (t' & Ht' & _ & _ & _ & Hd' & _).
  cbn [step]. by apply (job_done _ _ _ t'); [|apply Hd'].
Qed.

Lemma payload_run st evs id :
  wf st -> is_Some (tasks st !! id) -> payload (run evs st) id = payload st id.
Proof.
  intros Hwf [t Ht]. destruct (run_phase evs st Hwf) as [_ He].
  destruct (He id t Ht) as (t' & Ht' & Hdr & _ & _ & _ & Hr).
  unfold payload. by rewrite Ht, Ht', Hdr.
Qed.

(** What a successful [/timer] does. *)
Lemma cmd_timer_schedules st uid args now w :
  wf st -> authorized uid = true -> args <> [] ->
  parse_when (join_args args) now = Ok (Some w) ->
  is_empty (draft_of st uid) = false ->
  exists draft,
    tasks (cmd_timer (Some uid) args now st)
    = <[next_task st := mkTask uid w draft Sleeping]>
        (cancel_job (SCHEDULES st !! uid) (tasks st))
    /\ SCHEDULES (cmd_timer (Some uid) args now st)
       = <[uid := mkJob w (next_task st)]> (SCHEDULES st)
    /\ read_draft (cmd_timer (Some uid) args now st) draft = Some (draft_of st uid)
    /\ channel (cmd_timer (Some uid) args now st) = channel st
    /\ draft_of (cmd_timer (Some uid) args now st) uid = draft_of st uid.
Proof.
  intros Hwf Hauth Hargs Hparse Hne. unfold cmd_timer.
  rewrite ensure_auth_admin by done. destruct args as [|a args]; [done|].
  rewrite Hparse.
  pose proof (get_draft_spec st uid (proj1 Hwf)) as (HD1 & _ & Hsh & Ho & _ & Hs1 & _ & Hok1).
  pose proof (get_draft_read st uid (proj1 Hwf)) as Hread1.
  destruct (get_draft uid st) as [d st1]. cbn [fst snd] in *.
  pose proof (Draft_copy_spec st1 d Hok1 Ho) as (Hread2 & _ & _ & HD2 & Hs2 & Hf2 & Hok2).
  destruct (Draft_copy d st1) as [draft st2]. cbn [fst snd] in *.
  rewrite Hread1 in Hread2. rewrite (shown_read _ _ _ Hread2), Hne. cbv zeta.
  destruct Hs1 as (Hj1 & Ht1 & Hn1 & Hc1 & _). destruct Hs2 as (Hj2 & Ht2 & Hn2 & Hc2 & _).
  exists draft. cbn. rewrite Hj2, Hj1, Ht2, Ht1, Hn2, Hn1, Hc2, Hc1.
  split_and!; try done.
  unfold draft_of. cbn. rewrite HD2, HD1.
  destruct (Hf2 d I Ho) as [_ Hrd]. unfold shown, read_draft in *. cbn.
  by rewrite Hrd, Hread1.
Qed.

(** The new [Draft()] bound to the user after a reset. *)
Lemma reset_read st uid :
  heap_ok st ->
  read_draft (set_DRAFTS (<[uid := (Draft_init st).1]> (DRAFTS (Draft_init st).2))
                         (Draft_init st).2) (Draft_init st).1
  = Some Draft_new.
Proof. intros H. by destruct (Draft_init_spec st H) as (Hread & _). Qed.

Lemma on_cb_pub_empty st uid sent :
  wf st -> authorized uid = true -> is_empty (draft_of st uid) = true ->
  on_cb uid "pub" sent st = say uid NothingToPublish (get_draft uid st).2.
Proof.
  intros Hwf Hauth He. unfold on_cb. rewrite Hauth. cbn [negb].
  pose proof (get_draft_read st uid (proj1 Hwf)) as Hread.
  destruct (get_draft uid st) as [d st1]. cbn [fst snd] in *.
  cbn. by rewrite (shown_read _ _ _ Hread), He.
Qed.

Lemma on_cb_pub_failed st uid :
  wf st -> authorized uid = true -> is_empty (draft_of st uid) = false ->
  on_cb uid "pub" false st = say uid PublishError (get_draft uid st).2.
Proof.
  intros Hwf Hauth He. unfold on_cb. rewrite Hauth. cbn [negb].
  pose proof (get_draft_read st uid (proj1 Hwf)) as Hread.
  destruct (get_draft uid st) as [d st1]. cbn [fst snd] in *.
  cbn. by rewrite (shown_read _ _ _ Hread), He.
Qed.

Lemma say_get_draft st uid n :
  heap_ok st ->
  draft_of (say uid n (get_draft uid st).2) uid = draft_of st uid
  /\ channel (say uid n (get_draft uid st).2) = channel st
  /\ SCHEDULES (say uid n (get_draft uid st).2) = SCHEDULES st
  /\ tasks (say uid n (get_draft uid st).2) = tasks st
  /\ outbox (say uid n (get_draft uid st).2) = outbox st ++ [(uid, n)].
Proof.
  intros H.
  pose proof (get_draft_spec st uid H) as (HD & _ & Hsh & _ & _ & Hs & _).
  destruct Hs as (Hj & Ht & _ & Hc & Ho). cbn. rewrite Hj, Ht, Hc, Ho.
  split_and!; try done. unfold draft_of in *. cbn. by rewrite HD.
Qed.

Lemma on_cb_pub_sent st uid :
  wf st -> authorized uid = true -> is_empty (draft_of st uid) = false ->
  channel (on_cb uid "pub" true st) = channel st ++ [publish_to_channel (draft_of st uid)]
  /\ draft_of (on_cb uid "pub" true st) uid = Draft_new
  /\ SCHEDULES (on_cb uid "pub" true st) = delete uid (SCHEDULES st)
  /\ tasks (on_cb uid "pub" true st) = cancel_job (SCHEDULES st !! uid) (tasks st)
  /\ outbox (on_cb uid "pub" true st) = outbox st ++ [(uid, Published)].
Proof.
  intros Hwf Hauth He. unfold on_cb. rewrite Hauth. cbn [negb].
  pose proof (get_draft_read st uid (proj1 Hwf)) as Hread.
  pose proof (get_draft_spec st uid (proj1 Hwf)) as (_ & _ & _ & _ & _ & Hs & _ & Hok1).
  destruct (get_draft uid st) as [d st1]. cbn [fst snd] in *.
  cbn [String.eqb Ascii.eqb Bool.eqb]. rewrite (shown_read _ _ _ Hread), He.
  set (st3 := say uid Published (deliver (publish_to_channel (draft_of st uid)) st1)).
  assert (Hok3 : heap_ok st3) by (by apply (heap_ok_same st1)).
  pose proof (reset_read st3 uid Hok3) as Hreset.
  pose proof (Draft_init_spec st3 Hok3) as (_ & _ & _ & HD & Hs4 & _).
  destruct (Draft_init st3) as [fresh st4]. cbn [fst snd] in *. cbv zeta.
  destruct Hs as (Hj & Ht & _ & Hc & Ho). destruct Hs4 as (Hj4 & Ht4 & _ & Hc4 & Ho4).
  cbn. rewrite Hj4, Ht4, Hc4, Ho4. cbn. rewrite Hj, Ht, Hc, Ho.
  split_and!; try done.
  unfold draft_of. cbn. rewrite lookup_insert_eq. by apply shown_read.
Qed.

Lemma on_cb_clr st uid sent :
  wf st -> authorized uid = true ->
  channel (on_cb uid "clr" sent st) = channel st
  /\ draft_of (on_cb uid "clr" sent st) uid = Draft_new
  /\ SCHEDULES (on_cb uid "clr" sent st) = delete uid (SCHEDULES st)
  /\ tasks (on_cb uid "clr" sent st) = cancel_job (SCHEDULES st !! uid) (tasks st)
  /\ outbox (on_cb uid "clr" sent st) = outbox st ++ [(uid, Cleared)].
Proof.
  intros Hwf Hauth. unfold on_cb. rewrite Hauth. cbn [negb].
  pose proof (get_draft_spec st uid (proj1 Hwf)) as (_ & _ & _ & _ & _ & Hs & _ & Hok1).
  destruct (get_draft uid st) as [d st1]. cbn [fst snd] in *.
  cbn [String.eqb Ascii.eqb Bool.eqb].
  pose proof (reset_read st1 uid Hok1) as Hreset.
  pose proof (Draft_init_spec st1 Hok1) as (_ & _ & _ & HD & Hs2 & _).
  destruct (Draft_init st1) as [fresh st2]. cbn [fst snd] in *. cbv zeta.
  destruct Hs as (Hj & Ht & _ & Hc & Ho). destruct Hs2 as (Hj2 & Ht2 & _ & Hc2 & Ho2).
  cbn. rewrite Hj2, Ht2, Hc2, Ho2, Hj, Ht, Hc, Ho.
  split_and!; try done.
  unfold draft_of. cbn. rewrite lookup_insert_eq. by apply shown_read.
Qed.

(** The job registered for a user, once retired, is done. *)
Lemma retired_done st uid j :
  sched_ok st -> SCHEDULES st !! uid = Some j ->
  exists t t', tasks st !! task j = Some t
    /\ cancel_job (SCHEDULES st !! uid) (tasks st) !! task j = Some t'
    /\ task_done t' = true
    /\ (t_state t = Sleeping -> t_state t' = Cancelled).
Proof.
  intros Hs Hj. destruct (s_registry st Hs uid j Hj) as [t Ht].
  destruct (cancel_job_lookup (SCHEDULES st !! uid) (task j) (tasks st))
    as (f & Hlook & Hf & Hdone).
  exists t, (f t). rewrite Hlook, Ht. split_and!; try done.
  - by apply (Hdone t j).
  - intros Hsl. destruct (Hf t) as [Heq|(_ & -> & _)]; [|done].
    specialize (Hdone t j Hj eq_refl). rewrite Heq in Hdone.
    unfold task_done in Hdone. by rewrite Hsl in Hdone.
Qed.

End Handlers.

(** *** Scheduling *)

(** C2. A successful [/timer] registers a job whose payload is the draft as
    it is at that call. Nothing that happens afterwards (edits of the draft,
    other commands, buttons, other jobs) changes that payload, and when the
    job fires it publishes exactly it. A job registered earlier for the same
    user is cancelled by the call and never publishes; the new job is the
    only one of the user that still waits. *)
Theorem schedule_snapshot (st : state) (uid : Z) (args : list string)
    (now w : datetime) :
  wf st -> authorized uid = true -> args <> [] ->
  parse_when (join_args args) now = Ok (Some w) ->
  is_empty (draft_of st uid) = false ->
  SCHEDULES (step (Timer (Some uid) args now) st) !! uid = Some (mkJob w (next_task st))
  /\ state_of_task (step (Timer (Some uid) args now) st) (next_task st) = Some Sleeping
  /\ (forall evs,
        payload (run evs (step (Timer (Some uid) args now) st)) (next_task st)
        = Some (draft_of st uid))
  /\ (forall evs,
        state_of_task (run evs (step (Timer (Some uid) args now) st)) (next_task st)
        = Some Sleeping ->
        channel (step (Fire (next_task st) true)
                      (run evs (step (Timer (Some uid) args now) st)))
        = channel (run evs (step (Timer (Some uid) args now) st))
          ++ [publish_to_channel (draft_of st uid)])
  /\ (forall j, SCHEDULES st !! uid = Some j ->
        state_of_task (step (Timer (Some uid) args now) st) (task j) <> Some Sleeping
        /\ (state_of_task st (task j) = Some Sleeping ->
            state_of_task (step (Timer (Some uid) args now) st) (task j) = Some Cancelled)
        /\ forall evs sent,
             step (Fire (task j) sent) (run evs (step (Timer (Some uid) args now) st))
             = run evs (step (Timer (Some uid) args now) st))
  /\ (forall id t, tasks (step (Timer (Some uid) args now) st) !! id = Some t ->
        t_uid t = uid -> t_state t = Sleeping -> id = next_task st).
Proof.
  intros Hwf Hauth Hargs Hparse Hne.
  destruct (step_phase st (Timer (Some uid) args now) Hwf) as [Hwf1 _].
  cbn [step] in *. set (st1 := cmd_timer (Some uid) args now st) in *.
  destruct (cmd_timer_schedules st uid args now w Hwf Hauth Hargs Hparse Hne)
    as (draft & Hts & Hjs & Hread & Hch & Hdr). fold st1 in Hts, Hjs, Hread, Hch, Hdr.
  assert (Hnew : tasks st1 !! next_task st = Some (mkTask uid w draft Sleeping)).
  { rewrite Hts. apply lookup_insert_eq. }
  assert (Hpay : forall evs, payload (run evs st1) (next_task st) = Some (draft_of st uid)).
  { intros evs. rewrite payload_run by (done || by eexists).
    unfold payload. by rewrite Hnew. }
  split_and!.
  - rewrite Hjs. apply lookup_insert_eq.
  - unfold state_of_task. by rewrite Hnew.
  - exact Hpay.
  - intros evs Hsl. specialize (Hpay evs). unfold payload, state_of_task in *.
    destruct (tasks (run evs st1) !! next_task st) as [t|] eqn:Ht; [|done].
    cbn in Hsl. injection Hsl as Hsl.
    destruct (job_sent (run evs st1) (next_task st) t Ht) as (-> & _).
    { unfold task_done. by rewrite Hsl. }
    by rewrite (shown_read _ _ _ Hpay).
  - intros j Hj.
    destruct (retired_done st uid j (proj2 Hwf) Hj) as (t & t' & Ht & Ht' & Hd & Hc).
    assert (Hold : tasks st1 !! task j = Some t').
    { rewrite Hts, lookup_insert_ne; [done|].
      intros Heq. pose proof (s_tasks st (proj2 Hwf) _ _ Ht). lia. }
    unfold state_of_task. rewrite Hold, Ht. cbn. split_and!.
    + intros [= Hsl]. unfold task_done in Hd. by rewrite Hsl in Hd.
    + intros [= Hsl]. f_equal. by apply Hc.
    + intros evs sent. by apply (done_forever st1 evs (task j) t').
  - intros id t Ht Hu Hsl.
    pose proof (s_live st1 (proj2 Hwf1) id t Ht Hsl) as Hreg.
    rewrite Hu, Hjs, lookup_insert_eq in Hreg. by injection Hreg as _ ->.
Qed.

Lemma schedule_snapshot_witness :
  payload (run [Text (Some ADMIN_USER_ID) edited;
                Media "photo" (Some ADMIN_USER_ID) "file-1" edited;
                Button ADMIN_USER_ID "clr" true]
               scheduled_hello) 0%nat
  = Some (mkDraft "hello" []).
Proof.
  assert (Hwf : wf (run [Text (Some ADMIN_USER_ID) hello] initial)).
  { apply run_phase, wf_initial. }
  refine (proj1 (proj2 (proj2
    (schedule_snapshot (run [Text (Some ADMIN_USER_ID) hello] initial) ADMIN_USER_ID
       ["in"; "5m"] new_year_evening in_five_minutes Hwf _ _ _ _))) _).
  - reflexivity.
  - discriminate.
  - vm_compute. reflexivity.
  - vm_compute. reflexivity.
Defined.

(** C3. A job whose publication fails stays in the registry. Evaluated on a
    run of the program: the operator writes a text and schedules it, and the
    call of [publish_to_channel] fails when the job fires. The failure is
    reported to the operator and nothing is retried, but [SCHEDULES] still
    holds the job, so that [/when] goes on announcing it; the same job, when
    its publication succeeds, leaves the registry. *)
Theorem failed_job_stays_registered :
  SCHEDULES (step (Fire 0%nat false) scheduled_hello) !! ADMIN_USER_ID
  = Some (mkJob in_five_minutes 0%nat)
  /\ state_of_task (step (Fire 0%nat false) scheduled_hello) 0%nat = Some Finished
  /\ channel (step (Fire 0%nat false) scheduled_hello) = []
  /\ last (outbox (step (Fire 0%nat false) scheduled_hello))
     = Some (ADMIN_USER_ID, ScheduledPublishError)
  /\ last (outbox (step (When (Some ADMIN_USER_ID))
                        (step (Fire 0%nat false) scheduled_hello)))
     = Some (ADMIN_USER_ID, PlannedFor in_five_minutes)
  /\ SCHEDULES (step (Fire 0%nat true) scheduled_hello) !! ADMIN_USER_ID = None.
Proof. split_and!; vm_compute; reflexivity. Qed.






(** *** Payload resolution *)

Section Resolution.

Implicit Types (d : Draft) (t : string).

Lemma pv_entries_filter (m : list (string * string)) :
  List.filter (fun '(k, _) => is_pv k) m = pv_entries m.
Proof. apply List.filter_ext. by intros [k f]. Qed.

Lemma pv_entries_Forall (m : list (string * string)) :
  Forall (fun e => entry_is_pv e = true) (pv_entries m).
Proof. apply Forall_forall. intros e He. by apply list_elem_of_In, filter_In in He as [_ He]. Qed.

(** The items after the first one carry neither caption nor parse mode. *)
Lemma album_tail t (l : list (string * string)) : forall n,
  Forall (fun e => entry_is_pv e = true) l ->
  map item_entry (imap (fun i e => media_item (S (n + i)) t e) l) = l
  /\ map item_caption (imap (fun i e => media_item (S (n + i)) t e) l)
     = replicate (length l) None
  /\ map item_parse_mode (imap (fun i e => media_item (S (n + i)) t e) l)
     = replicate (length l) None.
Proof.
  induction l as [|[k f] l IH]; intros n Hl; [done|].
  apply Forall_cons in Hl as [Hk Hl]. rewrite imap_cons. cbn [map length replicate].
  destruct (IH (S n) Hl) as (H1 & H2 & H3).
  assert (Hext : imap ((fun i e => media_item (S (n + i)) t e) ∘ S) l
                 = imap (fun i e => media_item (S (S n + i)) t e) l).
  { apply imap_ext. intros i e _. cbn. by replace (n + S i)%nat with (S (n + i)) by lia. }
  rewrite Hext, H1, H2, H3. unfold entry_is_pv, is_pv in Hk. cbn in Hk.
  unfold media_item. cbn.
  destruct (String.eqb_spec k "photo") as [->|Hp]; [done|].
  destruct (String.eqb_spec k "video") as [->|Hv]; [done|]. done.
Qed.

Lemma album_items d :
  (2 <= length (pv_entries (media d)))%nat ->
  exists items,
    draft_to_media_group d = Some items
    /\ publish_to_channel d = send_media_group TARGET_CHAT items
    /\ map item_entry items = pv_entries (media d)
    /\ map item_caption items
       = Some (text d) :: replicate (length (pv_entries (media d)) - 1) None
    /\ map item_parse_mode items
       = (if truthy (text d) then Some HTML else None)
         :: replicate (length (pv_entries (media d)) - 1) None.
Proof.
  intros Hlen. unfold publish_to_channel, draft_to_media_group. cbv zeta.
  rewrite pv_entries_filter. pose proof (pv_entries_Forall (media d)) as Hpv.
  destruct (pv_entries (media d)) as [|[k f] rest]; [cbn in Hlen; lia|].
  destruct (Nat.ltb_spec (length ((k, f) :: rest)) 2); [lia|].
  apply Forall_cons in Hpv as [Hk Hrest]. rewrite imap_cons.
  destruct (album_tail (text d) rest 0 Hrest) as (H1 & H2 & H3).
  eexists. split; [reflexivity|]. split; [reflexivity|].
  cbn [map length]. replace (S (length rest) - 1)%nat with (length rest) by lia.
  change (imap ((fun idx e => media_item idx (text d) e) ∘ S) rest)
    with (imap (fun i e => media_item (S (0 + i)) (text d) e) rest).
  rewrite H1, H2, H3. unfold entry_is_pv, is_pv in Hk. cbn in Hk.
  unfold media_item. cbn.
  destruct (String.eqb_spec k "photo") as [->|Hp]; [done|].
  destruct (String.eqb_spec k "video") as [->|Hv]; done.
Qed.

Lemma no_album d :
  (length (pv_entries (media d)) < 2)%nat -> draft_to_media_group d = None.
Proof.
  intros Hlen. unfold draft_to_media_group. cbv zeta. rewrite pv_entries_filter.
  by destruct (Nat.ltb_spec (length (pv_entries (media d))) 2); [|lia].
Qed.



Lemma cmd_timer_empty st uid args now w :
  wf st -> authorized uid = true -> args <> [] ->
  parse_when (join_args args) now = Ok (Some w) ->
  is_empty (draft_of st uid) = true ->
  channel (cmd_timer (Some uid) args now st) = channel st
  /\ SCHEDULES (cmd_timer (Some uid) args now st) = SCHEDULES st
  /\ tasks (cmd_timer (Some uid) args now st) = tasks st
  /\ outbox (cmd_timer (Some uid) args now st) = outbox st ++ [(uid, NothingToSchedule)].
Proof.
  intros Hwf Hauth Hargs Hparse He. unfold cmd_timer.
  rewrite ensure_auth_admin by done. destruct args as [|a args]; [done|].
  rewrite Hparse.
  pose proof (get_draft_spec st uid (proj1 Hwf)) as (_ & _ & _ & Ho & _ & Hs1 & _ & Hok1).
  pose proof (get_draft_read st uid (proj1 Hwf)) as Hread1.
  destruct (get_draft uid st) as [d st1]. cbn [fst snd] in *.
  pose proof (Draft_copy_spec st1 d Hok1 Ho) as (Hread2 & _ & _ & _ & Hs2 & _).
  destruct (Draft_copy d st1) as [draft st2]. cbn [fst snd] in *.
  rewrite Hread1 in Hread2. rewrite (shown_read _ _ _ Hread2), He.
  destruct Hs1 as (Hj1 & Ht1 & _ & Hc1 & Hob1). destruct Hs2 as (Hj2 & Ht2 & _ & Hc2 & Hob2).
  cbn. by rewrite Hj2, Hj1, Ht2, Ht1, Hc2, Hc1, Hob2, Hob1.
Qed.

End Resolution.



(** *** The drafts of the store

    What holds of the empty media list and is kept by [add_media_to_draft]
    holds of every draft the handlers ever build. *)

Section Drafts.

Variable P : list (string * string) -> Prop.
Hypothesis P_nil : P [].
Hypothesis P_add : forall m kind fid, P m -> P (add_media m kind fid).

Implicit Types (st : state) (uid : Z) (d : loc).

Lemma draft_of_same st st' :
  heap_ok st -> DRAFTS st' = DRAFTS st -> frames (fun _ => True) st st' ->
  forall u, draft_of st' u = draft_of st u.
Proof.
  intros H HD Hf u. unfold draft_of. rewrite HD.
  destruct (DRAFTS st !! u) as [r|] eqn:E; [|done].
  unfold shown. by destruct (Hf r I (h_drafts st H u r E)) as [_ ->].
Qed.

Lemma all_drafts_same st st' :
  (forall u, draft_of st' u = draft_of st u) -> all_drafts P st -> all_drafts P st'.
Proof. intros H Hall u. rewrite H. apply Hall. Qed.

Lemma get_draft_draft_of st uid :
  heap_ok st -> forall u, draft_of (get_draft uid st).2 u = draft_of st u.
Proof.
  intros H u. destruct (get_draft_spec st uid H) as (HD & Hother & Hsh & _ & _ & _ & Hf & _).
  destruct (decide (u = uid)) as [->|Hne].
  - unfold draft_of at 1. by rewrite HD.
  - unfold draft_of. rewrite Hother by done.
    destruct (DRAFTS st !! u) as [r|] eqn:E; [|done].
    unfold shown. by destruct (Hf r I (h_drafts st H u r E)) as [_ ->].
Qed.

Lemma add_media_all_drafts st d kind fid :
  heap_ok st -> is_Some (objs st !! d) ->
  all_drafts P st -> all_drafts P (add_media_to_draft_ref d kind fid st).
Proof.
  intros H Ho Hall u.
  destruct (add_media_ref_spec st d kind fid H Ho) as (Hread & HD & _ & Hf & _).
  specialize (Hall u). unfold draft_of in *. rewrite HD.
  destruct (DRAFTS st !! u) as [r|] eqn:E; [|done].
  unfold shown in *. destruct (decide (r = d)) as [->|Hne].
  - rewrite Hread. destruct (read_draft st d) as [D|]; cbn in *; [by apply P_add|done].
  - by destruct (Hf r Hne (h_drafts st H u r E)) as [_ ->].
Qed.

Lemma set_text_all_drafts st msg d :
  heap_ok st -> is_Some (objs st !! d) ->
  all_drafts P st -> all_drafts P (set_text_from msg d st).
Proof.
  intros H Ho Hall u.
  destruct (set_text_spec st msg d H Ho) as (Hread & HD & _ & Hf & _).
  specialize (Hall u). unfold draft_of in *. rewrite HD.
  destruct (DRAFTS st !! u) as [r|] eqn:E; [|done].
  unfold shown in *. destruct (decide (r = d)) as [->|Hne].
  - rewrite Hread. by destruct (read_draft st d) as [D|].
  - by destruct (Hf r Hne (h_drafts st H u r E)) as [_ ->].
Qed.

Lemma reset_all_drafts st uid :
  heap_ok st -> all_drafts P st ->
  all_drafts P (set_DRAFTS (<[uid := (Draft_init st).1]> (DRAFTS (Draft_init st).2))
                           (Draft_init st).2).
Proof.
  intros H Hall u. pose proof (reset_read st uid H) as Hreset.
  destruct (Draft_init_spec st H) as (_ & _ & _ & HD & _ & Hf & _).
  specialize (Hall u). unfold draft_of in *. cbn [DRAFTS set_DRAFTS].
  destruct (decide (uid = u)) as [->|Hne].
  - rewrite lookup_insert_eq. by rewrite (shown_read _ _ _ Hreset).
  - rewrite lookup_insert_ne, HD by done.
    destruct (DRAFTS st !! u) as [r|] eqn:E; [|done].
    unfold shown in *. change (read_draft (set_DRAFTS _ ?s) r) with (read_draft s r).
    by destruct (Hf r I (h_drafts st H u r E)) as [_ ->].
Qed.

Lemma all_drafts_fields st st' :
  lists st' = lists st -> objs st' = objs st -> DRAFTS st' = DRAFTS st ->
  all_drafts P st -> all_drafts P st'.
Proof.
  intros Hl Ho HD Hall u. specialize (Hall u).
  unfold draft_of, shown, read_draft in *. by rewrite Hl, Ho, HD.
Qed.

Lemma ensure_auth_all_drafts st u :
  all_drafts P st -> all_drafts P (ensure_auth u st).2.
Proof.
  intros Hall. unfold ensure_auth. destruct u as [uid|]; [|done].
  by destruct (authorized uid).
Qed.

Lemma on_text_all_drafts st u msg :
  wf st -> all_drafts P st -> all_drafts P (on_text u msg st).
Proof.
  intros Hwf Hall. unfold on_text.
  destruct (ensure_auth u st) as [[uid|] st0] eqn:E.
  2:{ apply ensure_auth_None in E as ->. by apply ensure_auth_all_drafts. }
  apply ensure_auth_Some in E as (-> & _ & _).
  pose proof (get_draft_spec st uid (proj1 Hwf)) as (_ & _ & _ & Ho & _ & _ & _ & Hok).
  pose proof (get_draft_draft_of st uid (proj1 Hwf)) as Hsame.
  destruct (get_draft uid st) as [d st1]. cbn [fst snd] in *.
  apply (all_drafts_fields (set_text_from msg d st1)); try done.
  apply set_text_all_drafts; try done. by apply (all_drafts_same st).
Qed.

Lemma on_media_all_drafts st kind u fid msg :
  wf st -> all_drafts P st -> all_drafts P (on_media kind u fid msg st).
Proof.
  intros Hwf Hall. unfold on_media.
  destruct (ensure_auth u st) as [[uid|] st0] eqn:E.
  2:{ apply ensure_auth_None in E as ->. by apply ensure_auth_all_drafts. }
  apply ensure_auth_Some in E as (-> & _ & _).
  pose proof (get_draft_spec st uid (proj1 Hwf)) as (_ & _ & _ & Ho & _ & _ & _ & Hok).
  pose proof (get_draft_draft_of st uid (proj1 Hwf)) as Hsame.
  destruct (get_draft uid st) as [d st1]. cbn [fst snd] in *.
  destruct (add_media_ref_spec st1 d kind fid Hok Ho) as (_ & _ & _ & _ & Hkeep & Hok2).
  apply (all_drafts_fields (set_text_from msg d (add_media_to_draft_ref d kind fid st1)));
    try done.
  apply set_text_all_drafts; [done|by apply Hkeep|].
  apply add_media_all_drafts; try done. by apply (all_drafts_same st).
Qed.

Lemma cmd_timer_all_drafts st u args now :
  wf st -> all_drafts P st -> all_drafts P (cmd_timer u args now st).
Proof.
  intros Hwf Hall. unfold cmd_timer.
  destruct (ensure_auth u st) as [[uid|] st0] eqn:E.
  2:{ apply ensure_auth_None in E as ->. by apply ensure_auth_all_drafts. }
  apply ensure_auth_Some in E as (-> & _ & _).
  destruct args as [|a args]; [done|].
  destruct (parse_when _ now) as [[w|]|]; [|done|done].
  pose proof (get_draft_spec st uid (proj1 Hwf)) as (_ & _ & _ & Ho & _ & _ & _ & Hok).
  pose proof (get_draft_draft_of st uid (proj1 Hwf)) as Hsame.
  destruct (get_draft uid st) as [d st1]. cbn [fst snd] in *.
  pose proof (Draft_copy_spec st1 d Hok Ho) as (_ & _ & _ & HD & _ & Hf & _).
  assert (Hall2 : all_drafts P (Draft_copy d st1).2).
  { apply (all_drafts_same st1); [by apply draft_of_same|].
    by apply (all_drafts_same st). }
  destruct (Draft_copy d st1) as [draft st2]. cbn [fst snd] in *.
  destruct (is_empty _); by apply (all_drafts_fields st2).
Qed.

Lemma on_cb_all_drafts st uid data sent :
  wf st -> all_drafts P st -> all_drafts P (on_cb uid data sent st).
Proof.
  intros Hwf Hall. unfold on_cb. destruct (negb (authorized uid)); [done|].
  pose proof (get_draft_spec st uid (proj1 Hwf)) as (_ & _ & _ & Ho & _ & _ & _ & Hok).
  pose proof (get_draft_draft_of st uid (proj1 Hwf)) as Hsame.
  destruct (get_draft uid st) as [d st1]. cbn [fst snd] in *.
  assert (Hall1 : all_drafts P st1) by (by apply (all_drafts_same st)).
  destruct (data =? "noop")%string; [done|].
  destruct (data =? "prev")%string; [by destruct (is_empty _)|].
  destruct (data =? "pub")%string.
  { destruct (is_empty _); [done|]. destruct sent; [|done].
    set (st3 := say uid Published (deliver (publish_to_channel (shown st1 d)) st1)).
    assert (Hok3 : heap_ok st3) by (by apply (heap_ok_same st1)).
    pose proof (reset_all_drafts st3 uid Hok3 Hall1) as Hreset.
    destruct (Draft_init st3) as [fresh st4]. cbn [fst snd] in *. cbv zeta.
    by eapply all_drafts_fields; [..|exact Hreset]. }
  destruct (data =? "clr")%string; [|done].
  pose proof (reset_all_drafts st1 uid Hok Hall1) as Hreset.
  destruct (Draft_init st1) as [fresh st2]. cbn [fst snd] in *. cbv zeta.
  by eapply all_drafts_fields; [..|exact Hreset].
Qed.

Lemma step_all_drafts st ev :
  wf st -> all_drafts P st -> all_drafts P (step ev st).
Proof.
  intros Hwf Hall. destruct ev; cbn [step].
  - unfold cmd_start. destruct (ensure_auth u st) as [[uid|] st0] eqn:E.
    + by apply ensure_auth_Some in E as (-> & _ & _).
    + apply ensure_auth_None in E as ->. by apply ensure_auth_all_drafts.
  - unfold cmd_whoami. destruct (ensure_auth u st) as [[uid|] st0] eqn:E.
    + by apply ensure_auth_Some in E as (-> & _ & _).
    + apply ensure_auth_None in E as ->. by apply ensure_auth_all_drafts.
  - by apply on_text_all_drafts.
  - by apply on_media_all_drafts.
  - by apply cmd_timer_all_drafts.
  - unfold cmd_cancel_timer. destruct (ensure_auth u st) as [[uid|] st0] eqn:E.
    + apply ensure_auth_Some in E as (-> & _ & _). cbv zeta. by destruct (job_live _ _).
    + apply ensure_auth_None in E as ->. by apply ensure_auth_all_drafts.
  - unfold cmd_when. destruct (ensure_auth u st) as [[uid|] st0] eqn:E.
    + apply ensure_auth_Some in E as (-> & _ & _). by destruct (SCHEDULES st !! uid).
    + apply ensure_auth_None in E as ->. by apply ensure_auth_all_drafts.
  - by apply on_cb_all_drafts.
  - intros u. rewrite job_draft_of. apply Hall.
Qed.

Lemma run_all_drafts evs : forall st,
  wf st -> all_drafts P st -> all_drafts P (run evs st).
Proof.
  induction evs as [|ev evs IH] using rev_ind; intros st Hwf Hall; [done|].
  rewrite run_snoc. apply step_all_drafts; [by apply run_phase|by apply IH].
Qed.

End Drafts.

(** Every draft the program ever holds satisfies the invariant of the data
    model: each single-slot kind at most once, at most ten photo/video
    entries. *)
Lemma drafts_media_ok (evs : list event) (uid : Z) :
  media_ok (media (draft_of (run evs initial) uid)).
Proof.
  apply (run_all_drafts media_ok); [| |apply wf_initial|].
  - split; [apply NoDup_nil_2|cbn; lia].
  - intros m kind fid [H1 H2]. split.
    + by apply singles_unique_add_media.
    + by apply album_bound_add_media.
  - intros u. unfold draft_of. cbn [initial DRAFTS]. rewrite lookup_empty.
    split; [apply NoDup_nil_2|cbn; lia].
Qed.

(** The media handlers change the user's draft as the function on values
    says: the media list by [add_media_to_draft], then the text by
    [set_text_from]. *)
Lemma on_media_draft (st : state) (kind : string) (uid : Z) (fid : string) (msg : Message) :
  wf st -> authorized uid = true ->
  draft_of (on_media kind (Some uid) fid msg st) uid
  = mkDraft (default (text (draft_of st uid)) (text_from msg))
            (media (add_media_to_draft (draft_of st uid) kind fid)).
Proof.
  intros Hwf Hauth. unfold on_media. rewrite ensure_auth_admin by done.
  pose proof (get_draft_spec st uid (proj1 Hwf)) as (HD & _ & _ & Ho & _ & _ & _ & Hok).
  pose proof (get_draft_read st uid (proj1 Hwf)) as Hread.
  destruct (get_draft uid st) as [d st1]. cbn [fst snd] in *.
  destruct (add_media_ref_spec st1 d kind fid Hok Ho) as (Hread2 & HD2 & _ & _ & Hkeep & Hok2).
  destruct (set_text_spec (add_media_to_draft_ref d kind fid st1) msg d Hok2 (Hkeep d Ho))
    as (Hread3 & HD3 & _).
  rewrite Hread in Hread2. rewrite Hread2 in Hread3. cbn in Hread3.
  unfold draft_of at 1. cbn [DRAFTS say]. rewrite HD3, HD2, HD.
  unfold shown. change (read_draft (say _ _ ?s) d) with (read_draft s d).
  by rewrite Hread3.
Qed.

(** *** Worked examples *)

Example album_three_photos :
  publish_to_channel (mkDraft "hello" [("photo", "a"); ("photo", "b"); ("photo", "c")])
  = send_media_group TARGET_CHAT
      [InputMediaPhoto "a" (Some "hello") (Some HTML);
       InputMediaPhoto "b" None None;
       InputMediaPhoto "c" None None].
Proof. reflexivity. Qed.

Example single_photo_without_text :
  publish_to_channel (mkDraft "" [("photo", "a")])
  = send_photo TARGET_CHAT "a" None (Some HTML).
Proof. reflexivity. Qed.

Example document_after_album :
  call_kind (publish_to_channel (mkDraft "" [("photo", "a"); ("document", "d")]))
  = Some "document".
Proof. reflexivity. Qed.

Example parse_when_huge_amount :
  parse_when "in 99999999999d" new_year_evening = Raise OverflowError.
Proof. vm_compute. reflexivity. Qed.

Example parse_when_last_day :
  parse_when "18:30" (mkDT 9999 12 31 20 0 0 0 LOCAL_TZ 0) = Raise OverflowError.
Proof. vm_compute. reflexivity. Qed.

Example cancel_without_timer :
  outbox (step (CancelTimer (Some ADMIN_USER_ID)) initial)
  = [(ADMIN_USER_ID, NoActiveTimer)]
  /\ SCHEDULES (step (CancelTimer (Some ADMIN_USER_ID)) initial) = SCHEDULES initial
  /\ tasks (step (CancelTimer (Some ADMIN_USER_ID)) initial) = tasks initial.
Proof. split_and!; vm_compute; reflexivity. Qed.

Example stranger_is_denied :
  step (Button 42 "clr" true) scheduled_hello = say 42 Denied scheduled_hello.
Proof. reflexivity. Qed.

(** *** Who may act *)

Lemma ensure_auth_stranger st uid :
  authorized uid = false -> ensure_auth (Some uid) st = (None, say uid Denied st).
Proof. intros H. unfold ensure_auth. by rewrite H. Qed.

Lemma stranger_step ev st uid :
  sender ev = Some uid -> authorized uid = false -> step ev st = say uid Denied st.
Proof.
  intros Hs Hauth.
  destruct ev; cbn in Hs; try discriminate; subst; cbn [step];
    unfold cmd_start, cmd_whoami, on_text, on_media, cmd_timer, cmd_cancel_timer,
           cmd_when, on_cb;
    try rewrite (ensure_auth_stranger _ _ Hauth); try done.
  injection Hs as ->. by rewrite Hauth.
Qed.

(** X1. An update that comes from anyone but the administrator is answered
    with the refusal and changes nothing else, whatever the update is; an
    update without a user changes nothing at all. *)
Theorem strangers_are_denied (ev : event) (st : state) :
  is_update ev = true ->
  (forall uid, sender ev = Some uid -> authorized uid = false ->
     step ev st = say uid Denied st)
  /\ (sender ev = None -> step ev st = st).
Proof.
  intros Hup. split.
  - intros uid Hs Hauth. by apply stranger_step.
  - intros Hs. destruct ev; cbn in Hs; try discriminate; subst; try done.
Qed.

Lemma strangers_are_denied_witness :
  step (Text (Some 1) hello) initial = say 1 Denied initial.
Proof.
  refine (proj1 (strangers_are_denied (Text (Some 1) hello) initial _) 1 _ _);
    reflexivity.
Defined.

(** *** Quiet steps *)

Lemma quiet_refl st : quiet st st.
Proof. done. Qed.

Lemma quiet_trans st1 st2 st3 : quiet st1 st2 -> quiet st2 st3 -> quiet st1 st3.
Proof.
  intros (A1 & A2 & A3 & A4) (B1 & B2 & B3 & B4).
  split_and!; congruence.
Qed.

Lemma sched_same_quiet st st' : sched_same st st' -> quiet st st'.
Proof. intros (? & ? & ? & ? & _). by split_and!. Qed.

Lemma say_quiet st uid n : quiet st (say uid n st).
Proof. done. Qed.

Lemma ensure_auth_quiet st u : quiet st (ensure_auth u st).2.
Proof. destruct u as [uid|]; cbn; [|done]. by destruct (authorized uid). Qed.

Lemma get_draft_quiet st uid : quiet st (get_draft uid st).2.
Proof. unfold get_draft. by destruct (DRAFTS st !! uid). Qed.

Lemma Draft_copy_quiet st d : quiet st (Draft_copy d st).2.
Proof. unfold Draft_copy. by destruct (read_draft st d). Qed.

Lemma add_media_quiet st d kind fid : quiet st (add_media_to_draft_ref d kind fid st).
Proof.
  unfold add_media_to_draft_ref. destruct (objs st !! d) as [o|]; [|done].
  by destruct (lists st !! o_media o).
Qed.

Lemma set_text_quiet st msg d : quiet st (set_text_from msg d st).
Proof.
  unfold set_text_from. destruct (text_from msg); [|done].
  by destruct (objs st !! d).
Qed.

Lemma cmd_start_quiet st u : quiet st (cmd_start u st).
Proof.
  unfold cmd_start. pose proof (ensure_auth_quiet st u) as H.
  destruct (ensure_auth u st) as [[uid|] st0]; cbn in H; [|done].
  eapply quiet_trans; [exact H|apply say_quiet].
Qed.

Lemma cmd_whoami_quiet st u : quiet st (cmd_whoami u st).
Proof.
  unfold cmd_whoami. pose proof (ensure_auth_quiet st u) as H.
  destruct (ensure_auth u st) as [[uid|] st0]; cbn in H; [|done].
  eapply quiet_trans; [exact H|apply say_quiet].
Qed.

Lemma cmd_when_quiet st u : quiet st (cmd_when u st).
Proof.
  unfold cmd_when. pose proof (ensure_auth_quiet st u) as H.
  destruct (ensure_auth u st) as [[uid|] st0]; cbn in H; [|done].
  eapply quiet_trans; [exact H|]. destruct (SCHEDULES st0 !! uid); apply say_quiet.
Qed.

Lemma on_text_quiet st u msg : quiet st (on_text u msg st).
Proof.
  unfold on_text. pose proof (ensure_auth_quiet st u) as H.
  destruct (ensure_auth u st) as [[uid|] st0]; cbn in H; [|done].
  eapply quiet_trans; [exact H|].
  pose proof (get_draft_quiet st0 uid) as H1.
  destruct (get_draft uid st0) as [d st1]; cbn in H1.
  eapply quiet_trans; [exact H1|].
  eapply quiet_trans; [apply set_text_quiet|apply say_quiet].
Qed.

Lemma on_media_quiet st kind u fid msg : quiet st (on_media kind u fid msg st).
Proof.
  unfold on_media. pose proof (ensure_auth_quiet st u) as H.
  destruct (ensure_auth u st) as [[uid|] st0]; cbn in H; [|done].
  eapply quiet_trans; [exact H|].
  pose proof (get_draft_quiet st0 uid) as H1.
  destruct (get_draft uid st0) as [d st1]; cbn in H1.
  eapply quiet_trans; [exact H1|].
  eapply quiet_trans; [apply add_media_quiet|].
  eapply quiet_trans; [apply set_text_quiet|apply say_quiet].
Qed.

(** *** The effect of one step on registry, tasks and channel *)

Lemma cmd_timer_cases st u args now :
  wf st ->
  quiet st (cmd_timer u args now st)
  \/ exists uid w, u = Some uid /\ authorized uid = true /\ args <> []
       /\ parse_when (join_args args) now = Ok (Some w)
       /\ is_empty (draft_of st uid) = false.
Proof.
  intros Hwf. destruct u as [uid|]; [|by left].
  destruct (authorized uid) eqn:Hauth.
  2:{ left. unfold cmd_timer. by rewrite ensure_auth_stranger. }
  destruct args as [|a args].
  { left. unfold cmd_timer. rewrite ensure_auth_admin by done. apply say_quiet. }
  destruct (parse_when (join_args (a :: args)) now) as [[w|]|e] eqn:Hparse.
  - destruct (is_empty (draft_of st uid)) eqn:He.
    + left. destruct (cmd_timer_empty st uid (a :: args) now w) as (? & ? & ? & _); try done.
      unfold quiet. split_and!; try done.
      unfold cmd_timer. rewrite ensure_auth_admin, Hparse by done.
      pose proof (get_draft_quiet st uid) as (_ & _ & Hn1 & _).
      pose proof (get_draft_spec st uid (proj1 Hwf)) as (_ & _ & _ & Ho & _ & _ & _ & Hok1).
      pose proof (get_draft_read st uid (proj1 Hwf)) as Hread1.
      destruct (get_draft uid st) as [d st1]. cbn [fst snd] in *.
      pose proof (Draft_copy_quiet st1 d) as (_ & _ & Hn2 & _).
      pose proof (Draft_copy_spec st1 d Hok1 Ho) as (Hread2 & _).
      destruct (Draft_copy d st1) as [draft st2]. cbn [fst snd] in *.
      rewrite Hread1 in Hread2. rewrite (shown_read _ _ _ Hread2), He. cbn. congruence.
    + right. by exists uid, w.
  - left. unfold cmd_timer. rewrite ensure_auth_admin, Hparse by done. apply say_quiet.
  - left. unfold cmd_timer. by rewrite ensure_auth_admin, Hparse by done.
Qed.

Lemma cmd_cancel_timer_admin st uid :
  authorized uid = true ->
  SCHEDULES (cmd_cancel_timer (Some uid) st) = delete uid (SCHEDULES st)
  /\ tasks (cmd_cancel_timer (Some uid) st) = cancel_job (SCHEDULES st !! uid) (tasks st)
  /\ next_task (cmd_cancel_timer (Some uid) st) = next_task st
  /\ channel (cmd_cancel_timer (Some uid) st) = channel st
  /\ DRAFTS (cmd_cancel_timer (Some uid) st) = DRAFTS st
  /\ objs (cmd_cancel_timer (Some uid) st) = objs st
  /\ lists (cmd_cancel_timer (Some uid) st) = lists st
  /\ outbox (cmd_cancel_timer (Some uid) st)
     = outbox st ++ [(uid, if job_live (SCHEDULES st !! uid) (tasks st)
                           then TimerCancelled else NoActiveTimer)].
Proof.
  intros Hauth. unfold cmd_cancel_timer. rewrite ensure_auth_admin by done.
  by destruct (job_live _ _).
Qed.

Lemma on_cb_cases st uid data sent :
  wf st ->
  quiet st (on_cb uid data sent st)
  \/ (data = "pub" /\ sent = true /\ authorized uid = true
      /\ is_empty (draft_of st uid) = false)
  \/ (data = "clr" /\ authorized uid = true).
Proof.
  intros Hwf. destruct (authorized uid) eqn:Hauth.
  2:{ left. unfold on_cb. rewrite Hauth. apply say_quiet. }
  destruct (String.eqb_spec data "pub") as [->|Hpub].
  { destruct (is_empty (draft_of st uid)) eqn:He.
    - left. rewrite on_cb_pub_empty by done.
      eapply quiet_trans; [apply get_draft_quiet|apply say_quiet].
    - destruct sent; [right; left; done|].
      left. rewrite on_cb_pub_failed by done.
      eapply quiet_trans; [apply get_draft_quiet|apply say_quiet]. }
  destruct (String.eqb_spec data "clr") as [->|Hclr]; [by right; right|].
  left. unfold on_cb. rewrite Hauth. cbn [negb].
  pose proof (get_draft_quiet st uid) as H1.
  destruct (get_draft uid st) as [d st1]. cbn [fst snd] in H1.
  destruct (data =? "noop")%string.
  { eapply quiet_trans; [exact H1|apply say_quiet]. }
  destruct (data =? "prev")%string.
  { eapply quiet_trans; [exact H1|]. destruct (is_empty _); apply say_quiet. }
  destruct (String.eqb_spec data "pub"); [done|].
  destruct (String.eqb_spec data "clr"); [done|]. done.
Qed.

Lemma job_cases st id sent :
  job id sent st = st
  \/ exists t, tasks st !! id = Some t /\ t_state t = Sleeping.
Proof.
  unfold job. destruct (tasks st !! id) as [t|] eqn:E; [|by left].
  unfold task_done. destruct (t_state t) eqn:Es; [right; by exists t|by left|by left].
Qed.

Lemma sleeping_not_done t : t_state t = Sleeping -> task_done t = false.
Proof. unfold task_done. by intros ->. Qed.

(** What a step does to the channel. *)
Lemma step_channel st ev :
  wf st ->
  channel (step ev st) = channel st
  \/ (exists uid, ev = Button uid "pub" true /\ authorized uid = true
        /\ is_empty (draft_of st uid) = false
        /\ channel (step ev st) = channel st ++ [publish_to_channel (draft_of st uid)])
  \/ (exists id t, ev = Fire id true /\ tasks st !! id = Some t /\ t_state t = Sleeping
        /\ channel (step ev st) = channel st ++ [publish_to_channel (shown st (t_draft t))]).
Proof.
  intros Hwf. destruct ev; cbn [step].
  - left. apply cmd_start_quiet.
  - left. apply cmd_whoami_quiet.
  - left. apply on_text_quiet.
  - left. apply on_media_quiet.
  - left. destruct (cmd_timer_cases st u args now Hwf) as [H|(uid & w & -> & ? & ? & ? & ?)].
    + apply H.
    + by destruct (cmd_timer_schedules st uid args now w) as (dr & _ & _ & _ & ? & _).
  - left. destruct u as [uid|]; [|done]. destruct (authorized uid) eqn:Hauth.
    + by destruct (cmd_cancel_timer_admin st uid Hauth) as (_ & _ & _ & ? & _).
    + unfold cmd_cancel_timer. by rewrite ensure_auth_stranger.
  - left. apply cmd_when_quiet.
  - destruct (on_cb_cases st uid data sent Hwf) as [H|[(-> & -> & Hauth & He)|(-> & Hauth)]].
    + left. apply H.
    + right. left. exists uid. split_and!; try done.
      by destruct (on_cb_pub_sent st uid Hwf Hauth He) as (? & _).
    + left. by destruct (on_cb_clr st uid sent Hwf Hauth) as (? & _).
  - destruct (job_cases st id sent) as [->|(t & Ht & Hs)]; [by left|].
    destruct sent.
    + right. right. exists id, t. split_and!; try done.
      by destruct (job_sent st id t Ht (sleeping_not_done t Hs)) as (? & _).
    + left. by destruct (job_failed st id t Ht (sleeping_not_done t Hs)) as (? & _).
Qed.

(** *** Where tasks come from *)

(** A task of the state after a step was there before, with the same
    closure, or the step is a [/timer] command that has just created it from
    the non-empty draft of its user. *)
Lemma step_tasks_back st ev id t' :
  wf st -> tasks (step ev st) !! id = Some t' ->
  (exists t, tasks st !! id = Some t /\ t_draft t' = t_draft t /\ t_uid t' = t_uid t
             /\ (t_state t' = Sleeping -> t_state t = Sleeping))
  \/ (exists uid, tasks st !! id = None /\ t_uid t' = uid /\ authorized uid = true
        /\ read_draft (step ev st) (t_draft t') = Some (draft_of st uid)
        /\ is_empty (draft_of st uid) = false).
Proof.
  intros Hwf Ht'.
  assert (Hsame : tasks (step ev st) = tasks st ->
            exists t, tasks st !! id = Some t /\ t_draft t' = t_draft t /\ t_uid t' = t_uid t
                      /\ (t_state t' = Sleeping -> t_state t = Sleeping)).
  { intros E. rewrite E in Ht'. by exists t'. }
  assert (Hretire : forall sched, tasks (step ev st) = cancel_job sched (tasks st) ->
            exists t, tasks st !! id = Some t /\ t_draft t' = t_draft t /\ t_uid t' = t_uid t
                      /\ (t_state t' = Sleeping -> t_state t = Sleeping)).
  { intros sched E. rewrite E in Ht'.
    destruct (cancel_job_back _ _ _ _ Ht') as (t & ? & ? & ? & ? & Hs).
    exists t. split_and!; try done. intros H'. by apply Hs. }
  destruct ev; cbn [step] in *.
  - left. apply Hsame, cmd_start_quiet.
  - left. apply Hsame, cmd_whoami_quiet.
  - left. apply Hsame, on_text_quiet.
  - left. apply Hsame, on_media_quiet.
  - destruct (cmd_timer_cases st u args now Hwf) as [H|(uid & w & -> & Hauth & ? & ? & He)].
    + left. apply Hsame, H.
    + destruct (cmd_timer_schedules st uid args now w) as (dr & Hts & _ & Hrd & _); try done.
      rewrite Hts in Ht'. destruct (decide (id = next_task st)) as [->|Hne].
      * rewrite lookup_insert_eq in Ht'. injection Ht' as <-. right. exists uid.
        split_and!; try done.
        destruct (tasks st !! next_task st) as [t|] eqn:E; [|done].
        apply (s_tasks st (proj2 Hwf)) in E. lia.
      * rewrite lookup_insert_ne in Ht' by done. left.
        destruct (cancel_job_back _ _ _ _ Ht') as (t & ? & ? & ? & ? & Hs).
        exists t. split_and!; try done. intros H'. by apply Hs.
  - left. destruct u as [uid|]; [|by apply Hsame]. destruct (authorized uid) eqn:Hauth.
    + destruct (cmd_cancel_timer_admin st uid Hauth) as (_ & Hts & _). by eapply Hretire.
    + apply Hsame. unfold cmd_cancel_timer. by rewrite ensure_auth_stranger.
  - left. apply Hsame, cmd_when_quiet.
  - left.
    destruct (on_cb_cases st uid data sent Hwf) as [H|[(-> & -> & Hauth & He)|(-> & Hauth)]].
    + apply Hsame, H.
    + destruct (on_cb_pub_sent st uid Hwf Hauth He) as (_ & _ & _ & Hts & _).
      by eapply Hretire.
    + destruct (on_cb_clr st uid sent Hwf Hauth) as (_ & _ & _ & Hts & _).
      by eapply Hretire.
  - left. destruct (job_cases st id0 sent) as [E|(t & Ht & Hs)].
    { apply Hsame. by rewrite E. }
    assert (Hts : tasks (job id0 sent st) = <[id0 := mark Finished t]> (tasks st)).
    { destruct sent.
      - by destruct (job_sent st id0 t Ht (sleeping_not_done t Hs)) as (_ & _ & _ & ?).
      - by destruct (job_failed st id0 t Ht (sleeping_not_done t Hs)) as (_ & _ & _ & ? & _). }
    rewrite Hts in Ht'. destruct (decide (id = id0)) as [->|Hne].
    + rewrite lookup_insert_eq in Ht'. injection Ht' as <-. by exists t.
    + rewrite lookup_insert_ne in Ht' by done. by exists t'.
Qed.

Lemma step_payloads st ev :
  wf st -> all_drafts media_ok st -> payloads postable st ->
  payloads postable (step ev st).
Proof.
  intros Hwf Hall Hpay id t' Ht'.
  destruct (step_tasks_back st ev id t' Hwf Ht')
    as [(t & Ht & Hd & _)|(uid & _ & _ & _ & Hrd & He)].
  - destruct (Hpay id t Ht) as (D & HD & HP). exists D. split; [|done].
    destruct (step_phase st ev Hwf) as [_ Hev].
    destruct (Hev id t Ht) as (t2 & _ & _ & _ & _ & _ & Hr). by rewrite Hd, Hr.
  - exists (draft_of st uid). split; [done|]. split; [done|apply Hall].
Qed.

Lemma step_posts st ev :
  wf st -> all_drafts media_ok st -> payloads postable st -> posts postable st ->
  posts postable (step ev st).
Proof.
  intros Hwf Hall Hpay Hposts c Hc.
  destruct (step_channel st ev Hwf)
    as [E|[(uid & _ & _ & He & E)|(id & t & _ & Ht & _ & E)]]; rewrite E in Hc.
  - by apply Hposts.
  - apply elem_of_app in Hc as [Hc|Hc]; [by apply Hposts|].
    apply list_elem_of_singleton in Hc as ->.
    exists (draft_of st uid). split; [done|]. split; [done|apply Hall].
  - apply elem_of_app in Hc as [Hc|Hc]; [by apply Hposts|].
    apply list_elem_of_singleton in Hc as ->.
    destruct (Hpay id t Ht) as (D & HD & HP). exists D.
    by rewrite (shown_read _ _ _ HD).
Qed.

(** The invariants of every state the program reaches. *)
Lemma reachable evs :
  wf (run evs initial) /\ all_drafts media_ok (run evs initial)
  /\ payloads postable (run evs initial) /\ posts postable (run evs initial).
Proof.
  induction evs as [|ev evs IH] using rev_ind.
  - split_and!.
    + apply wf_initial.
    + intros u. apply (drafts_media_ok [] u).
    + intros id t Ht. cbn in Ht. by rewrite lookup_empty in Ht.
    + intros c Hc. cbn in Hc. by apply elem_of_nil in Hc.
  - destruct IH as (Hwf & Hall & Hpay & Hposts). rewrite run_snoc. split_and!.
    + by apply step_phase.
    + intros u. rewrite <- run_snoc. apply drafts_media_ok.
    + by apply step_payloads.
    + by apply step_posts.
Qed.

Lemma publish_chat D : call_chat (publish_to_channel D) = TARGET_CHAT.
Proof.
  unfold publish_to_channel. destruct (draft_to_media_group D) as [[|i items]|];
    try done; destruct (last_entry (media D)) as [[k f]|]; try done;
    repeat (match goal with |- context [if ?b then _ else _] => destruct b end; try done).
Qed.

Lemma publish_album D ch items :
  publish_to_channel D = send_media_group ch items ->
  (2 <= length (pv_entries (media D)))%nat /\ length items = length (pv_entries (media D)).
Proof.
  intros E. destruct (Nat.lt_ge_cases (length (pv_entries (media D))) 2) as [Hlt|Hge].
  - exfalso. unfold publish_to_channel in E. rewrite no_album in E by done.
    destruct (last_entry (media D)) as [[k f]|]; try done.
    repeat (match type of E with context [if ?b then _ else _] => destruct b end; try done).
  - split; [done|]. destruct (album_items D Hge) as (items0 & _ & E0 & Hent & _).
    rewrite E0 in E. injection E as _ <-. by rewrite <- Hent, length_map.
Qed.

(** X2. Every call on the channel, in every state the program reaches, is
    addressed to the target chat and publishes a draft that was not empty
    and satisfied the invariant of the data model. *)
Theorem nothing_empty_is_published (evs : list event) (c : api_call) :
  c ∈ channel (run evs initial) ->
  call_chat c = TARGET_CHAT
  /\ exists D, c = publish_to_channel D /\ is_empty D = false /\ media_ok (media D).
Proof.
  intros Hc. destruct (reachable evs) as (_ & _ & _ & Hposts).
  destruct (Hposts c Hc) as (D & -> & He & Hm). split; [apply publish_chat|by exists D].
Qed.

Lemma nothing_empty_is_published_witness :
  call_chat (send_message TARGET_CHAT "hello" (Some HTML)) = TARGET_CHAT
  /\ exists D, send_message TARGET_CHAT "hello" (Some HTML) = publish_to_channel D
       /\ is_empty D = false /\ media_ok (media D).
Proof.
  apply (nothing_empty_is_published
           [Text (Some ADMIN_USER_ID) hello; Button ADMIN_USER_ID "pub" true]).
  vm_compute. apply list_elem_of_here.
Defined.

(** X3. An album sent to the channel has between two and ten items. *)
Theorem albums_have_two_to_ten_items (evs : list event) (ch : chat_id)
    (items : list InputMedia) :
  send_media_group ch items ∈ channel (run evs initial) ->
  ch = TARGET_CHAT /\ (2 <= length items <= 10)%nat.
Proof.
  intros Hc. destruct (reachable evs) as (_ & _ & _ & Hposts).
  destruct (Hposts _ Hc) as (D & E & He & _ & Hm). split.
  - pose proof (publish_chat D) as H. by rewrite <- E in H.
  - symmetry in E. apply publish_album in E as [H2 ->]. lia.
Qed.

Lemma albums_have_two_to_ten_items_witness :
  TARGET_CHAT = TARGET_CHAT
  /\ (2 <= length [InputMediaPhoto "a" (Some "hello") (Some HTML);
                   InputMediaVideo "b" None None] <= 10)%nat.
Proof.
  apply (albums_have_two_to_ten_items
           [Media "photo" (Some ADMIN_USER_ID) "a" hello;
            Media "video" (Some ADMIN_USER_ID) "b" (mkMessage None None None None);
            Button ADMIN_USER_ID "pub" true]
           TARGET_CHAT
           [InputMediaPhoto "a" (Some "hello") (Some HTML); InputMediaVideo "b" None None]).
  vm_compute. apply list_elem_of_here.
Defined.

(** X4. The channel changes only when a publication goes through. *)
Theorem channel_grows_only_by_publication (evs : list event) (ev : event) :
  channel (step ev (run evs initial)) = channel (run evs initial)
  \/ (exists uid, ev = Button uid "pub" true /\ authorized uid = true
        /\ is_empty (draft_of (run evs initial) uid) = false
        /\ channel (step ev (run evs initial))
           = channel (run evs initial)
             ++ [publish_to_channel (draft_of (run evs initial) uid)])
  \/ (exists id D, ev = Fire id true
        /\ state_of_task (run evs initial) id = Some Sleeping
        /\ payload (run evs initial) id = Some D
        /\ channel (step ev (run evs initial))
           = channel (run evs initial) ++ [publish_to_channel D]).
Proof.
  destruct (reachable evs) as (Hwf & _ & Hpay & _).
  destruct (step_channel (run evs initial) ev Hwf)
    as [E|[(uid & H)|(id & t & -> & Ht & Hs & E)]]; [by left|by right; left; exists uid|].
  right. right. destruct (Hpay id t Ht) as (D & HD & _). exists id, D.
  unfold state_of_task, payload. rewrite Ht. cbn [fmap option_fmap option_map]. rewrite Hs.
  split_and!; try done. by rewrite E, (shown_read _ _ _ HD).
Qed.

(** X5. In every state the program reaches a user has at most one task that
    still waits, and it is the one the registry holds for the user, with
    the time the task will publish at. *)
Theorem one_waiting_job_per_user (evs : list event) (id : nat) (t : Task) :
  tasks (run evs initial) !! id = Some t -> t_state t = Sleeping ->
  SCHEDULES (run evs initial) !! t_uid t = Some (mkJob (t_when t) id)
  /\ forall id' t', tasks (run evs initial) !! id' = Some t' -> t_state t' = Sleeping ->
       t_uid t' = t_uid t -> id' = id.
Proof.
  intros Ht Hs. destruct (reachable evs) as ((_ & Hsched) & _).
  pose proof (s_live _ Hsched id t Ht Hs) as Hj. split; [done|].
  intros id' t' Ht' Hs' Hu. pose proof (s_live _ Hsched id' t' Ht' Hs') as Hj'.
  rewrite Hu, Hj in Hj'. by injection Hj'.
Qed.

Lemma one_waiting_job_per_user_witness :
  SCHEDULES scheduled_hello !! ADMIN_USER_ID = Some (mkJob in_five_minutes 0%nat)
  /\ forall id' t', tasks scheduled_hello !! id' = Some t' -> t_state t' = Sleeping ->
       t_uid t' = ADMIN_USER_ID -> id' = 0%nat.
Proof.
  apply (one_waiting_job_per_user
           [Text (Some ADMIN_USER_ID) hello;
            Timer (Some ADMIN_USER_ID) ["in"; "5m"] new_year_evening]
           0%nat (mkTask ADMIN_USER_ID in_five_minutes 3%nat Sleeping)).
  - vm_compute. reflexivity.
  - reflexivity.
Defined.

(** *** Cancelling and asking *)

Lemma retire_spec st st' uid :
  wf st -> wf st' ->
  SCHEDULES st' = delete uid (SCHEDULES st) ->
  tasks st' = cancel_job (SCHEDULES st !! uid) (tasks st) ->
  timer_retired st st' uid.
Proof.
  intros Hwf Hwf' Hjs Hts. split; [rewrite Hjs; apply lookup_delete_eq|].
  intros j Hj.
  destruct (retired_done st uid j (proj2 Hwf) Hj) as (t & t' & Ht & Ht' & Hd & Hc).
  unfold state_of_task. rewrite Hts, Ht', Ht. cbn. split_and!.
  - intros [= Hsl]. unfold task_done in Hd. by rewrite Hsl in Hd.
  - intros [= Hsl]. f_equal. by apply Hc.
  - intros evs sent. apply (done_forever st' evs (task j) t'); [done| |done].
    by rewrite Hts.
Qed.

Lemma draft_of_ext st st' :
  DRAFTS st' = DRAFTS st -> objs st' = objs st -> lists st' = lists st ->
  forall u, draft_of st' u = draft_of st u.
Proof.
  intros HD Ho Hl u. unfold draft_of, shown, read_draft. by rewrite HD, Ho, Hl.
Qed.

Lemma job_live_spec st uid :
  job_live (SCHEDULES st !! uid) (tasks st) = true
  <-> exists j, SCHEDULES st !! uid = Some j /\ state_of_task st (task j) = Some Sleeping.
Proof.
  unfold job_live, state_of_task. destruct (SCHEDULES st !! uid) as [j|].
  - split.
    + intros H. exists j. split; [done|].
      destruct (tasks st !! task j) as [t|]; [|done]. cbn.
      unfold task_done in H. by destruct (t_state t).
    + intros (j' & [= <-] & H). destruct (tasks st !! task j) as [t|]; [|done].
      cbn in H. injection H as H. unfold task_done. by rewrite H.
  - split; [done|]. by intros (? & ? & _).
Qed.

Lemma cancel_without_job s uid :
  authorized uid = true -> SCHEDULES s !! uid = None ->
  cmd_cancel_timer (Some uid) s = say uid NoActiveTimer s.
Proof.
  intros Hauth Hnone. unfold cmd_cancel_timer. rewrite ensure_auth_admin by done.
  rewrite Hnone. cbn [job_live cancel_job]. rewrite delete_id by done.
  by destruct s.
Qed.

(** X6. [/cancel_timer] retires the timer of the user as the buttons do,
    and touches neither drafts nor channel; it answers that the timer is
    cancelled exactly when the registered task was still waiting, and
    otherwise (no job, or a job whose task is done) that there is no active
    timer; a second [/cancel_timer] finds none. *)
Theorem cancel_timer_retires (st : state) (uid : Z) :
  wf st -> authorized uid = true ->
  timer_retired st (step (CancelTimer (Some uid)) st) uid
  /\ (forall u, draft_of (step (CancelTimer (Some uid)) st) u = draft_of st u)
  /\ channel (step (CancelTimer (Some uid)) st) = channel st
  /\ outbox (step (CancelTimer (Some uid)) st)
     = outbox st ++ [(uid, if job_live (SCHEDULES st !! uid) (tasks st)
                           then TimerCancelled else NoActiveTimer)]
  /\ (job_live (SCHEDULES st !! uid) (tasks st) = true
      <-> exists j, SCHEDULES st !! uid = Some j
            /\ state_of_task st (task j) = Some Sleeping)
  /\ step (CancelTimer (Some uid)) (step (CancelTimer (Some uid)) st)
     = say uid NoActiveTimer (step (CancelTimer (Some uid)) st).
Proof.
  intros Hwf Hauth. destruct (step_phase st (CancelTimer (Some uid)) Hwf) as [Hwf' _].
  cbn [step] in *.
  destruct (cmd_cancel_timer_admin st uid Hauth) as (Hjs & Hts & _ & Hc & HD & Ho & Hl & Hout).
  split_and!; try done.
  - by apply retire_spec.
  - by apply draft_of_ext.
  - apply job_live_spec.
  - apply cancel_without_job; [done|]. rewrite Hjs. apply lookup_delete_eq.
Qed.

Lemma cancel_timer_retires_witness :
  state_of_task (step (CancelTimer (Some ADMIN_USER_ID)) scheduled_hello) 0%nat
  = Some Cancelled.
Proof.
  assert (Hwf : wf scheduled_hello) by apply run_phase, wf_initial.
  refine (proj1 (proj2 (proj2 (proj1
    (cancel_timer_retires scheduled_hello ADMIN_USER_ID Hwf _))
    (mkJob in_five_minutes 0%nat) _)) _).
  - reflexivity.
  - vm_compute. reflexivity.
  - vm_compute. reflexivity.
Defined.




(** X8. A job publishes at most once: when a task has been woken, whatever
    came of its publication, waking it again changes nothing, however many
    steps lie in between. *)
Theorem job_fires_at_most_once (st : state) (id : nat) (sent again : bool)
    (evs : list event) :
  wf st -> is_Some (tasks st !! id) ->
  step (Fire id again) (run evs (step (Fire id sent) st))
  = run evs (step (Fire id sent) st).
Proof.
  intros Hwf [t Ht]. destruct (step_phase st (Fire id sent) Hwf) as [Hwf' _].
  destruct (task_done t) eqn:Hd.
  - cbn [step]. rewrite (job_done st id sent t Ht Hd).
    by apply (done_forever st evs id t).
  - assert (Hts : tasks (step (Fire id sent) st) !! id = Some (mark Finished t)).
    { cbn [step]. destruct sent.
      - destruct (job_sent st id t Ht Hd) as (_ & _ & _ & ->). apply lookup_insert_eq.
      - destruct (job_failed st id t Ht Hd) as (_ & _ & _ & -> & _). apply lookup_insert_eq. }
    by apply (done_forever _ evs id (mark Finished t)).
Qed.

Lemma job_fires_at_most_once_witness :
  channel (run [Fire 0%nat true; Text (Some ADMIN_USER_ID) edited; Fire 0%nat true]
               scheduled_hello)
  = [send_message TARGET_CHAT "hello" (Some HTML)].
Proof.
  assert (Hwf : wf scheduled_hello) by apply run_phase, wf_initial.
  assert (Hsome : is_Some (tasks scheduled_hello !! 0%nat)).
  { vm_compute. by eexists. }
  change (run [Fire 0%nat true; Text (Some ADMIN_USER_ID) edited; Fire 0%nat true]
              scheduled_hello)
    with (step (Fire 0%nat true)
            (run [Text (Some ADMIN_USER_ID) edited] (step (Fire 0%nat true) scheduled_hello))).
  rewrite (job_fires_at_most_once scheduled_hello 0%nat true true
             [Text (Some ADMIN_USER_ID) edited] Hwf Hsome).
  vm_compute. reflexivity.
Defined.

(** *** [str.strip] *)

Lemma lstrip_stops s : stops is_space (lstrip s).
Proof.
  induction s as [|c s IH]; [done|]. cbn [lstrip].
  by destruct (is_space c) eqn:E.
Qed.

Lemma lstrip_fixed s : stops is_space s -> lstrip s = s.
Proof. destruct s as [|c s]; [done|]. cbn. by intros ->. Qed.

Lemma lstrip_spaces s : all_chars is_space s = true -> lstrip s = "".
Proof.
  induction s as [|c s IH]; [done|]. cbn. destruct (is_space c); [|done]. apply IH.
Qed.

Lemma rev_str_rev_str s : forall a b,
  rev_str b (rev_str a s) = rev_str (s ++ b)%string a.
Proof.
  induction s as [|c s IH]; intros a b; [done|].
  cbn [rev_str]. rewrite IH.
  by change (String c s ++ b)%string with (String c (s ++ b)%string).
Qed.

Lemma rev_str_involutive s : rev_str "" (rev_str "" s) = s.
Proof. rewrite rev_str_rev_str. cbn. apply append_empty_r. Qed.

(** The first character of a reversed string is the last one of the
    string, whatever it is reversed onto. *)
Lemma rev_str_head (p : ascii -> bool) s : forall a b,
  s <> "" -> stops p (rev_str a s) -> stops p (rev_str b s).
Proof.
  induction s as [|c s IH]; intros a b Hne; [done|].
  cbn [rev_str]. destruct s as [|d s]; [done|].
  by apply IH.
Qed.

Lemma rev_str_spaces s : forall a,
  all_chars is_space s = true -> all_chars is_space a = true ->
  all_chars is_space (rev_str a s) = true.
Proof.
  induction s as [|c s IH]; intros a Hs Ha; [done|].
  cbn in Hs. apply andb_prop in Hs as [Hc Hs]. cbn [rev_str]. apply IH; [done|].
  cbn. by rewrite Hc.
Qed.

Lemma rstrip_stops x :
  stops is_space (rev_str "" x) -> stops is_space (rev_str "" (lstrip x)).
Proof.
  induction x as [|c x IH]; [done|]. cbn [lstrip].
  destruct (is_space c) eqn:E; [|done]. intros H.
  destruct x as [|d x]; [done|]. apply IH.
  cbn [rev_str] in H. by apply (rev_str_head is_space (String d x) (String c "") "").
Qed.

Lemma strip_stops s :
  stops is_space (strip s) /\ stops is_space (rev_str "" (strip s)).
Proof.
  unfold strip. split.
  - apply rstrip_stops. rewrite rev_str_involutive. apply lstrip_stops.
  - rewrite rev_str_involutive. apply lstrip_stops.
Qed.

Lemma strip_idempotent s : strip (strip s) = strip s.
Proof.
  destruct (strip_stops s) as [H1 H2]. unfold strip at 1.
  by rewrite (lstrip_fixed _ H1), (lstrip_fixed _ H2), rev_str_involutive.
Qed.

Lemma strip_spaces s : all_chars is_space s = true -> strip s = "".
Proof. intros H. unfold strip. by rewrite (lstrip_spaces s H). Qed.

(** X9. The text [set_text_from] stores has no white space at either
    end: it is a fixed point of [strip], it neither starts nor ends with a
    character of [\s]; a text or caption of white space only stores the
    empty text. *)
Theorem stored_text_is_trimmed (msg : Message) (t : string) :
  text_from msg = Some t ->
  strip t = t
  /\ stops is_space t /\ stops is_space (rev_str "" t)
  /\ (forall s, msg_text msg = Some s -> truthy s = true -> msg_command msg = None ->
        all_chars is_space s = true -> t = "").
Proof.
  intros H.
  assert (Hs : exists s, t = strip s).
  { unfold text_from in H.
    destruct (msg_text msg) as [s|]; [destruct (truthy s); [injection H as <-; by eexists|]|];
      (destruct (msg_caption msg) as [c|]; [|done]);
      (destruct (truthy c); [|done]); injection H as <-; by eexists. }
  destruct Hs as [s ->]. split_and!.
  - apply strip_idempotent.
  - apply strip_stops.
  - apply strip_stops.
  - intros s' Ht Htr Hc Hsp. unfold text_from in H. rewrite Ht, Htr, Hc in H.
    cbn in H. injection H as <-. by apply strip_spaces.
Qed.

Lemma stored_text_is_trimmed_witness :
  strip "hi there" = "hi there"
  /\ stops is_space "hi there" /\ stops is_space (rev_str "" "hi there")
  /\ (forall s, Some "  hi there " = Some s -> truthy s = true -> @None (nat * nat) = None ->
        all_chars is_space s = true -> "hi there" = "").
Proof.
  apply (stored_text_is_trimmed (mkMessage (Some "  hi there ") None None None) "hi there").
  vm_compute. reflexivity.
Defined.

(** *** Messages that edit the draft *)

Lemma on_text_effect st uid msg :
  wf st -> authorized uid = true ->
  draft_of (on_text (Some uid) msg st) uid
  = mkDraft (default (text (draft_of st uid)) (text_from msg)) (media (draft_of st uid))
  /\ outbox (on_text (Some uid) msg st)
     = outbox st ++ [(uid, Summary (draft_of (on_text (Some uid) msg st) uid))].
Proof.
  intros Hwf Hauth.
  assert (Hd : forall n : notice, forall st3 d D,
            DRAFTS st3 !! uid = Some d -> read_draft st3 d = Some D ->
            draft_of (say uid n st3) uid = D).
  { intros n st3 d D HD Hr. unfold draft_of. cbn [DRAFTS say]. rewrite HD.
    unfold shown. change (read_draft (say _ _ ?s) d) with (read_draft s d). by rewrite Hr. }
  unfold on_text. rewrite ensure_auth_admin by done.
  pose proof (get_draft_spec st uid (proj1 Hwf)) as (HD & _ & _ & Ho & _ & Hs1 & _ & Hok).
  pose proof (get_draft_read st uid (proj1 Hwf)) as Hread.
  destruct (get_draft uid st) as [d st1]. cbn [fst snd] in *.
  destruct (set_text_spec st1 msg d Hok Ho) as (Hread3 & HD3 & Hs3 & _).
  rewrite Hread in Hread3. cbn in Hread3. rewrite <- HD3 in HD.
  rewrite (Hd _ _ _ _ HD Hread3). split; [done|].
  cbn [outbox say]. rewrite (shown_read _ _ _ Hread3).
  destruct Hs1 as (_ & _ & _ & _ & E1). destruct Hs3 as (_ & _ & _ & _ & E3).
  by rewrite E3, E1.
Qed.

Lemma on_media_effect st kind uid fid msg :
  wf st -> authorized uid = true ->
  draft_of (on_media kind (Some uid) fid msg st) uid
  = mkDraft (default (text (draft_of st uid)) (text_from msg))
            (add_media (media (draft_of st uid)) kind fid)
  /\ outbox (on_media kind (Some uid) fid msg st)
     = outbox st ++ [(uid, Summary (draft_of (on_media kind (Some uid) fid msg st) uid))].
Proof.
  intros Hwf Hauth. split; [by rewrite on_media_draft|].
  rewrite on_media_draft by done.
  unfold on_media. rewrite ensure_auth_admin by done.
  pose proof (get_draft_spec st uid (proj1 Hwf)) as (HD & _ & _ & Ho & _ & Hs1 & _ & Hok).
  pose proof (get_draft_read st uid (proj1 Hwf)) as Hread.
  destruct (get_draft uid st) as [d st1]. cbn [fst snd] in *.
  destruct (add_media_ref_spec st1 d kind fid Hok Ho) as (Hread2 & HD2 & Hs2 & _ & Hkeep & Hok2).
  destruct (set_text_spec (add_media_to_draft_ref d kind fid st1) msg d Hok2 (Hkeep d Ho))
    as (Hread3 & HD3 & Hs3 & _).
  rewrite Hread in Hread2. rewrite Hread2 in Hread3. cbn in Hread3.
  cbn [outbox say]. rewrite (shown_read _ _ _ Hread3).
  destruct Hs1 as (_ & _ & _ & _ & E1). destruct Hs2 as (_ & _ & _ & _ & E2).
  destruct Hs3 as (_ & _ & _ & _ & E3). by rewrite E3, E2, E1.
Qed.

(** X10. A text message of the operator replaces the text of the draft by
    the stripped text of the message and leaves the media list, the registry,
    the tasks and the channel as they are; the reply shows the draft as it
    now is. A message with neither text nor caption leaves the draft as it
    was. *)
Theorem text_message_sets_text (st : state) (uid : Z) (msg : Message) :
  wf st -> authorized uid = true ->
  draft_of (step (Text (Some uid) msg) st) uid
  = mkDraft (default (text (draft_of st uid)) (text_from msg)) (media (draft_of st uid))
  /\ outbox (step (Text (Some uid) msg) st)
     = outbox st ++ [(uid, Summary (draft_of (step (Text (Some uid) msg) st) uid))]
  /\ quiet st (step (Text (Some uid) msg) st)
  /\ (text_from msg = None -> draft_of (step (Text (Some uid) msg) st) uid = draft_of st uid).
Proof.
  intros Hwf Hauth. cbn [step].
  destruct (on_text_effect st uid msg Hwf Hauth) as [Hd Ho].
  split_and!; try done.
  - apply on_text_quiet.
  - intros Hn. rewrite Hd, Hn. cbn. by destruct (draft_of st uid).
Qed.

Lemma text_message_sets_text_witness :
  draft_of (step (Text (Some ADMIN_USER_ID) edited) scheduled_hello) ADMIN_USER_ID
  = mkDraft "edited" [].
Proof.
  assert (Hwf : wf scheduled_hello) by apply run_phase, wf_initial.
  refine (eq_trans (proj1
    (text_message_sets_text scheduled_hello ADMIN_USER_ID edited Hwf _)) _).
  - reflexivity.
  - vm_compute. reflexivity.
Defined.

(** X11. A media message of the operator passes the draft through
    [add_media_to_draft] with the kind of its handler and then sets the text
    from the caption, if there is one; registry, tasks and channel stay as
    they are, and the reply shows the draft as it now is. *)
Theorem media_message_updates_draft (st : state) (kind : string) (uid : Z)
    (fid : string) (msg : Message) :
  wf st -> authorized uid = true ->
  draft_of (step (Media kind (Some uid) fid msg) st) uid
  = mkDraft (default (text (draft_of st uid)) (text_from msg))
            (add_media (media (draft_of st uid)) kind fid)
  /\ outbox (step (Media kind (Some uid) fid msg) st)
     = outbox st
       ++ [(uid, Summary (draft_of (step (Media kind (Some uid) fid msg) st) uid))]
  /\ quiet st (step (Media kind (Some uid) fid msg) st)
  /\ is_empty (draft_of (step (Media kind (Some uid) fid msg) st) uid) = false.
Proof.
  intros Hwf Hauth. cbn [step].
  destruct (on_media_effect st kind uid fid msg Hwf Hauth) as [Hd Ho].
  split_and!; try done.
  - apply on_media_quiet.
  - rewrite Hd. unfold is_empty. cbn [media].
    pose proof (add_media_last (media (draft_of st uid)) kind fid) as Hl.
    destruct (add_media _ kind fid); [done|]. apply andb_false_r.
Qed.

Lemma media_message_updates_draft_witness :
  draft_of (step (Media "photo" (Some ADMIN_USER_ID) "file-1"
                        (mkMessage None None (Some " at sea ") None)) scheduled_hello)
           ADMIN_USER_ID
  = mkDraft "at sea" [("photo", "file-1")].
Proof.
  assert (Hwf : wf scheduled_hello) by apply run_phase, wf_initial.
  refine (eq_trans (proj1
    (media_message_updates_draft scheduled_hello "photo" ADMIN_USER_ID "file-1"
       (mkMessage None None (Some " at sea ") None) Hwf _)) _).
  - reflexivity.
  - vm_compute. reflexivity.
Defined.

(** *** [get_draft] *)

(** X12. [get_draft] on a user without a draft stores a new empty [Draft],
    an object that neither another user nor a task refers to; on a user with
    a draft it returns the stored object and changes nothing. In both cases
    no draft reads differently afterwards, the other entries of [DRAFTS] are
    untouched, and a second call returns the same object and changes
    nothing. *)
Theorem get_draft_creates_once (st : state) (uid : Z) :
  heap_ok st ->
  DRAFTS (get_draft uid st).2 !! uid = Some (get_draft uid st).1
  /\ read_draft (get_draft uid st).2 (get_draft uid st).1 = Some (draft_of st uid)
  /\ (DRAFTS st !! uid = None ->
      read_draft (get_draft uid st).2 (get_draft uid st).1 = Some Draft_new
      /\ objs st !! (get_draft uid st).1 = None
      /\ forall u r, DRAFTS st !! u = Some r -> r <> (get_draft uid st).1)
  /\ (forall ref, DRAFTS st !! uid = Some ref -> get_draft uid st = (ref, st))
  /\ (forall u, draft_of (get_draft uid st).2 u = draft_of st u)
  /\ (forall u, u <> uid -> DRAFTS (get_draft uid st).2 !! u = DRAFTS st !! u)
  /\ (forall id t, tasks st !! id = Some t -> t_draft t <> (get_draft uid st).1)
  /\ get_draft uid (get_draft uid st).2 = get_draft uid st.
Proof.
  intros Hok.
  destruct (get_draft_spec st uid Hok) as (HD & Hother & _ & _ & Htasks & _ & _ & _).
  split_and!; try done.
  - by apply get_draft_read.
  - intros Hnone. pose proof (get_draft_read st uid Hok) as Hr.
    unfold draft_of in Hr. rewrite Hnone in Hr. split; [done|].
    unfold get_draft. rewrite Hnone.
    destruct (alloc_draft_spec st "" [] Hok) as (_ & _ & Hfresh & Hd & _).
    cbn. split; [done|]. intros u r Hu. by apply (Hd u r).
  - intros ref Href. unfold get_draft. by rewrite Href.
  - by apply get_draft_draft_of.
  - unfold get_draft at 1. rewrite HD. by destruct (get_draft uid st).
Qed.

Lemma get_draft_creates_once_witness :
  DRAFTS (get_draft 7 initial).2 !! 7 = Some (get_draft 7 initial).1.
Proof.
  assert (Hok : heap_ok initial) by apply wf_initial.
  exact (proj1 (get_draft_creates_once initial 7 Hok)).
Defined.

(** *** Whose state the program keeps *)

Lemma get_draft_DRAFTS st uid u :
  u <> uid -> DRAFTS (get_draft uid st).2 !! u = DRAFTS st !! u.
Proof.
  intros Hne. unfold get_draft. destruct (DRAFTS st !! uid); [done|].
  cbn. by rewrite lookup_insert_ne.
Qed.

Lemma Draft_copy_DRAFTS st d : DRAFTS (Draft_copy d st).2 = DRAFTS st.
Proof. unfold Draft_copy. by destruct (read_draft st d). Qed.

Lemma add_media_DRAFTS st d kind fid : DRAFTS (add_media_to_draft_ref d kind fid st) = DRAFTS st.
Proof.
  unfold add_media_to_draft_ref. destruct (objs st !! d) as [o|]; [|done].
  by destruct (lists st !! o_media o).
Qed.

Lemma set_text_DRAFTS st msg d : DRAFTS (set_text_from msg d st) = DRAFTS st.
Proof.
  unfold set_text_from. destruct (text_from msg); [|done].
  by destruct (objs st !! d).
Qed.

Lemma job_DRAFTS st id sent : DRAFTS (job id sent st) = DRAFTS st.
Proof.
  unfold job. destruct (tasks st !! id) as [t|]; [|done].
  destruct (task_done t); [done|]. by destruct sent.
Qed.

(** A step leaves the entries of [DRAFTS] of the users it does not come
    from as they are. *)
Lemma step_DRAFTS st ev u :
  sender ev <> Some u -> DRAFTS (step ev st) !! u = DRAFTS st !! u.
Proof.
  intros Hs.
  assert (Hauth : forall v, (ensure_auth (sender ev) st).1 = Some v -> u <> v).
  { intros v E Hv. subst v. apply Hs. unfold ensure_auth in E.
    destruct (sender ev) as [w|]; [|done]. destruct (authorized w); [|done].
    cbn in E. congruence. }
  assert (Hsame : DRAFTS (ensure_auth (sender ev) st).2 = DRAFTS st).
  { unfold ensure_auth. destruct (sender ev) as [w|]; [|done]. by destruct (authorized w). }
  destruct ev; cbn [step sender] in *.
  - unfold cmd_start. destruct (ensure_auth u0 st) as [[v|] st0]; cbn in *; by rewrite <- Hsame.
  - unfold cmd_whoami. destruct (ensure_auth u0 st) as [[v|] st0]; cbn in *; by rewrite <- Hsame.
  - unfold on_text. destruct (ensure_auth u0 st) as [[v|] st0]; cbn in *; [|by rewrite Hsame].
    pose proof (get_draft_DRAFTS st0 v u (Hauth v eq_refl)) as H1.
    destruct (get_draft v st0) as [d st1]. cbn [fst snd] in H1. cbn [DRAFTS say].
    by rewrite set_text_DRAFTS, H1, Hsame.
  - unfold on_media. destruct (ensure_auth u0 st) as [[v|] st0]; cbn in *; [|by rewrite Hsame].
    pose proof (get_draft_DRAFTS st0 v u (Hauth v eq_refl)) as H1.
    destruct (get_draft v st0) as [d st1]. cbn [fst snd] in H1. cbn [DRAFTS say].
    by rewrite set_text_DRAFTS, add_media_DRAFTS, H1, Hsame.
  - unfold cmd_timer. destruct (ensure_auth u0 st) as [[v|] st0]; cbn in *; [|by rewrite Hsame].
    destruct args as [|a args]; [by rewrite <- Hsame|].
    destruct (parse_when _ now) as [[w|]|e]; [|by rewrite <- Hsame|by rewrite <- Hsame].
    pose proof (get_draft_DRAFTS st0 v u (Hauth v eq_refl)) as H1.
    destruct (get_draft v st0) as [d st1]. cbn [fst snd] in H1.
    pose proof (Draft_copy_DRAFTS st1 d) as H2.
    destruct (Draft_copy d st1) as [dr st2]. cbn [fst snd] in H2.
    destruct (is_empty _); cbn [DRAFTS say set_jobs]; by rewrite H2, H1, Hsame.
  - unfold cmd_cancel_timer.
    destruct (ensure_auth u0 st) as [[v|] st0]; cbn in *; [|by rewrite Hsame].
    destruct (job_live _ _); cbn [DRAFTS say set_jobs]; by rewrite Hsame.
  - unfold cmd_when. destruct (ensure_auth u0 st) as [[v|] st0]; cbn in *; [|by rewrite Hsame].
    destruct (SCHEDULES st0 !! v); cbn [DRAFTS say]; by rewrite Hsame.
  - assert (Hne : u <> uid) by congruence.
    unfold on_cb. destruct (negb (authorized uid)); [done|].
    pose proof (get_draft_DRAFTS st uid u Hne) as H1.
    destruct (get_draft uid st) as [d st1]. cbn [fst snd] in H1.
    destruct (data =? "noop")%string; [done|].
    destruct (data =? "prev")%string; [by destruct (is_empty _)|].
    destruct (data =? "pub")%string.
    { destruct (is_empty _); [done|]. destruct sent; [|done].
      cbn. by rewrite lookup_insert_ne. }
    destruct (data =? "clr")%string; [|done].
    cbn. by rewrite lookup_insert_ne.
  - by rewrite job_DRAFTS.
Qed.

Lemma step_SCHEDULES_stranger st ev u :
  wf st -> authorized u = false -> SCHEDULES st !! u = None ->
  SCHEDULES (step ev st) !! u = None.
Proof.
  intros Hwf Hu Hnone.
  assert (Hq : quiet st (step ev st) -> SCHEDULES (step ev st) !! u = None).
  { intros (-> & _). done. }
  assert (Hdel : forall k, SCHEDULES (step ev st) = delete k (SCHEDULES st) ->
            SCHEDULES (step ev st) !! u = None).
  { intros k ->. apply lookup_delete_None. by right. }
  destruct ev; cbn [step] in *.
  - apply Hq, cmd_start_quiet.
  - apply Hq, cmd_whoami_quiet.
  - apply Hq, on_text_quiet.
  - apply Hq, on_media_quiet.
  - destruct (cmd_timer_cases st u0 args now Hwf) as [H|(uid & w & -> & Hauth & ? & ? & He)].
    + by apply Hq.
    + destruct (cmd_timer_schedules st uid args now w) as (dr & _ & -> & _); try done.
      rewrite lookup_insert_ne; [done|]. intros ->. congruence.
  - destruct u0 as [uid|]; [|done]. destruct (authorized uid) eqn:Hauth.
    + destruct (cmd_cancel_timer_admin st uid Hauth) as (Hjs & _). by eapply Hdel.
    + unfold cmd_cancel_timer. by rewrite ensure_auth_stranger.
  - apply Hq, cmd_when_quiet.
  - destruct (on_cb_cases st uid data sent Hwf) as [H|[(-> & -> & Hauth & He)|(-> & Hauth)]].
    + by apply Hq.
    + destruct (on_cb_pub_sent st uid Hwf Hauth He) as (_ & _ & Hjs & _). by eapply Hdel.
    + destruct (on_cb_clr st uid sent Hwf Hauth) as (_ & _ & Hjs & _). by eapply Hdel.
  - destruct (job_cases st id sent) as [->|(t & Ht & Hs)]; [done|].
    destruct sent.
    + destruct (job_sent st id t Ht (sleeping_not_done t Hs)) as (_ & Hjs & _).
      by eapply Hdel.
    + by destruct (job_failed st id t Ht (sleeping_not_done t Hs)) as (_ & -> & _).
Qed.

(** X13. The program keeps state for the administrator only: in every
    state it reaches, a user who is not the administrator has no entry in
    [DRAFTS], none in [SCHEDULES] and no task, whatever updates that user
    and others have sent. *)
Theorem strangers_leave_no_trace (evs : list event) (u : Z) :
  authorized u = false ->
  DRAFTS (run evs initial) !! u = None
  /\ SCHEDULES (run evs initial) !! u = None
  /\ (forall id t, tasks (run evs initial) !! id = Some t -> t_uid t <> u)
  /\ draft_of (run evs initial) u = Draft_new.
Proof.
  intros Hu.
  assert (H : DRAFTS (run evs initial) !! u = None
              /\ SCHEDULES (run evs initial) !! u = None
              /\ (forall id t, tasks (run evs initial) !! id = Some t -> t_uid t <> u)).
  { induction evs as [|ev evs IH] using rev_ind.
    - cbn. split_and!; done.
    - destruct IH as (HD & HS & HT). rewrite run_snoc.
      destruct (reachable evs) as (Hwf & _).
      destruct (decide (sender ev = Some u)) as [Hs|Hs].
      { by rewrite (stranger_step ev _ u Hs Hu). }
      split_and!.
      + by rewrite step_DRAFTS.
      + by apply step_SCHEDULES_stranger.
      + intros id t' Ht'.
        destruct (step_tasks_back _ ev id t' Hwf Ht')
          as [(t & Ht & _ & -> & _)|(uid & _ & <- & Hauth & _)]; [by eapply HT|].
        intros E. rewrite E in Hauth. congruence. }
  destruct H as (HD & HS & HT). split_and!; try done.
  unfold draft_of. by rewrite HD.
Qed.

Lemma strangers_leave_no_trace_witness :
  DRAFTS (run [Text (Some ADMIN_USER_ID) hello; Text (Some 1) hello;
               Media "photo" (Some 1) "f" hello; Button 1 "clr" true] initial) !! 1 = None.
Proof.
  exact (proj1 (strangers_leave_no_trace
    [Text (Some ADMIN_USER_ID) hello; Text (Some 1) hello;
     Media "photo" (Some 1) "f" hello; Button 1 "clr" true] 1 eq_refl)).
Defined.

(** *** Inputs the patterns do not match *)

Lemma append_assoc_s (a b c : string) : ((a ++ b) ++ c)%string = (a ++ (b ++ c))%string.
Proof.
  induction a as [|x a IH]; [done|].
  change (String x (((a ++ b) ++ c)%string) = String x ((a ++ (b ++ c))%string)).
  by rewrite IH.
Qed.

Lemma all_chars_app p (a b : string) :
  all_chars p (a ++ b)%string = all_chars p a && all_chars p b.
Proof.
  induction a as [|x a IH]; [done|].
  change (String x a ++ b)%string with (String x (a ++ b)%string). cbn [all_chars].
  by rewrite IH, andb_assoc.
Qed.

Lemma all_chars_weaken (p q : ascii -> bool) (a : string) :
  (forall c, p c = true -> q c = true) -> all_chars p a = true -> all_chars q a = true.
Proof.
  intros Hpq. induction a as [|x a IH]; [done|]. cbn.
  intros [Hx Ha]%andb_true_iff. by rewrite (Hpq x Hx), IH.
Qed.

(** A repetition fails when what follows it fails wherever the repetition
    might stop. *)
Lemma rep_run_None {R} p (s : string) : forall lo hi (k : string -> option R),
  (forall s1 s2, s = (s1 ++ s2)%string -> all_chars p s1 = true -> k s2 = None) ->
  rep_run p lo hi s k = None.
Proof.
  induction s as [|c s IH]; intros lo hi k Hk.
  - cbn. destruct (lo =? 0)%nat; [|done]. by apply (Hk "" "").
  - cbn [rep_run].
    assert (Hstop : (if (lo =? 0)%nat then k (String c s) else None) = None).
    { destruct (lo =? 0)%nat; [|done]. by apply (Hk "" (String c s)). }
    destruct (p c) eqn:Hc; [|done]. cbn [andb].
    destruct (match hi with Some O => false | _ => true end); [|done].
    rewrite IH; [done|]. intros s1 s2 -> H1. apply (Hk (String c s1) s2); [done|].
    cbn. by rewrite Hc.
Qed.

(** Where a prefix made of characters of [p] can end, in a string that
    begins with such characters and then stops. *)
Lemma split_class p (a : string) : forall r x e,
  (a ++ r)%string = (x ++ e)%string -> all_chars p a = true -> all_chars p x = true ->
  stops p r ->
  exists a', e = (a' ++ r)%string /\ all_chars p a' = true.
Proof.
  induction a as [|c a IH]; intros r x e E Ha Hx Hr.
  - destruct x as [|d x]; [by exists ""|].
    change (r = String d (x ++ e)%string) in E. subst r. cbn in Hr, Hx.
    apply andb_true_iff in Hx as [Hd _]. congruence.
  - destruct x as [|d x]; [exists (String c a); by rewrite E|].
    change (String c (a ++ r)%string = String d (x ++ e)%string) in E.
    injection E as -> E. cbn in Ha, Hx.
    apply andb_true_iff in Ha as [_ Ha]. apply andb_true_iff in Hx as [_ Hx].
    by apply (IH r x e).
Qed.

Lemma first_char_after p (q : ascii -> Prop) (a r : string) :
  all_chars p a = true -> (forall c, p c = true -> q c) -> opens q r ->
  opens q (a ++ r)%string.
Proof.
  intros Ha Hpq Hr. destruct a as [|c a]; [done|]. cbn in *.
  apply andb_true_iff in Ha as [Hc _]. by apply Hpq.
Qed.

Lemma colon_class : space_or_digit ":" = false.
Proof. reflexivity. Qed.

(** [TIME_HHMM] does not match an input in which white space and digits are
    followed by something other than a colon. *)
Lemma TIME_HHMM_no_match (a r : string) :
  all_chars space_or_digit a = true ->
  opens (fun c => space_or_digit c = false /\ c <> ":"%char) r ->
  re_match false TIME_HHMM (a ++ r)%string = None.
Proof.
  intros Ha Hr. unfold re_match, TIME_HHMM, star, between. cbn [cat_all re_run].
  assert (Hstop : stops space_or_digit r).
  { destruct r as [|c r]; [done|]. by destruct Hr. }
  apply rep_run_None. intros s1 s2 E H1. apply rep_run_None. intros d e -> Hd.
  rewrite <- append_assoc_s in E.
  assert (Hx : all_chars space_or_digit (s1 ++ d)%string = true).
  { rewrite all_chars_app. apply andb_true_iff. split.
    - apply (all_chars_weaken is_space); [|done]. intros c Hc. unfold space_or_digit.
      by rewrite Hc.
    - apply (all_chars_weaken is_digit); [|done]. intros c Hc. unfold space_or_digit.
      rewrite Hc. apply orb_true_r. }
  destruct (split_class _ a r _ e E Ha Hx Hstop) as (a' & -> & Ha').
  assert (Ho : opens (fun c => c <> ":"%char) (a' ++ r)%string).
  { apply (first_char_after space_or_digit); [done| |].
    - intros c Hc ->. by rewrite colon_class in Hc.
    - destruct r as [|c r]; [done|]. by destruct Hr. }
  destruct (a' ++ r)%string as [|c rest]; [done|]. cbn in Ho. unfold chr_eq.
  destruct (Ascii.eqb_spec ":" c) as [<-|]; done.
Qed.

(** A pattern that wants a digit after the leading white space does not
    match an input that has something else there. *)
Lemma leading_digit_wanted {R} (a r : string) lo hi (k : string -> string -> option R) :
  all_chars is_space a = true ->
  opens (fun c => is_space c = false /\ is_digit c = false) r ->
  rep_run is_space 0 None (a ++ r)%string (fun s' => rep_run is_digit (S lo) hi s' (k s'))
  = None.
Proof.
  intros Ha Hr. apply rep_run_None. intros s1 s2 E H1.
  assert (Hs : stops is_space r).
  { destruct r as [|c r]; [done|]. by destruct Hr. }
  destruct (split_class _ a r s1 s2 E Ha H1 Hs) as (a' & -> & Ha').
  assert (Ho : opens (fun c => is_digit c = false) (a' ++ r)%string).
  { apply (first_char_after is_space); [done| |].
    - intros c Hc. destruct (is_digit c) eqn:Hd; [|done].
      apply digit_not_space in Hd. congruence.
    - destruct r as [|c r]; [done|]. by destruct Hr. }
  destruct (a' ++ r)%string as [|d s2]; [done|]. cbn in Ho. cbn [rep_run]. by rewrite Ho.
Qed.

Lemma TIME_HHMM_no_digit (a r : string) :
  all_chars is_space a = true ->
  opens (fun c => is_space c = false /\ is_digit c = false) r ->
  re_match false TIME_HHMM (a ++ r)%string = None.
Proof.
  intros Ha Hr. unfold re_match, TIME_HHMM, star, between. cbn [cat_all re_run].
  by apply (leading_digit_wanted a r 0 (Some 2%nat)).
Qed.

Lemma TIME_ABS_no_match (a r : string) :
  all_chars is_space a = true ->
  opens (fun c => is_space c = false /\ is_digit c = false) r ->
  re_match false TIME_ABS (a ++ r)%string = None.
Proof.
  intros Ha Hr. unfold re_match, TIME_ABS, star, between. cbn [cat_all re_run].
  by apply (leading_digit_wanted a r 3 (Some 4%nat)).
Qed.





(** *** The second grammar: [YYYY-MM-DD HH:MM] *)

(** The groups of [TIME_ABS] on an input of the form it describes. *)
Lemma TIME_ABS_match (ws1 y mo d ws h m ws2 : string) :
  all_chars is_space ws1 = true ->
  all_chars is_digit y = true -> String.length y = 4%nat ->
  all_chars is_digit mo = true -> String.length mo = 2%nat ->
  all_chars is_digit d = true -> String.length d = 2%nat ->
  all_chars is_space ws = true -> (1 <= String.length ws)%nat ->
  all_chars is_digit h = true -> (1 <= String.length h <= 2)%nat ->
  all_chars is_digit m = true -> String.length m = 2%nat ->
  all_chars is_space ws2 = true ->
  re_match false TIME_ABS
    (ws1 ++ y ++ "-" ++ mo ++ "-" ++ d ++ ws ++ h ++ ":" ++ m ++ ws2)%string
  = Some (<[5%nat := m]> (<[4%nat := h]> (<[3%nat := d]> (<[2%nat := mo]>
            (<[1%nat := y]> ∅))))).
Proof.
  intros Hws1 Hy Hly Hmo Hlmo Hd Hld Hws Hlws Hh Hlh Hm Hlm Hws2.
  unfold re_match, TIME_ABS, star, plus, between. cbn [cat_all re_run].
  erewrite rep_run_greedy; [reflexivity|done|lia|done| |].
  { right. apply stops_space_digits; [done|lia]. }
  erewrite rep_run_greedy; [reflexivity|done|lia|lia| |].
  { left. by rewrite Hly. }
  change ("-" ++ mo ++ ?r)%string with (String "-" (mo ++ r)%string).
  cbv beta iota. unfold chr_eq. rewrite Ascii.eqb_refl.
  erewrite rep_run_greedy; [reflexivity|done|lia|lia| |].
  { left. by rewrite Hlmo. }
  change ("-" ++ d ++ ?r)%string with (String "-" (d ++ r)%string).
  cbv beta iota. rewrite Ascii.eqb_refl.
  erewrite rep_run_greedy; [reflexivity|done|lia|lia| |].
  { left. by rewrite Hld. }
  erewrite rep_run_greedy; [reflexivity|done|lia|done| |].
  { right. apply stops_space_digits; [done|lia]. }
  erewrite rep_run_greedy; [reflexivity|done|lia|lia| |].
  { by right. }
  change (":" ++ m ++ ws2)%string with (String ":" (m ++ ws2)%string).
  cbv beta iota. rewrite Ascii.eqb_refl.
  erewrite rep_run_greedy; [reflexivity|done|lia|lia| |].
  { left. by rewrite Hlm. }
  rewrite <- (append_empty_r ws2) at 1.
  erewrite rep_run_greedy; [reflexivity|done|lia|done| |].
  { by right. }
  cbn [at_end].
  by rewrite (consumed_app y), (consumed_app mo), (consumed_app d), (consumed_app h),
    (consumed_app m).
Qed.

Lemma TIME_HHMM_not_a_date (ws1 y rest : string) :
  all_chars is_space ws1 = true -> all_chars is_digit y = true ->
  re_match false TIME_HHMM (ws1 ++ y ++ "-" ++ rest)%string = None.
Proof.
  intros Hws1 Hy. rewrite <- append_assoc_s. apply TIME_HHMM_no_match.
  - rewrite all_chars_app. apply andb_true_iff. split.
    + apply (all_chars_weaken is_space); [|done]. intros c Hc. unfold space_or_digit.
      by rewrite Hc.
    + apply (all_chars_weaken is_digit); [|done]. intros c Hc. unfold space_or_digit.
      rewrite Hc. apply orb_true_r.
  - change ("-" ++ rest)%string with (String "-" rest). by cbn.
Qed.

(** X15. The second grammar: an input [YYYY-MM-DD HH:MM] (white space
    around, at least one white-space character between date and time, an
    hour of one or two digits) yields exactly the date and time it names,
    with zero seconds, in the zone of [now], whether or not that instant is
    in the past; when the fields name no date or no time of the calendar
    (month 13, 30 February, hour 24, year 0000) the answer is [None], and
    nothing is raised. *)
Theorem parse_when_absolute_date (ws1 y mo d ws h m ws2 : string) (now : datetime) :
  all_chars is_space ws1 = true ->
  all_chars is_digit y = true -> String.length y = 4%nat ->
  all_chars is_digit mo = true -> String.length mo = 2%nat ->
  all_chars is_digit d = true -> String.length d = 2%nat ->
  all_chars is_space ws = true -> (1 <= String.length ws)%nat ->
  all_chars is_digit h = true -> (1 <= String.length h <= 2)%nat ->
  all_chars is_digit m = true -> String.length m = 2%nat ->
  all_chars is_space ws2 = true ->
  parse_when (ws1 ++ y ++ "-" ++ mo ++ "-" ++ d ++ ws ++ h ++ ":" ++ m ++ ws2)%string now
  = if check_date_fields (digits_value 0 y) (digits_value 0 mo) (digits_value 0 d)
       && check_time_fields (digits_value 0 h) (digits_value 0 m) 0 0
    then Ok (Some (mkDT (digits_value 0 y) (digits_value 0 mo) (digits_value 0 d)
                        (digits_value 0 h) (digits_value 0 m) 0 0 (tzinfo now) 0))
    else Ok None.
Proof.
  intros Hws1 Hy Hly Hmo Hlmo Hd Hld Hws Hlws Hh Hlh Hm Hlm Hws2.
  unfold parse_when. rewrite TIME_HHMM_not_a_date by done.
  rewrite TIME_ABS_match by done.
  unfold group.
  rewrite !lookup_insert_eq.
  repeat (rewrite lookup_insert_ne by done; rewrite ?lookup_insert_eq).
  cbn [default from_option]. unfold id.
  rewrite !int_short by lia. cbn [bind]. unfold datetime_new.
  by destruct (_ && _).
Qed.

Lemma parse_when_absolute_date_witness :
  parse_when ("" ++ "2020" ++ "-" ++ "02" ++ "-" ++ "29" ++ " " ++ "9" ++ ":" ++ "05" ++ "")%string
             new_year_evening
  = Ok (Some (mkDT 2020 2 29 9 5 0 0 LOCAL_TZ 0)).
Proof.
  refine (eq_trans (parse_when_absolute_date "" "2020" "02" "29" " " "9" "05" ""
    new_year_evening _ _ _ _ _ _ _ _ _ _ _ _ _ _) _);
    try reflexivity; simpl; lia.
Defined.

(** *** The third grammar: [in N unit] *)

(** A character whose lower case is a lower-case letter is a letter. *)
Lemma lower_letter (c x : ascii) :
  lower c = x -> (97 <= code x <= 122)%N ->
  is_space c = false /\ is_digit c = false /\ code c <> 10%N.
Proof.
  unfold lower, is_space, is_digit. intros E Hx.
  destruct ((65 <=? code c)%N && (code c <=? 90)%N) eqn:Eu.
  - apply andb_true_iff in Eu as [E1 E2]. apply N.leb_le in E1, E2.
    split_and!; [| |lia];
      repeat match goal with
      | |- context [(?a <=? ?b)%N] => destruct (N.leb_spec a b)
      | |- context [(?a =? ?b)%N] => destruct (N.eqb_spec a b)
      end; cbn; try done; lia.
  - subst x. split_and!; [| |lia];
      repeat match goal with
      | |- context [(?a <=? ?b)%N] => destruct (N.leb_spec a b)
      | |- context [(?a =? ?b)%N] => destruct (N.eqb_spec a b)
      end; cbn; try done; lia.
Qed.

Lemma spaces_then_end {R} (ws : string) (r : R) :
  all_chars is_space ws = true ->
  rep_run is_space 0 None ws (fun s => if at_end s then Some r else None) = Some r.
Proof.
  intros H. rewrite <- (append_empty_r ws).
  by apply rep_run_greedy; [done|lia|done|right|].
Qed.

Lemma letter_then_not_end {R} (c : ascii) (x : ascii) (s : string) (r : R) :
  lower c = x -> (97 <= code x <= 122)%N ->
  rep_run is_space 0 None (String c s) (fun s => if at_end s then Some r else None) = None.
Proof.
  intros E Hx. destruct (lower_letter c x E Hx) as (Hs & _ & Hn).
  cbn [rep_run]. rewrite Hs. cbn. destruct s; [|done].
  by destruct (N.eqb_spec (code c) 10).
Qed.

Lemma lower_consts :
  lower "m" = "m"%char /\ lower "i" = "i"%char /\ lower "n" = "n"%char
  /\ lower "h" = "h"%char /\ lower "r" = "r"%char /\ lower "d" = "d"%char.
Proof. by vm_compute. Qed.

Ltac eqb_consts :=
  repeat match goal with
  | |- context [Ascii.eqb ?a ?b] =>
    let v := eval vm_compute in (Ascii.eqb a b) in
    change (Ascii.eqb a b) with v
  end.

Ltac letter := first [done | vm_compute; split; discriminate].

Lemma REL_tail_match (unit ws2 : string) (caps : gmap nat string) :
  lower_str unit ∈ units -> all_chars is_space ws2 = true ->
  re_run true REL_tail (unit ++ ws2)%string caps (fun _ caps => Some caps)
  = Some (<[2%nat := unit]> caps).
Proof.
  intros Hu Hws2. destruct lower_consts as (Lm & Li & Ln & Lh & Lr & Ld).
  rewrite <- (consumed_app unit ws2) at 2.
  unfold REL_tail, star. cbn [cat_all re_run lit]. unfold chr_eq.
  rewrite Lm, Li, Ln, Lh, Lr, Ld.
  unfold units in Hu. rewrite !elem_of_cons in Hu.
  destruct Hu as [Hu|[Hu|[Hu|[Hu|[Hu|Hu]]]]]; [..|by apply elem_of_nil in Hu].
  - destruct unit as [|c1 [|c2 u]]; cbn in Hu; try discriminate.
    injection Hu as E1.
    change (String c1 "" ++ ws2)%string with (String c1 ws2).
    cbv beta iota. rewrite E1. eqb_consts. cbv beta iota.
    by rewrite spaces_then_end.
  - destruct unit as [|c1 [|c2 [|c3 [|c4 u]]]]; cbn in Hu; try discriminate.
    injection Hu as E1 E2 E3.
    change (String c1 (String c2 (String c3 "")) ++ ws2)%string
      with (String c1 (String c2 (String c3 ws2))).
    cbv beta iota. rewrite E1, E2, E3. eqb_consts. cbv beta iota.
    rewrite (letter_then_not_end c2 "i") by letter.
    by rewrite spaces_then_end.
  - destruct unit as [|c1 [|c2 u]]; cbn in Hu; try discriminate.
    injection Hu as E1.
    change (String c1 "" ++ ws2)%string with (String c1 ws2).
    cbv beta iota. rewrite E1. eqb_consts. cbv beta iota.
    by rewrite spaces_then_end.
  - destruct unit as [|c1 [|c2 [|c3 u]]]; cbn in Hu; try discriminate.
    injection Hu as E1 E2.
    change (String c1 (String c2 "") ++ ws2)%string with (String c1 (String c2 ws2)).
    cbv beta iota. rewrite E1, E2. eqb_consts. cbv beta iota.
    rewrite (letter_then_not_end c2 "r") by letter.
    by rewrite spaces_then_end.
  - destruct unit as [|c1 [|c2 u]]; cbn in Hu; try discriminate.
    injection Hu as E1.
    change (String c1 "" ++ ws2)%string with (String c1 ws2).
    cbv beta iota. rewrite E1. eqb_consts. cbv beta iota.
    by rewrite spaces_then_end.
Qed.

Lemma unit_opens (unit : string) :
  lower_str unit ∈ units ->
  exists c u, unit = String c u /\ is_space c = false /\ is_digit c = false.
Proof.
  intros Hu. unfold units in Hu. rewrite !elem_of_cons in Hu.
  destruct unit as [|c u].
  { cbn in Hu. destruct Hu as [Hu|[Hu|[Hu|[Hu|[Hu|Hu]]]]]; try discriminate.
    by apply elem_of_nil in Hu. }
  exists c, u. split; [done|]. cbn in Hu.
  assert (H : exists x, lower c = x /\ (97 <= code x <= 122)%N).
  { destruct Hu as [Hu|[Hu|[Hu|[Hu|[Hu|Hu]]]]]; [..|by apply elem_of_nil in Hu];
      injection Hu as E _; eexists; (split; [exact E|letter]). }
  destruct H as (x & E & Hx). by destruct (lower_letter c x E Hx) as (? & ? & _).
Qed.

(** The groups of [TIME_REL] on an input of the form it describes. *)
Lemma TIME_REL_match (ws1 kw ws n ws' unit ws2 : string) :
  all_chars is_space ws1 = true ->
  lower_str kw = "in" ->
  all_chars is_space ws = true -> (1 <= String.length ws)%nat ->
  all_chars is_digit n = true -> (1 <= String.length n)%nat ->
  all_chars is_space ws' = true ->
  lower_str unit ∈ units ->
  all_chars is_space ws2 = true ->
  re_match true TIME_REL (ws1 ++ kw ++ ws ++ n ++ ws' ++ unit ++ ws2)%string
  = Some (<[2%nat := unit]> (<[1%nat := n]> ∅)).
Proof.
  intros Hws1 Hkw Hws Hlws Hn Hln Hws' Hu Hws2.
  destruct lower_consts as (Lm & Li & Ln & Lh & Lr & Ld).
  destruct kw as [|ci [|cn [|c kw]]]; cbn in Hkw; try discriminate.
  injection Hkw as Ei En.
  destruct (lower_letter ci "i" Ei ltac:(letter)) as (Hsi & _ & _).
  destruct (unit_opens unit Hu) as (cu & u' & Eu & Hsu & Hdu).
  unfold re_match.
  change TIME_REL with
    (Cat (star is_space) (Cat (lit "in") (Cat (plus is_space)
       (Cat (Grp 1 (plus is_digit)) (Cat (star is_space) REL_tail))))).
  unfold star, plus. cbn [re_run lit].
  change (String ci (String cn "") ++ ?r)%string with (String ci (String cn r)).
  erewrite rep_run_greedy; [reflexivity|done|lia|done| |].
  { by right. }
  cbv beta iota. unfold chr_eq. rewrite Li, Ln, Ei, En. eqb_consts. cbv beta iota.
  erewrite rep_run_greedy; [reflexivity|done|lia|done| |].
  { right. apply stops_space_digits; [done|lia]. }
  erewrite rep_run_greedy; [reflexivity|done|lia|done| |].
  { right. apply (first_char_after is_space (fun c => is_digit c = false)); [done| |].
    - intros c Hc. destruct (is_digit c) eqn:Hd; [|done].
      apply digit_not_space in Hd. congruence.
    - by rewrite Eu. }
  erewrite rep_run_greedy; [reflexivity|done|lia|done| |].
  { right. by rewrite Eu. }
  rewrite REL_tail_match by done. by rewrite consumed_app.
Qed.

(** *** Adding a duration *)

Lemma int_ok (s : string) :
  (String.length s <= int_max_str_digits)%nat -> int s = Ok (digits_value 0 s).
Proof.
  intros Hs. unfold int.
  destruct (Nat.ltb_spec int_max_str_digits (String.length s)); [lia|done].
Qed.

Lemma int_too_long (s : string) :
  (int_max_str_digits < String.length s)%nat -> int s = Raise ValueError.
Proof.
  intros Hs. unfold int.
  destruct (Nat.ltb_spec int_max_str_digits (String.length s)); [done|lia].
Qed.

Lemma timedelta_new_spec (d h m : Z) :
  0 <= d -> 0 <= h -> 0 <= m ->
  ((d * 86400 + h * 3600 + m * 60) / 86400 <= 999999999 ->
   exists td, timedelta_new d h m = Ok td
     /\ td_days td * 86400 + td_seconds td = d * 86400 + h * 3600 + m * 60
     /\ 0 <= td_seconds td < 86400 /\ td_microseconds td = 0 /\ 0 <= td_days td)
  /\ (999999999 < (d * 86400 + h * 3600 + m * 60) / 86400 ->
      timedelta_new d h m = Raise OverflowError).
Proof.
  intros Hd Hh Hm. unfold timedelta_new. cbv zeta.
  set (s := m * 60 + h * 3600).
  assert (Hs : 0 <= s) by (unfold s; lia).
  assert (Hq : 0 <= s / 86400) by (apply Z.div_pos; lia).
  assert (Hr : 0 <= s mod 86400 < 86400) by (apply Z.mod_pos_bound; lia).
  assert (Hsplit : s = 86400 * (s / 86400) + s mod 86400) by (apply Z.div_mod; lia).
  assert (Htot : (d * 86400 + h * 3600 + m * 60) / 86400 = d + s / 86400).
  { replace (d * 86400 + h * 3600 + m * 60) with (d * 86400 + s) by (unfold s; lia).
    apply Z.div_add_l. lia. }
  rewrite Htot. rewrite (Z.abs_eq (d + s / 86400)) by lia. split.
  - intros Hle. destruct (Z.ltb_spec 999999999 (d + s / 86400)); [lia|].
    eexists. split; [reflexivity|]. cbn [td_days td_seconds td_microseconds].
    split_and!; try done; try lia.
  - intros Hgt. by destruct (Z.ltb_spec 999999999 (d + s / 86400)); [|lia].
Qed.

(** Seconds since midnight of day 0. *)
Lemma wall_clock_seconds dt :
  wall_clock dt
  = (toordinal dt * 86400 + (hour dt * 3600 + minute dt * 60 + second dt)) * 1000000
    + microsecond dt.
Proof. unfold wall_clock. lia. Qed.

Lemma datetime_add_total dt td :
  valid_datetime dt = true ->
  0 <= td_seconds td < 86400 -> td_microseconds td = 0 ->
  (86400 <= toordinal dt * 86400 + (hour dt * 3600 + minute dt * 60 + second dt)
            + (td_days td * 86400 + td_seconds td) < (MAXORDINAL + 1) * 86400 ->
   exists r, datetime_add dt td = Ok r
     /\ wall_clock r = wall_clock dt + (td_days td * 86400 + td_seconds td) * 1000000
     /\ tzinfo r = tzinfo dt /\ fold r = 0 /\ valid_datetime r = true)
  /\ (~ (86400 <= toordinal dt * 86400 + (hour dt * 3600 + minute dt * 60 + second dt)
               + (td_days td * 86400 + td_seconds td) < (MAXORDINAL + 1) * 86400) ->
      datetime_add dt td = Raise OverflowError).
Proof.
  intros Hdt HS Hus0. pose proof (valid_datetime_fields dt Hdt) as (Hd & Hh & Hm & Hs & Hus).
  unfold datetime_add. rewrite Hus0, Z.add_0_r.
  rewrite (Z.div_small (microsecond dt)), (Z.mod_small (microsecond dt)) by lia.
  rewrite Z.add_0_r.
  set (tod := hour dt * 3600 + minute dt * 60 + second dt).
  set (s := tod + td_seconds td).
  assert (Htod : 0 <= tod < 86400) by (unfold tod; lia).
  assert (Hr : 0 <= s mod 86400 < 86400) by (apply Z.mod_pos_bound; lia).
  assert (Hsplit : s = 86400 * (s / 86400) + s mod 86400) by (apply Z.div_mod; lia).
  set (d := toordinal dt + td_days td + s / 86400).
  assert (Htotal : toordinal dt * 86400 + tod + (td_days td * 86400 + td_seconds td)
                   = d * 86400 + s mod 86400) by (unfold d, s in *; lia).
  rewrite Htotal. set (s' := s mod 86400) in *.
  split.
  - intros Hrange. assert (Hdr : 1 <= d <= MAXORDINAL) by (unfold MAXORDINAL in *; lia).
    replace ((0 <? d) && (d <=? MAXORDINAL)) with true
      by (symmetry; apply andb_true_iff; split; lia).
    destruct (ord2ymd_spec d Hdr) as (y & mo & dd & -> & Hord & Hchk).
    assert (H1 : 0 <= s' / 3600 <= 23).
    { split; [apply Z.div_pos; lia|].
      cut (s' / 3600 < 24); [lia|]. apply Z.div_lt_upper_bound; lia. }
    assert (H2 : 0 <= s' mod 3600 < 3600) by (apply Z.mod_pos_bound; lia).
    assert (H3 : 0 <= (s' mod 3600) / 60 <= 59).
    { split; [apply Z.div_pos; lia|].
      cut ((s' mod 3600) / 60 < 60); [lia|]. apply Z.div_lt_upper_bound; lia. }
    assert (H4 : 0 <= (s' mod 3600) mod 60 < 60) by (apply Z.mod_pos_bound; lia).
    assert (H5 : s' = 3600 * (s' / 3600) + s' mod 3600) by (apply Z.div_mod; lia).
    assert (H6 : s' mod 3600 = 60 * ((s' mod 3600) / 60) + (s' mod 3600) mod 60)
      by (apply Z.div_mod; lia).
    eexists. split; [reflexivity|]. rewrite !wall_clock_seconds.
    unfold toordinal, valid_datetime, check_time_fields.
    cbn [year month day hour minute second microsecond tzinfo fold].
    fold (toordinal dt). fold tod. rewrite Hord, Hchk.
    split_and!; try done.
    + lia.
    + repeat (apply andb_true_iff; split); lia.
  - intros Hout.
    replace ((0 <? d) && (d <=? MAXORDINAL)) with false; [done|].
    symmetry. apply andb_false_iff.
    destruct (Z.ltb_spec 0 d); [|by left]. right. apply Z.leb_gt.
    unfold MAXORDINAL in *. lia.
Qed.

Lemma wall_clock_bound dt (x : Z) (L : Z) :
  0 <= microsecond dt <= 999999 ->
  (wall_clock dt + x * 1000000 < L * 1000000
   <-> toordinal dt * 86400 + (hour dt * 3600 + minute dt * 60 + second dt) + x < L).
Proof. intros Hus. rewrite wall_clock_seconds. lia. Qed.

(** [now + timedelta(days=d, hours=h, minutes=m)] for amounts that are not
    negative. *)
Lemma add_duration now (d h m : Z) :
  valid_datetime now = true -> 0 <= d -> 0 <= h -> 0 <= m ->
  (wall_clock now + (d * 86400 + h * 3600 + m * 60) * 1000000 < calendar_end ->
   exists r, (td <- timedelta_new d h m ;; dt <- datetime_add now td ;; Ok (Some dt))
             = Ok (Some r)
     /\ wall_clock r = wall_clock now + (d * 86400 + h * 3600 + m * 60) * 1000000
     /\ tzinfo r = tzinfo now /\ fold r = 0 /\ valid_datetime r = true)
  /\ (calendar_end <= wall_clock now + (d * 86400 + h * 3600 + m * 60) * 1000000 ->
      (td <- timedelta_new d h m ;; dt <- datetime_add now td ;; Ok (Some dt))
      = Raise OverflowError).
Proof.
  intros Hnow Hd Hh Hm.
  pose proof (valid_datetime_fields now Hnow) as (Hdate & Hnh & Hnm & Hns & Hnus).
  pose proof (ymd2ord_pos _ _ _ Hdate) as Hord. fold (toordinal now) in Hord.
  set (delta := d * 86400 + h * 3600 + m * 60).
  assert (Hdelta : 0 <= delta) by (unfold delta; lia).
  assert (Hq : 0 <= delta / 86400) by (apply Z.div_pos; lia).
  assert (Hsplit : delta = 86400 * (delta / 86400) + delta mod 86400)
    by (apply Z.div_mod; lia).
  assert (Hr : 0 <= delta mod 86400 < 86400) by (apply Z.mod_pos_bound; lia).
  unfold calendar_end.
  destruct (timedelta_new_spec d h m Hd Hh Hm) as [Hok Hover]. fold delta in Hok, Hover.
  split.
  - intros Hin. apply (wall_clock_bound now delta ((MAXORDINAL + 1) * 86400)) in Hin; [|done].
    destruct Hok as (td & -> & Htd & Hsec & Hus & Hdays).
    { unfold MAXORDINAL in *. lia. }
    cbn [bind].
    destruct (datetime_add_total now td Hnow Hsec Hus) as [Hadd _].
    destruct Hadd as (r & -> & Hw & Htz & Hf & Hv).
    { rewrite Htd. lia. }
    exists r. cbn [bind]. rewrite Htd in Hw. by split_and!.
  - intros Hout.
    assert (Hout' : ~ (toordinal now * 86400
                       + (hour now * 3600 + minute now * 60 + second now) + delta
                       < (MAXORDINAL + 1) * 86400)).
    { intros H. apply (wall_clock_bound now delta ((MAXORDINAL + 1) * 86400)) in H; [|done].
      lia. }
    destruct (Z.le_gt_cases (delta / 86400) 999999999) as [Hle|Hgt].
    + destruct (Hok Hle) as (td & -> & Htd & Hsec & Hus & Hdays). cbn [bind].
      destruct (datetime_add_total now td Hnow Hsec Hus) as [_ Hraise].
      rewrite Hraise; [done|]. rewrite Htd. lia.
    + rewrite Hover by lia. done.
Qed.

Ltac str_consts :=
  repeat match goal with
  | |- context [String.eqb ?a ?b] =>
    let v := eval vm_compute in (String.eqb a b) in
    change (String.eqb a b) with v
  end.

(** X16. The third grammar: for an input [in N unit] (white space around,
    at least one white-space character after [in], the unit one of m, min,
    h, hr and d, [in] and the unit in either case) the answer is [now] moved
    forward by exactly N minutes, hours or days on the wall clock, in the
    zone of [now]; when that is past the last day of the calendar the call
    raises [OverflowError], and when N has more digits than [int] accepts it
    raises [ValueError]. *)
Theorem parse_when_relative (ws1 kw ws n ws' unit ws2 : string) (now : datetime) :
  all_chars is_space ws1 = true ->
  lower_str kw = "in" ->
  all_chars is_space ws = true -> (1 <= String.length ws)%nat ->
  all_chars is_digit n = true -> (1 <= String.length n)%nat ->
  all_chars is_space ws' = true ->
  lower_str unit ∈ units ->
  all_chars is_space ws2 = true ->
  valid_datetime now = true ->
  ((String.length n <= int_max_str_digits)%nat ->
   wall_clock now
   + digits_value 0 n * unit_seconds (lower_str unit) * 1000000 < calendar_end ->
   exists r,
     parse_when (ws1 ++ kw ++ ws ++ n ++ ws' ++ unit ++ ws2)%string now = Ok (Some r)
     /\ wall_clock r
        = wall_clock now + digits_value 0 n * unit_seconds (lower_str unit) * 1000000
     /\ tzinfo r = tzinfo now /\ valid_datetime r = true)
  /\ ((String.length n <= int_max_str_digits)%nat ->
      calendar_end
      <= wall_clock now + digits_value 0 n * unit_seconds (lower_str unit) * 1000000 ->
      parse_when (ws1 ++ kw ++ ws ++ n ++ ws' ++ unit ++ ws2)%string now
      = Raise OverflowError)
  /\ ((int_max_str_digits < String.length n)%nat ->
      parse_when (ws1 ++ kw ++ ws ++ n ++ ws' ++ unit ++ ws2)%string now
      = Raise ValueError).
Proof.
  intros Hws1 Hkw Hws Hlws Hn Hln Hws' Hu Hws2 Hnow.
  pose proof (digits_value_nonneg n 0 Hn ltac:(done)) as Hamount.
  set (amount := digits_value 0 n) in *.
  assert (Hparse : parse_when (ws1 ++ kw ++ ws ++ n ++ ws' ++ unit ++ ws2)%string now
    = (amount <- int n ;;
       let unit := lower_str unit in
       if (unit =? "m")%string || (unit =? "min")%string then
         td <- timedelta_new 0 0 amount ;; dt <- datetime_add now td ;; Ok (Some dt)
       else if (unit =? "h")%string || (unit =? "hr")%string then
         td <- timedelta_new 0 amount 0 ;; dt <- datetime_add now td ;; Ok (Some dt)
       else if (unit =? "d")%string then
         td <- timedelta_new amount 0 0 ;; dt <- datetime_add now td ;; Ok (Some dt)
       else Ok None)).
  { unfold parse_when.
    assert (Hopen : opens (fun c => is_space c = false /\ is_digit c = false)
                      (kw ++ ws ++ n ++ ws' ++ unit ++ ws2)%string).
    { destruct kw as [|ci kw]; [done|]. cbn in Hkw. injection Hkw as Ei _.
      change (String ci kw ++ ?r)%string with (String ci (kw ++ r)%string). cbn.
      by destruct (lower_letter ci "i" Ei ltac:(letter)) as (? & ? & _). }
    rewrite TIME_HHMM_no_digit, TIME_ABS_no_match, TIME_REL_match by done.
    unfold group. rewrite lookup_insert_eq, lookup_insert_ne, lookup_insert_eq by done.
    done. }
  rewrite Hparse. clear Hparse.
  assert (Hcases :
    exists d h m, 0 <= d /\ 0 <= h /\ 0 <= m
      /\ d * 86400 + h * 3600 + m * 60 = amount * unit_seconds (lower_str unit)
      /\ (if (lower_str unit =? "m")%string || (lower_str unit =? "min")%string then
            td <- timedelta_new 0 0 amount ;; dt <- datetime_add now td ;; Ok (Some dt)
          else if (lower_str unit =? "h")%string || (lower_str unit =? "hr")%string then
            td <- timedelta_new 0 amount 0 ;; dt <- datetime_add now td ;; Ok (Some dt)
          else if (lower_str unit =? "d")%string then
            td <- timedelta_new amount 0 0 ;; dt <- datetime_add now td ;; Ok (Some dt)
          else Ok None)
         = (td <- timedelta_new d h m ;; dt <- datetime_add now td ;; Ok (Some dt))).
  { unfold units in Hu. rewrite !elem_of_cons in Hu. cbv zeta. unfold unit_seconds.
    destruct Hu as [Hu|[Hu|[Hu|[Hu|[Hu|Hu]]]]]; [..|by apply elem_of_nil in Hu];
      rewrite Hu; str_consts; cbn [orb].
    - exists 0, 0, amount. split_and!; try done; lia.
    - exists 0, 0, amount. split_and!; try done; lia.
    - exists 0, amount, 0. split_and!; try done; lia.
    - exists 0, amount, 0. split_and!; try done; lia.
    - exists amount, 0, 0. split_and!; try done; lia. }
  destruct Hcases as (d & h & m & Hd & Hh & Hm & Hdelta & Hbody).
  destruct (add_duration now d h m Hnow Hd Hh Hm) as [Hin Hout].
  rewrite Hdelta in Hin, Hout. split_and!.
  - intros Hlen Hrange. rewrite int_ok by done. cbn [bind]. cbv zeta. fold amount. rewrite Hbody.
    destruct (Hin Hrange) as (r & -> & Hw & Htz & _ & Hv). by exists r.
  - intros Hlen Hrange. rewrite int_ok by done. cbn [bind]. cbv zeta. fold amount. rewrite Hbody.
    by apply Hout.
  - intros Hlen. by rewrite int_too_long.
Qed.

Lemma parse_when_relative_witness :
  exists r,
    parse_when ("" ++ "In" ++ " " ++ "90" ++ " " ++ "MIN" ++ "")%string new_year_evening
    = Ok (Some r)
    /\ wall_clock r = wall_clock new_year_evening + 90 * 60 * 1000000.
Proof.
  destruct (proj1 (parse_when_relative "" "In" " " "90" " " "MIN" "" new_year_evening
    eq_refl eq_refl eq_refl (le_n 1) eq_refl (le_S _ _ (le_n 1)) eq_refl
    ltac:(vm_compute; apply list_elem_of_further, list_elem_of_here) eq_refl eq_refl))
    as (r & Hr & Hw & _).
  - vm_compute. lia.
  - vm_compute. reflexivity.
  - exists r. split; [exact Hr|exact Hw].
Defined.

(** *** The preview *)

(** X17. The preview of a draft that is not empty and whose last media
    entry, if there is one, is of one of the six kinds is the very call
    [publish_to_channel] makes for the draft, addressed to the operator
    instead of the channel: the same album, the same single item and
    caption, the same text. *)
Theorem preview_is_the_publication (uid : Z) (d : Draft) :
  is_empty d = false ->
  (forall k f, last_entry (media d) = Some (k, f) -> known_kind k = true) ->
  send_preview uid d = PreviewCall (to_chat (User uid) (publish_to_channel d)).
Proof.
  intros He Hk. unfold send_preview, publish_to_channel.
  destruct (draft_to_media_group d) as [[|i items]|]; try done;
    (destruct (last_entry (media d)) as [[k f]|] eqn:El;
      [specialize (Hk k f eq_refl); unfold known_kind, is_pv in Hk;
       destruct (k =? "photo")%string; [done|];
       destruct (k =? "video")%string; [done|];
       destruct (k =? "document")%string; [done|];
       destruct (k =? "animation")%string; [done|];
       destruct (k =? "audio")%string; [done|];
       destruct (k =? "voice")%string; [done|]; done
      |]);
    unfold last_entry in El; apply last_None in El; unfold is_empty in He;
    rewrite El in He; destruct (truthy (text d)); done.
Qed.

Lemma preview_is_the_publication_witness :
  send_preview ADMIN_USER_ID (mkDraft "hello" [("photo", "a"); ("document", "b")])
  = PreviewCall (send_document (User ADMIN_USER_ID) "b" (Some "hello") (Some HTML)).
Proof.
  refine (eq_trans (preview_is_the_publication ADMIN_USER_ID
    (mkDraft "hello" [("photo", "a"); ("document", "b")]) _ _) _).
  - reflexivity.
  - intros k f [= <- <-]. reflexivity.
  - reflexivity.
Defined.

Lemma on_cb_prev st uid sent :
  wf st -> authorized uid = true ->
  on_cb uid "prev" sent st
  = say uid (if is_empty (draft_of st uid) then DraftEmptyHint
             else Preview (draft_of st uid)) (get_draft uid st).2.
Proof.
  intros Hwf Hauth. unfold on_cb. rewrite Hauth. cbn [negb].
  pose proof (get_draft_read st uid (proj1 Hwf)) as Hread.
  destruct (get_draft uid st) as [d st1]. cbn [fst snd] in *.
  change ("prev" =? "noop")%string with false.
  change ("prev" =? "prev")%string with true. cbv iota.
  rewrite (shown_read _ _ _ Hread). by destruct (is_empty _).
Qed.

(** X18. The preview button shows the operator the draft as it is, or the
    hint that it is empty, and leaves drafts, registry, tasks and channel as
    they are. *)
Theorem preview_button_shows_the_draft (st : state) (uid : Z) (sent : bool) :
  wf st -> authorized uid = true ->
  outbox (step (Button uid "prev" sent) st)
  = outbox st ++ [(uid, if is_empty (draft_of st uid) then DraftEmptyHint
                        else Preview (draft_of st uid))]
  /\ (forall u, draft_of (step (Button uid "prev" sent) st) u = draft_of st u)
  /\ quiet st (step (Button uid "prev" sent) st).
Proof.
  intros Hwf Hauth. cbn [step]. rewrite on_cb_prev by done.
  destruct (say_get_draft st uid
              (if is_empty (draft_of st uid) then DraftEmptyHint
               else Preview (draft_of st uid)) (proj1 Hwf)) as (_ & Hc & Hj & Ht & Ho).
  split_and!.
  - done.
  - intros u. rewrite <- (get_draft_draft_of st uid (proj1 Hwf) u). done.
  - eapply quiet_trans; [apply get_draft_quiet|apply say_quiet].
Qed.

Lemma preview_button_shows_the_draft_witness :
  outbox (step (Button ADMIN_USER_ID "prev" true) scheduled_hello)
  = outbox scheduled_hello ++ [(ADMIN_USER_ID, Preview (mkDraft "hello" []))].
Proof.
  assert (Hwf : wf scheduled_hello) by apply run_phase, wf_initial.
  refine (eq_trans (proj1
    (preview_button_shows_the_draft scheduled_hello ADMIN_USER_ID true Hwf _)) _).
  - reflexivity.
  - vm_compute. reflexivity.
Defined.

(** *** [/timer] refused *)

Lemma cmd_timer_empty_draft st uid args now w :
  wf st -> authorized uid = true -> args <> [] ->
  parse_when (join_args args) now = Ok (Some w) ->
  is_empty (draft_of st uid) = true ->
  forall u, draft_of (cmd_timer (Some uid) args now st) u = draft_of st u.
Proof.
  intros Hwf Hauth Hargs Hparse He u. unfold cmd_timer.
  rewrite ensure_auth_admin by done. destruct args as [|a args]; [done|].
  rewrite Hparse.
  pose proof (get_draft_spec st uid (proj1 Hwf)) as (_ & _ & _ & Ho & _ & _ & _ & Hok1).
  pose proof (get_draft_read st uid (proj1 Hwf)) as Hread1.
  pose proof (get_draft_draft_of st uid (proj1 Hwf) u) as Hsame1.
  destruct (get_draft uid st) as [d st1]. cbn [fst snd] in *.
  pose proof (Draft_copy_spec st1 d Hok1 Ho) as (Hread2 & _ & _ & HD2 & _ & Hf2 & _).
  pose proof (draft_of_same st1 (Draft_copy d st1).2 Hok1 HD2 Hf2 u) as Hsame2.
  destruct (Draft_copy d st1) as [draft st2]. cbn [fst snd] in *.
  rewrite Hread1 in Hread2. rewrite (shown_read _ _ _ Hread2), He.
  change (draft_of (say uid NothingToSchedule st2) u) with (draft_of st2 u).
  congruence.
Qed.

(** X19. A [/timer] command that schedules nothing leaves the registry, the
    tasks, the channel and the drafts as they are, so that a timer set
    before stays set: without arguments it answers with the formats, for an
    expression [parse_when] does not understand with the examples, for an
    empty draft that there is nothing to schedule; and when [parse_when]
    raises, the handler ends there without any answer. *)
Theorem timer_refusals_change_nothing (st : state) (uid : Z) (args : list string)
    (now : datetime) :
  wf st -> authorized uid = true ->
  (args = [] -> step (Timer (Some uid) args now) st = say uid TimerFormats st)
  /\ (args <> [] -> parse_when (join_args args) now = Ok None ->
      step (Timer (Some uid) args now) st = say uid TimerNotUnderstood st)
  /\ (args <> [] -> forall e, parse_when (join_args args) now = Raise e ->
      step (Timer (Some uid) args now) st = st)
  /\ (args <> [] -> forall w, parse_when (join_args args) now = Ok (Some w) ->
      is_empty (draft_of st uid) = true ->
      quiet st (step (Timer (Some uid) args now) st)
      /\ outbox (step (Timer (Some uid) args now) st)
         = outbox st ++ [(uid, NothingToSchedule)]
      /\ forall u, draft_of (step (Timer (Some uid) args now) st) u = draft_of st u).
Proof.
  intros Hwf Hauth. cbn [step]. split_and!.
  - intros ->. unfold cmd_timer. by rewrite ensure_auth_admin.
  - intros Hargs Hparse. unfold cmd_timer. rewrite ensure_auth_admin by done.
    destruct args; [done|]. by rewrite Hparse.
  - intros Hargs e Hparse. unfold cmd_timer. rewrite ensure_auth_admin by done.
    destruct args; [done|]. by rewrite Hparse.
  - intros Hargs w Hparse He. split_and!.
    + destruct (cmd_timer_cases st (Some uid) args now Hwf)
        as [H|(uid' & w' & [= <-] & _ & _ & _ & He')]; [done|congruence].
    + by destruct (cmd_timer_empty st uid args now w) as (_ & _ & _ & ?).
    + by apply (cmd_timer_empty_draft st uid args now w).
Qed.

Lemma timer_refusals_change_nothing_witness :
  step (Timer (Some ADMIN_USER_ID) ["25:00"] new_year_evening) scheduled_hello
  = scheduled_hello.
Proof.
  assert (Hwf : wf scheduled_hello) by apply run_phase, wf_initial.
  refine (proj1 (proj2 (proj2
    (timer_refusals_change_nothing scheduled_hello ADMIN_USER_ID ["25:00"]
       new_year_evening Hwf _))) _ ValueError _).
  - reflexivity.
  - discriminate.
  - vm_compute. reflexivity.
Defined.

(** *** [Draft.copy] *)

(** X20. [Draft.copy] makes a new object with a list of its own: the copy
    reads as the original does, the original is unchanged, and what
    [add_media_to_draft] or [set_text_from] then do to either of the two
    does not show in the other. *)
Theorem copy_is_independent (st : state) (d : nat) :
  heap_ok st -> is_Some (objs st !! d) ->
  (Draft_copy d st).1 <> d
  /\ read_draft (Draft_copy d st).2 (Draft_copy d st).1 = read_draft st d
  /\ read_draft (Draft_copy d st).2 d = read_draft st d
  /\ (forall kind fid,
        read_draft (add_media_to_draft_ref d kind fid (Draft_copy d st).2) (Draft_copy d st).1
        = read_draft st d
        /\ read_draft (add_media_to_draft_ref (Draft_copy d st).1 kind fid (Draft_copy d st).2) d
           = read_draft st d)
  /\ (forall msg,
        read_draft (set_text_from msg d (Draft_copy d st).2) (Draft_copy d st).1
        = read_draft st d
        /\ read_draft (set_text_from msg (Draft_copy d st).1 (Draft_copy d st).2) d
           = read_draft st d).
Proof.
  intros Hok Hd.
  destruct (Draft_copy_spec st d Hok Hd) as (Hread & _ & _ & _ & _ & Hf & Hok1).
  destruct (heap_ok_read st d Hok Hd) as [D HD].
  assert (Hne : (Draft_copy d st).1 <> d).
  { unfold Draft_copy. rewrite HD. cbn.
    destruct (alloc_draft_spec st (text D) (media D) Hok) as (_ & _ & Hfresh & _).
    intros E. rewrite E in Hfresh. destruct Hd as [o Ho]. congruence. }
  destruct (Hf d I Hd) as [Hobj Hread_d].
  set (c := (Draft_copy d st).1) in *. set (st1 := (Draft_copy d st).2) in *.
  assert (Hc : is_Some (objs st1 !! c)).
  { apply (read_draft_obj st1 c D). by rewrite Hread. }
  assert (Hd1 : is_Some (objs st1 !! d)) by (by rewrite Hobj).
  split_and!; try done.
  - intros kind fid. split.
    + destruct (add_media_ref_spec st1 d kind fid Hok1 Hd1) as (_ & _ & _ & Hfr & _).
      destruct (Hfr c Hne Hc) as [_ ->]. done.
    + destruct (add_media_ref_spec st1 c kind fid Hok1 Hc) as (_ & _ & _ & Hfr & _).
      destruct (Hfr d (not_eq_sym Hne) Hd1) as [_ ->]. done.
  - intros msg. split.
    + destruct (set_text_spec st1 msg d Hok1 Hd1) as (_ & _ & _ & Hfr & _).
      destruct (Hfr c Hne Hc) as [_ ->]. done.
    + destruct (set_text_spec st1 msg c Hok1 Hc) as (_ & _ & _ & Hfr & _).
      destruct (Hfr d (not_eq_sym Hne) Hd1) as [_ ->]. done.
Qed.

Lemma copy_is_independent_witness :
  read_draft
    (add_media_to_draft_ref 1%nat "photo" "later"
       (Draft_copy 1%nat (run [Text (Some ADMIN_USER_ID) hello] initial)).2)
    (Draft_copy 1%nat (run [Text (Some ADMIN_USER_ID) hello] initial)).1
  = read_draft (run [Text (Some ADMIN_USER_ID) hello] initial) 1%nat.
Proof.
  assert (Hok : heap_ok (run [Text (Some ADMIN_USER_ID) hello] initial)).
  { apply run_phase, wf_initial. }
  refine (proj1 (proj1 (proj2 (proj2 (proj2
    (copy_is_independent (run [Text (Some ADMIN_USER_ID) hello] initial) 1%nat Hok _))))
    "photo" "later")).
  vm_compute. by eexists.
Defined.

(** *** The command of a message *)

Lemma substring_all (s : string) : substring 0 (String.length s) s = s.
Proof. induction s as [|c s IH]; [done|]. cbn. by rewrite IH. Qed.

Lemma from_index_app (pre rest : string) :
  from_index (String.length pre) (pre ++ rest)%string = rest.
Proof.
  unfold from_index. induction pre as [|c pre IH].
  - change ("" ++ rest)%string with rest. cbn [String.length].
    rewrite Nat.sub_0_r. apply substring_all.
  - change (String c pre ++ rest)%string with (String c (pre ++ rest)%string).
    cbn [String.length substring Nat.sub]. apply IH.
Qed.

Lemma from_index_beyond (s : string) : forall n,
  (String.length s <= n)%nat -> from_index n s = "".
Proof.
  unfold from_index. intros n Hn.
  replace (String.length s - n)%nat with 0%nat by lia.
  revert n Hn. induction s as [|c s IH]; intros n Hn; [by destruct n|].
  destruct n as [|n]; [cbn in Hn; lia|]. cbn [substring]. apply IH. cbn in Hn. lia.
Qed.

(** X21. A message or caption that holds a bot command is stored without
    it: what is kept is the stripped text after the end of the command
    (offset plus length of the entity), and the empty text when the command
    reaches the end of the message. The caption is read only when the
    message has no text. *)
Theorem command_is_cut_off (pre rest : string) (off len : nat) :
  String.length pre = (off + len)%nat -> truthy (pre ++ rest)%string = true ->
  (forall cap ccmd,
     text_from (mkMessage (Some (pre ++ rest)%string) (Some (off, len)) cap ccmd)
     = Some (strip rest))
  /\ (forall tcmd,
        text_from (mkMessage None tcmd (Some (pre ++ rest)%string) (Some (off, len)))
        = Some (strip rest))
  /\ (forall cap ccmd,
        text_from (mkMessage (Some pre) (Some (off, len)) cap ccmd)
        = if truthy pre then Some "" else text_from (mkMessage None None cap ccmd)).
Proof.
  intros Hlen Ht. split_and!.
  - intros cap ccmd. unfold text_from. cbn [msg_text msg_command]. rewrite Ht.
    unfold after_command. by rewrite <- Hlen, from_index_app.
  - intros tcmd. unfold text_from. cbn [msg_text msg_caption msg_caption_command].
    rewrite Ht. unfold after_command. by rewrite <- Hlen, from_index_app.
  - intros cap ccmd. unfold text_from. cbn [msg_text msg_command msg_caption].
    destruct (truthy pre); [|done].
    unfold after_command. rewrite from_index_beyond by lia. done.
Qed.

Lemma command_is_cut_off_witness :
  text_from (mkMessage None None (Some ("/post" ++ "  sunset at sea ")%string) (Some (0, 5)%nat))
  = Some "sunset at sea".
Proof.
  refine (eq_trans (proj1 (proj2
    (command_is_cut_off "/post" "  sunset at sea " 0 5 _ _)) None) _);
    reflexivity.
Defined.

(** *** The order of the media list *)

Lemma sublist_rev {A} (l1 l2 : list A) : l1 `sublist_of` l2 -> rev l1 `sublist_of` rev l2.
Proof.
  induction 1 as [|x l1 l2 _ IH|x l1 l2 _ IH]; cbn [rev].
  - constructor.
  - by apply sublist_app.
  - by apply sublist_inserts_r.
Qed.

Lemma collapse_from_sublist (l : list (string * string)) : forall seen,
  collapse_from seen l `sublist_of` l.
Proof.
  induction l as [|[k f] l IH]; intros seen; cbn [collapse_from]; [constructor|].
  destruct (is_pv k); [by constructor|].
  destruct (decide (k ∈ seen)); by constructor.
Qed.

(** X22. [add_media_to_draft] never reorders, repeats or invents entries:
    the new media list is the new entry put after a selection, in their
    order, of the entries the draft had; the entry just added is always
    kept, and it is the last one. *)
Theorem add_media_never_reorders (m : list (string * string)) (kind fid : string) :
  exists kept,
    add_media m kind fid = kept ++ [(kind, fid)]
    /\ kept `sublist_of` m
    /\ last (add_media m kind fid) = Some (kind, fid)
    /\ (length (add_media m kind fid) <= length m + 1)%nat.
Proof.
  assert (H : exists kept, add_media m kind fid = kept ++ [(kind, fid)]
                           /\ kept `sublist_of` m).
  { destruct (is_pv kind) eqn:Hk.
    - rewrite add_media_pv by done. unfold slice_last. rewrite length_app. cbn [length].
      exists (drop (length m + 1 - 10) m). split; [|apply sublist_drop].
      rewrite drop_app_le by lia. done.
    - rewrite add_media_single by done. eexists. split; [reflexivity|].
      rewrite <- (rev_involutive m) at 2. apply sublist_rev, collapse_from_sublist. }
  destruct H as (kept & E & Hsub). exists kept. split_and!; try done.
  - apply add_media_last.
  - rewrite E, length_app. cbn [length]. apply sublist_length in Hsub. lia.
Qed.
